(** * Exam platform: session lifecycle and scoring, embedded from the sources

    The development follows the TypeScript sources of the repository:
    - [src/hooks/useExamTimer.ts]  (hooks [useExamTimer] and [useAntiCheat]),
    - [src/pages/TakeExam.tsx]     (component [TakeExam]),
    - [src/pages/CreateExam.tsx]   (components [CreateExam], [GradeExam], [StudentExamResult]),
    - [src/lib/supabase.ts]        (table declarations),
    - [src/pages/TeacherDashboard.tsx] (component [EditExam]),
    - [src/pages/StudentDashboard.tsx], [src/App.tsx] and
      [components/ProtectedRoute].

    Part I holds the definitions, one module per source unit; Part II holds
    the statements proved about them. *)

From Stdlib Require Import ZArith QArith Qcanon List String Ascii Bool Lia.
From Stdlib Require PrimFloat SpecFloat FloatOps FloatAxioms Uint63.
From stdpp Require Import base numbers option list gmap strings fin_maps pretty.

Set Default Proof Using "Type".
Local Open Scope Z_scope.

(* ===================================================================== *)
(** * Part I. Definitions                                                 *)
(* ===================================================================== *)

(** ** JavaScript values used by the sources *)

Module Js.

(** A JS [number] where the grading code only tells 0, the points of a
    question and [NaN] apart: an exact rational, or [NaN] (what
    [parseFloat] yields on an empty field).  Rounding and the infinities
    are not in this type; the totals, the percentage and the letter, which
    depend on rounding, are embedded over IEEE doubles in [GradeTotals]. *)
Inductive number : Type :=
| NaN
| Fin (q : Qc).

Definition of_Z (z : Z) : number := Fin (Qc_of_Z z).

Definition add (a b : number) : number :=
  match a, b with
  | Fin x, Fin y => Fin (x + y)%Qc
  | _, _ => NaN
  end.

Definition mul (a b : number) : number :=
  match a, b with
  | Fin x, Fin y => Fin (x * y)%Qc
  | _, _ => NaN
  end.

(** [a / b]; the sources divide only behind a [max > 0] test, so the
    zero divisor (an infinity in JS) is never reached and is left [NaN]. *)
Definition div (a b : number) : number :=
  match a, b with
  | Fin x, Fin y => if decide (y = 0%Qc) then NaN else Fin (x / y)%Qc
  | _, _ => NaN
  end.

(** [a >= b] and [a > b]: false as soon as one side is [NaN]. *)
Definition ge (a b : number) : bool :=
  match a, b with
  | Fin x, Fin y => bool_decide (y ≤ x)%Qc
  | _, _ => false
  end.

Definition gt (a b : number) : bool :=
  match a, b with
  | Fin x, Fin y => bool_decide (y < x)%Qc
  | _, _ => false
  end.

(** [Math.min] and [Math.max] propagate [NaN]. *)
Definition math_min (a b : number) : number :=
  match a, b with
  | Fin x, Fin y => if decide (x ≤ y)%Qc then Fin x else Fin y
  | _, _ => NaN
  end.

Definition math_max (a b : number) : number :=
  match a, b with
  | Fin x, Fin y => if decide (x ≤ y)%Qc then Fin y else Fin x
  | _, _ => NaN
  end.

(** Truthiness of a number ([0] and [NaN] are falsy) and [x || d]. *)
Definition truthy_num (a : number) : bool :=
  match a with
  | NaN => false
  | Fin x => negb (bool_decide (x = 0%Qc))
  end.

Definition or_num (a d : number) : number := if truthy_num a then a else d.

(** Truthiness of an optional string ([undefined], [null] and [''] are
    falsy) and [s || null]. *)
Definition truthy_str (s : option string) : bool :=
  match s with
  | Some t => negb (String.eqb t "")
  | None => false
  end.

Definition or_null (s : option string) : option string :=
  if truthy_str s then s else None.

(** [String.prototype.trim].  A string is held as the bytes of its UTF-8
    encoding.  The characters stripped are the [WhiteSpace] and
    [LineTerminator] code points of the language: TAB, LF, VT, FF, CR and
    SPACE (one byte each), U+00A0 (two bytes), and U+1680, U+2000-U+200A,
    U+2028, U+2029, U+202F, U+205F, U+3000 and U+FEFF (three bytes each). *)
Definition is_white_space (c : ascii) : bool :=
  let n := nat_of_ascii c in
  ((9 <=? n)%nat && (n <=? 13)%nat) || (n =? 32)%nat.

Definition is_white_space2 (c1 c2 : ascii) : bool :=
  (nat_of_ascii c1 =? 194)%nat && (nat_of_ascii c2 =? 160)%nat.

Definition is_white_space3 (c1 c2 c3 : ascii) : bool :=
  let n1 := nat_of_ascii c1 in
  let n2 := nat_of_ascii c2 in
  let n3 := nat_of_ascii c3 in
  ((n1 =? 225) && (n2 =? 154) && (n3 =? 128))%nat
  || ((n1 =? 226) && (n2 =? 128)
      && (((128 <=? n3) && (n3 <=? 138))
          || (n3 =? 168) || (n3 =? 169) || (n3 =? 175)))%nat
  || ((n1 =? 226) && (n2 =? 129) && (n3 =? 159))%nat
  || ((n1 =? 227) && (n2 =? 128) && (n3 =? 128))%nat
  || ((n1 =? 239) && (n2 =? 187) && (n3 =? 191))%nat.

(** Stripping at the front; [backwards] tells that the bytes are read from
    the end of the string, so that the bytes of a character come last byte
    first. *)
Fixpoint strip (backwards : bool) (s : string) : string :=
  match s with
  | EmptyString => EmptyString
  | String c1 r1 =>
      if is_white_space c1 then strip backwards r1
      else
        match r1 with
        | EmptyString => s
        | String c2 r2 =>
            if (if backwards then is_white_space2 c2 c1
                else is_white_space2 c1 c2)
            then strip backwards r2
            else
              match r2 with
              | EmptyString => s
              | String c3 r3 =>
                  if (if backwards then is_white_space3 c3 c2 c1
                      else is_white_space3 c1 c2 c3)
                  then strip backwards r3
                  else s
              end
        end
  end.

Fixpoint rev_append (s acc : string) : string :=
  match s with
  | EmptyString => acc
  | String c r => rev_append r (String c acc)
  end.

Definition trim_start (s : string) : string := strip false s.

Definition trim_end (s : string) : string :=
  rev_append (strip true (rev_append s EmptyString)) EmptyString.

Definition trim (s : string) : string := trim_end (trim_start s).

(** [String.prototype.toLowerCase] on strings of ASCII characters, where it
    folds [A]..[Z] and nothing else.  The statements about case folding
    take the function as a variable; this one serves at ASCII inputs. *)
Definition lower_ascii (c : ascii) : ascii :=
  let n := nat_of_ascii c in
  if ((65 <=? n)%nat && (n <=? 90)%nat) then ascii_of_nat (n + 32) else c.

Fixpoint toLowerCase (s : string) : string :=
  match s with
  | EmptyString => EmptyString
  | String c r => String (lower_ascii c) (toLowerCase r)
  end.

End Js.

(** ** [useExamTimer] (src/hooks/useExamTimer.ts) *)

Module Timer.

(** [calculateTimeRemaining]; [startedAt] is [new Date(startedAt).getTime()]
    and [now] is [Date.now()], both in milliseconds; the result is in
    seconds.  [Math.floor] of the non-negative quotient is [Z.div]. *)
Definition calculateTimeRemaining (startedAt durationMinutes now : Z) : Z :=
  let startTime := startedAt in
  let endTime := startTime + durationMinutes * 60 * 1000 in
  let remaining := Z.max 0 (endTime - now) in
  remaining / 1000.

(** The hook's state: the [timeRemaining] state cell, the
    [hasCalledTimeUp] ref, and whether the interval of the current effect
    is still armed. *)
Record state : Type := mkState {
  timeRemaining : Z;
  hasCalledTimeUp : bool;
  intervalActive : bool
}.

Definition initial : state :=
  {| timeRemaining := 0; hasCalledTimeUp := false; intervalActive := false |}.

(** What can happen to the hook: the effect (re)runs at some instant
    (mount, or a dependency changed), or the interval elapses. *)
Inductive event : Type :=
| Effect (now : Z)
| Tick (now : Z).

Section Hook.
Variables (startedAt durationMinutes : Z).

(** The effect body: publish the remaining time, arm a fresh interval
    (the cleanup of the previous run has cleared the old one). *)
Definition run_effect (now : Z) (s : state) : state :=
  {| timeRemaining := calculateTimeRemaining startedAt durationMinutes now;
     hasCalledTimeUp := hasCalledTimeUp s;
     intervalActive := true |}.

(** The interval callback; the boolean tells whether [onTimeUp] was
    called. *)
Definition interval_callback (now : Z) (s : state) : state * bool :=
  let remaining := calculateTimeRemaining startedAt durationMinutes now in
  if (remaining <=? 0) && negb (hasCalledTimeUp s) then
    ({| timeRemaining := remaining;
        hasCalledTimeUp := true;
        intervalActive := false |}, true)
  else
    ({| timeRemaining := remaining;
        hasCalledTimeUp := hasCalledTimeUp s;
        intervalActive := intervalActive s |}, false).

Definition step (e : event) (s : state) : state * bool :=
  match e with
  | Effect now => (run_effect now s, false)
  | Tick now =>
      if intervalActive s then interval_callback now s else (s, false)
  end.

(** Runs a sequence of events; returns the final state and, per event,
    whether [onTimeUp] was called there. *)
Fixpoint run (es : list event) (s : state) : state * list bool :=
  match es with
  | [] => (s, [])
  | e :: es' =>
      let '(s1, fired) := step e s in
      let '(s2, rest) := run es' s1 in
      (s2, fired :: rest)
  end.

(** Number of [onTimeUp] calls over a run started by mounting the hook. *)
Definition onTimeUp_calls (mounted : Z) (es : list event) : nat :=
  length (filter (λ b, b = true) (snd (run (Effect mounted :: es) initial))).

(** A tick that reads a remaining time of zero. *)
Definition observes_zero (e : event) : bool :=
  match e with
  | Tick now => calculateTimeRemaining startedAt durationMinutes now <=? 0
  | Effect _ => false
  end.
End Hook.

End Timer.

(** ** [useAntiCheat] (src/hooks/useExamTimer.ts, second unit) *)

Module AntiCheat.

(** Callbacks the hook invokes. *)
Inductive callback : Type :=
| OnWarning (count : Z)
| OnMaxWarningsReached.

(** Browser events the hook subscribes to, and the re-run of its effect
    after a render (the handlers close over the [warningCount] of the
    render that installed them). *)
Inductive event : Type :=
| VisibilityChange (hidden : bool)
| Blur
| Render.

(** [warningCount] and [showWarningModal] are state cells,
    [hasReachedMaxWarnings] is a ref, [closureCount] is the [warningCount]
    captured by the handlers currently installed. *)
Record state : Type := mkState {
  warningCount : Z;
  showWarningModal : bool;
  hasReachedMaxWarnings : bool;
  closureCount : Z
}.

Definition initial : state :=
  {| warningCount := 0; showWarningModal := false;
     hasReachedMaxWarnings := false; closureCount := 0 |}.

Section Hook.
Variables (enabled : bool) (maxWarnings : Z).

(** Common body of [handleVisibilityChange] and [handleBlur], after
    their guard. *)
Definition count_warning (s : state) : state * list callback :=
  let newCount := closureCount s + 1 in
  if newCount >=? maxWarnings then
    ({| warningCount := newCount; showWarningModal := true;
        hasReachedMaxWarnings := true; closureCount := closureCount s |},
     [OnWarning newCount; OnMaxWarningsReached])
  else
    ({| warningCount := newCount; showWarningModal := true;
        hasReachedMaxWarnings := hasReachedMaxWarnings s;
        closureCount := closureCount s |},
     [OnWarning newCount]).

Definition handleVisibilityChange (hidden : bool) (s : state)
  : state * list callback :=
  if hidden && negb (hasReachedMaxWarnings s) then count_warning s
  else (s, []).

Definition handleBlur (s : state) : state * list callback :=
  if negb (hasReachedMaxWarnings s) then count_warning s else (s, []).

(** The effect re-runs after a render: the new handlers see the current
    [warningCount]. *)
Definition rerun_effect (s : state) : state :=
  {| warningCount := warningCount s; showWarningModal := showWarningModal s;
     hasReachedMaxWarnings := hasReachedMaxWarnings s;
     closureCount := warningCount s |}.

Definition step (e : event) (s : state) : state * list callback :=
  if enabled then
    match e with
    | VisibilityChange hidden => handleVisibilityChange hidden s
    | Blur => handleBlur s
    | Render => (rerun_effect s, [])
    end
  else
    match e with
    | Render => (rerun_effect s, [])
    | _ => (s, [])
    end.

Definition closeWarningModal (s : state) : state :=
  {| warningCount := warningCount s; showWarningModal := false;
     hasReachedMaxWarnings := hasReachedMaxWarnings s;
     closureCount := closureCount s |}.

(** One entry per event: the state after it and the callbacks it made. *)
Fixpoint trace (es : list event) (s : state) : list (state * list callback) :=
  match es with
  | [] => []
  | e :: es' => let r := step e s in r :: trace es' (fst r)
  end.

Fixpoint final (es : list event) (s : state) : state :=
  match es with
  | [] => s
  | e :: es' => final es' (fst (step e s))
  end.

Definition fired (cbs : list callback) : bool :=
  existsb (λ c, match c with OnMaxWarningsReached => true | _ => false end) cbs.

(** Number of [onMaxWarningsReached] calls in a trace. *)
Definition max_calls (tr : list (state * list callback)) : nat :=
  length (filter (λ r, fired (snd r) = true) tr).

(** What holds of every state the hook reaches when the threshold is at
    least one: the installed handlers lag the counter by at most one, and
    the ref is set exactly when the counter sits at the threshold. *)
Definition invariant (s : state) : Prop :=
  closureCount s ≤ warningCount s ≤ closureCount s + 1
  ∧ (hasReachedMaxWarnings s = false → warningCount s < maxWarnings)
  ∧ (hasReachedMaxWarnings s = true → warningCount s = maxWarnings).
End Hook.

(** A loss of focus: the window blurs or the page becomes hidden. *)
Definition focus_loss (e : event) : bool :=
  match e with
  | Blur | VisibilityChange true => true
  | _ => false
  end.

(** Each event is followed by the render it caused. *)
Definition rendered (es : list event) : list event :=
  flat_map (λ e, [e; Render]) es.

End AntiCheat.

(** ** The data store (tables of src/lib/supabase.ts) *)

Module Store.

(** [exam_sessions.status], with its CHECK constraint. *)
Inductive session_status : Type :=
| in_progress
| submitted
| auto_submitted
| blocked.

#[global] Instance session_status_eq_dec : EqDecision session_status.
Proof. solve_decision. Defined.

(** A row of [exam_sessions]; instants are milliseconds. *)
Module ExamSession.
Record t : Type := mk {
  id : string;
  exam_id : string;
  student_id : string;
  started_at : Z;
  submitted_at : option Z;
  status : session_status;
  warning_count : Z;
  last_warning_at : option Z;
  is_locked : bool
}.
End ExamSession.

(** A row of [student_answers].  The table is keyed by its
    UNIQUE(session_id, question_id): it is a map from session id to a map
    from question id to the remaining columns. *)
Module AnswerRow.
Record t : Type := mk {
  answer_text : option string;
  selected_option_id : option string;
  is_correct : option bool;
  points_earned : option Js.number;
  last_saved_at : Z
}.
End AnswerRow.

Record t : Type := mk {
  exam_sessions : list ExamSession.t;
  student_answers : gmap string (gmap string AnswerRow.t)
}.

(** How a write issued through the client ends: the row is written, the
    call resolves with an [error] object and writes nothing, or the promise
    rejects. *)
Inductive write_outcome : Type :=
| WriteOk
| WriteError
| WriteThrows.

(** [select('*').eq('exam_id', e).eq('student_id', u).maybeSingle()]; the
    table's UNIQUE(exam_id, student_id) leaves at most one such row. *)
Definition find_session (examId studentId : string) (db : t)
  : option ExamSession.t :=
  List.find (λ r, bool_decide (ExamSession.exam_id r = examId)
               && bool_decide (ExamSession.student_id r = studentId))
       (exam_sessions db).

Definition session_by_id (sid : string) (db : t) : option ExamSession.t :=
  List.find (λ r, bool_decide (ExamSession.id r = sid)) (exam_sessions db).

(** [insert({exam_id, student_id, status: 'in_progress'})]: the remaining
    columns take the defaults of the table declaration
    ([started_at DEFAULT now()], [warning_count DEFAULT 0],
    [is_locked DEFAULT false]). *)
Definition new_session (newId examId studentId : string) (now : Z)
  : ExamSession.t :=
  {| ExamSession.id := newId;
     ExamSession.exam_id := examId;
     ExamSession.student_id := studentId;
     ExamSession.started_at := now;
     ExamSession.submitted_at := None;
     ExamSession.status := in_progress;
     ExamSession.warning_count := 0;
     ExamSession.last_warning_at := None;
     ExamSession.is_locked := false |}.

Definition insert_session (r : ExamSession.t) (db : t) : t :=
  {| exam_sessions := exam_sessions db ++ [r];
     student_answers := student_answers db |}.

(** [update(f).eq('id', sid)] on [exam_sessions]. *)
Definition update_session (sid : string) (f : ExamSession.t → ExamSession.t)
  (db : t) : t :=
  {| exam_sessions :=
       map (λ r, if bool_decide (ExamSession.id r = sid) then f r else r)
           (exam_sessions db);
     student_answers := student_answers db |}.

(** The column values [{status, submitted_at, is_locked: true}]. *)
Definition set_locked (st : session_status) (now : Z) (r : ExamSession.t)
  : ExamSession.t :=
  {| ExamSession.id := ExamSession.id r;
     ExamSession.exam_id := ExamSession.exam_id r;
     ExamSession.student_id := ExamSession.student_id r;
     ExamSession.started_at := ExamSession.started_at r;
     ExamSession.submitted_at := Some now;
     ExamSession.status := st;
     ExamSession.warning_count := ExamSession.warning_count r;
     ExamSession.last_warning_at := ExamSession.last_warning_at r;
     ExamSession.is_locked := true |}.

(** The column values [{warning_count, last_warning_at}]. *)
Definition set_warning (count now : Z) (r : ExamSession.t) : ExamSession.t :=
  {| ExamSession.id := ExamSession.id r;
     ExamSession.exam_id := ExamSession.exam_id r;
     ExamSession.student_id := ExamSession.student_id r;
     ExamSession.started_at := ExamSession.started_at r;
     ExamSession.submitted_at := ExamSession.submitted_at r;
     ExamSession.status := ExamSession.status r;
     ExamSession.warning_count := count;
     ExamSession.last_warning_at := Some now;
     ExamSession.is_locked := ExamSession.is_locked r |}.

(** The session invariant of the data model: a row is locked exactly when
    its status has left [in_progress]. *)
Definition session_consistent (r : ExamSession.t) : Prop :=
  ExamSession.is_locked r = true ↔ ExamSession.status r ≠ in_progress.

(** [select('*').eq('session_id', sid)] on [student_answers], as a map
    from question id to row. *)
Definition answers_of_session (sid : string) (db : t)
  : gmap string AnswerRow.t :=
  default ∅ (student_answers db !! sid).

(** A successful [upsert] of the answer columns for (session, question):
    an existing row keeps its grading columns, a new row has them null. *)
Definition upsert_answer (sid qid : string)
  (text option_id : option string) (now : Z) (db : t) : t :=
  let rows := answers_of_session sid db in
  let old := rows !! qid in
  {| exam_sessions := exam_sessions db;
     student_answers :=
       <[sid :=
           <[qid :=
               {| AnswerRow.answer_text := text;
                  AnswerRow.selected_option_id := option_id;
                  AnswerRow.is_correct := old ≫= AnswerRow.is_correct;
                  AnswerRow.points_earned := old ≫= AnswerRow.points_earned;
                  AnswerRow.last_saved_at := now |}]> rows]>
         (student_answers db) |}.

End Store.

(** ** [TakeExam] (src/pages/TakeExam.tsx) *)

Module TakeExam.
Import Store.

Module Answer.
Record t : Type := mk {
  question_id : string;
  answer_text : option string;
  selected_option_id : option string
}.
End Answer.

Module Exam.
Record t : Type := mk {
  id : string;
  title : string;
  duration_minutes : Z;
  anti_cheat_enabled : bool;
  max_warnings : Z
}.
End Exam.

Inductive autosave_status : Type := idle | saving | saved.

(** Where the window is: still on the exam page, or sent to ['/'] by
    [window.location.href = '/']. *)
Inductive location : Type := ExamPage | Home.

(** The component's state cells, the window location, and the number of
    [console.error] calls (the only trace a caught failure leaves).  The
    questions are kept as their ids. *)
Record component : Type := mkComponent {
  exam : option Exam.t;
  session : option ExamSession.t;
  questions : list string;
  answers : gmap string Answer.t;
  loading : bool;
  submitting : bool;
  showSubmitConfirm : bool;
  autoSaveStatus : autosave_status;
  href : location;
  console_errors : nat
}.

Definition mounted : component :=
  {| exam := None; session := None; questions := []; answers := ∅;
     loading := true; submitting := false; showSubmitConfirm := false;
     autoSaveStatus := idle; href := ExamPage; console_errors := 0 |}.

(** What the store answers to the calls of the component. *)
Record env : Type := mkEnv {
  exam_query : option Exam.t;             (* [None]: [examError] *)
  insert_session_ok : bool;               (* [false]: [sessionError] *)
  fresh_session_id : string;              (* [gen_random_uuid()] *)
  questions_query : option (list string); (* [None]: [questionsError] *)
  answers_query_ok : bool;                (* [false]: [savedAnswers] is null *)
  upsert_outcome : string → write_outcome;
  lock_write : write_outcome;             (* the update of [submitExam] *)
  max_warnings_write : write_outcome      (* the update of [handleMaxWarnings] *)
}.

(** The arguments the component passes to [useAntiCheat] and
    [useExamTimer]. *)
Definition antiCheat_enabled (c : component) : bool :=
  match exam c with Some e => Exam.anti_cheat_enabled e | None => false end.

Definition antiCheat_maxWarnings (c : component) : Z :=
  match exam c with
  | Some e => if Exam.max_warnings e =? 0 then 2 else Exam.max_warnings e
  | None => 2
  end.

Definition timer_durationMinutes (c : component) : Z :=
  match exam c with Some e => Exam.duration_minutes e | None => 0 end.

(** State updates, one per setter. *)
Definition setLoading (b : bool) (c : component) : component :=
  {| exam := exam c; session := session c; questions := questions c;
     answers := answers c; loading := b; submitting := submitting c;
     showSubmitConfirm := showSubmitConfirm c;
     autoSaveStatus := autoSaveStatus c; href := href c;
     console_errors := console_errors c |}.

Definition setExam (e : Exam.t) (c : component) : component :=
  {| exam := Some e; session := session c; questions := questions c;
     answers := answers c; loading := loading c; submitting := submitting c;
     showSubmitConfirm := showSubmitConfirm c;
     autoSaveStatus := autoSaveStatus c; href := href c;
     console_errors := console_errors c |}.

Definition setSession (r : ExamSession.t) (c : component) : component :=
  {| exam := exam c; session := Some r; questions := questions c;
     answers := answers c; loading := loading c; submitting := submitting c;
     showSubmitConfirm := showSubmitConfirm c;
     autoSaveStatus := autoSaveStatus c; href := href c;
     console_errors := console_errors c |}.

Definition setQuestions (qs : list string) (c : component) : component :=
  {| exam := exam c; session := session c; questions := qs;
     answers := answers c; loading := loading c; submitting := submitting c;
     showSubmitConfirm := showSubmitConfirm c;
     autoSaveStatus := autoSaveStatus c; href := href c;
     console_errors := console_errors c |}.

Definition setAnswers (m : gmap string Answer.t) (c : component) : component :=
  {| exam := exam c; session := session c; questions := questions c;
     answers := m; loading := loading c; submitting := submitting c;
     showSubmitConfirm := showSubmitConfirm c;
     autoSaveStatus := autoSaveStatus c; href := href c;
     console_errors := console_errors c |}.

Definition setSubmitting (b : bool) (c : component) : component :=
  {| exam := exam c; session := session c; questions := questions c;
     answers := answers c; loading := loading c; submitting := b;
     showSubmitConfirm := showSubmitConfirm c;
     autoSaveStatus := autoSaveStatus c; href := href c;
     console_errors := console_errors c |}.

Definition setAutoSaveStatus (a : autosave_status) (c : component) : component :=
  {| exam := exam c; session := session c; questions := questions c;
     answers := answers c; loading := loading c; submitting := submitting c;
     showSubmitConfirm := showSubmitConfirm c;
     autoSaveStatus := a; href := href c;
     console_errors := console_errors c |}.

Definition navigate_home (c : component) : component :=
  {| exam := exam c; session := session c; questions := questions c;
     answers := answers c; loading := loading c; submitting := submitting c;
     showSubmitConfirm := showSubmitConfirm c;
     autoSaveStatus := autoSaveStatus c; href := Home;
     console_errors := console_errors c |}.

Definition console_error (c : component) : component :=
  {| exam := exam c; session := session c; questions := questions c;
     answers := answers c; loading := loading c; submitting := submitting c;
     showSubmitConfirm := showSubmitConfirm c;
     autoSaveStatus := autoSaveStatus c; href := href c;
     console_errors := S (console_errors c) |}.

(** The entry [answersMap[answer.question_id] = {...}] built from a saved
    row: [null] and [''] columns become [undefined]. *)
Definition answer_of_row (qid : string) (row : AnswerRow.t) : Answer.t :=
  {| Answer.question_id := qid;
     Answer.answer_text := Js.or_null (AnswerRow.answer_text row);
     Answer.selected_option_id := Js.or_null (AnswerRow.selected_option_id row) |}.

(** The row an autosave at instant [now] writes for an in-memory answer,
    given the row it replaces. *)
Definition saved_row (now : Z) (old : option AnswerRow.t) (a : Answer.t)
  : AnswerRow.t :=
  {| AnswerRow.answer_text := Js.or_null (Answer.answer_text a);
     AnswerRow.selected_option_id := Js.or_null (Answer.selected_option_id a);
     AnswerRow.is_correct := old ≫= AnswerRow.is_correct;
     AnswerRow.points_earned := old ≫= AnswerRow.points_earned;
     AnswerRow.last_saved_at := now |}.



(** [loadExam]: the [catch] logs and the [finally] clears [loading]. *)
Definition loadExam (examId studentId : string) (now : Z) (e : env)
  (db : Store.t) (c : component) : Store.t * component :=
  match exam_query e with
  | None => (db, setLoading false (console_error c))
  | Some examData =>
      let c := setExam examData c in
      let lookup :=
        match find_session examId studentId db with
        | Some existingSession =>
            if ExamSession.is_locked existingSession
               || bool_decide (ExamSession.status existingSession = submitted)
               || bool_decide (ExamSession.status existingSession = auto_submitted)
            then inl (db, setLoading false (navigate_home c))
            else inr (db, existingSession)
        | None =>
            if insert_session_ok e then
              let newSession :=
                new_session (fresh_session_id e) examId studentId now in
              inr (insert_session newSession db, newSession)
            else inl (db, setLoading false (console_error c))
        end in
      match lookup with
      | inl done => done
      | inr (db, sessionData) =>
          let c := setSession sessionData c in
          match questions_query e with
          | None => (db, setLoading false (console_error c))
          | Some qs =>
              let c := setQuestions qs c in
              let c :=
                if answers_query_ok e then
                  setAnswers
                    (map_imap (λ qid row, Some (answer_of_row qid row))
                              (answers_of_session (ExamSession.id sessionData) db))
                    c
                else c in
              (db, setLoading false c)
          end
      end
  end.

(** [handleAnswerChange]. *)
Definition handleAnswerChange (questionId : string) (a : Answer.t)
  (c : component) : component :=
  setAnswers (<[questionId := a]> (answers c)) c.

(** One turn of the loop of [autoSaveAnswers] over
    [Object.entries(answers)]: a call that resolves with an error is not
    looked at and the loop goes on; a rejected promise leaves the loop.  The
    boolean tells whether the loop was left that way. *)
Definition autosave_entry (sid : string) (now : Z) (e : env)
  (questionId : string) (a : Answer.t) (acc : Store.t * bool)
  : Store.t * bool :=
  let '(db, thrown) := acc in
  if thrown then acc
  else
    match upsert_outcome e questionId with
    | WriteOk =>
        (upsert_answer sid questionId
           (Js.or_null (Answer.answer_text a))
           (Js.or_null (Answer.selected_option_id a)) now db, false)
    | WriteError => (db, false)
    | WriteThrows => (db, true)
    end.

(** [autoSaveAnswers] with the order of [Object.entries(answers)] given.
    The order is the insertion order of the keys, which the state map does
    not record; it shows only in the rows written before a promise
    rejects. *)
Definition autoSaveAnswersIn (entries : list (string * Answer.t)) (now : Z)
  (e : env) (db : Store.t) (c : component) : Store.t * component :=
  match session c with
  | None => (db, c)
  | Some s =>
      let c := setAutoSaveStatus saving c in
      let '(db, thrown) :=
        foldl (λ acc entry,
                 autosave_entry (ExamSession.id s) now e entry.1 entry.2 acc)
              (db, false) entries in
      if thrown then (db, setAutoSaveStatus idle (console_error c))
      else (db, setAutoSaveStatus saved c)
  end.

(** The entries the loop gets through: those before the first one whose
    upsert rejects. *)
Fixpoint before_rejection (e : env) (entries : list (string * Answer.t))
  : list (string * Answer.t) :=
  match entries with
  | [] => []
  | entry :: rest =>
      match upsert_outcome e entry.1 with
      | WriteThrows => []
      | _ => entry :: before_rejection e rest
      end
  end.

(** [autoSaveAnswers] over the entries in the order the state map folds
    them; what is proved of it does not depend on that order. *)
Definition autoSaveAnswers (now : Z) (e : env) (db : Store.t) (c : component)
  : Store.t * component :=
  match session c with
  | None => (db, c)
  | Some s =>
      let c := setAutoSaveStatus saving c in
      let '(db, thrown) :=
        map_fold (autosave_entry (ExamSession.id s) now e) (db, false)
                 (answers c) in
      if thrown then (db, setAutoSaveStatus idle (console_error c))
      else (db, setAutoSaveStatus saved c)
  end.

Definition submit_status (autoSubmit : bool) : session_status :=
  if autoSubmit then auto_submitted else submitted.

(** [submitExam(autoSubmit)]; [c] is the state of the render whose
    [submitExam] is called. *)
Definition submitExam (autoSubmit : bool) (now : Z) (e : env)
  (db : Store.t) (c : component) : Store.t * component :=
  match session c with
  | None => (db, c)
  | Some s =>
      let c := setSubmitting true c in
      let '(db, c) := autoSaveAnswers now e db c in
      match lock_write e with
      | WriteOk =>
          (update_session (ExamSession.id s)
             (set_locked (submit_status autoSubmit) now) db,
           navigate_home c)
      | WriteError => (db, navigate_home c)
      | WriteThrows => (db, setSubmitting false (console_error c))
      end
  end.

(** [handleWarning(count)]; [w] is how its update ends. *)
Definition handleWarning (count now : Z) (w : write_outcome)
  (db : Store.t) (c : component) : Store.t :=
  match session c, w with
  | Some s, WriteOk =>
      update_session (ExamSession.id s) (set_warning count now) db
  | _, _ => db
  end.

(** [handleMaxWarnings]: its own lock write, then [submitExam(true)]; the
    handler has no [try], so a rejected write ends it.  The state [c] is
    the one the callback reads: being memoized on [[session]], that of the
    render in which the session was set, whose [answers] are the ones held
    then and not those typed since; so is the state its [submitExam]
    reads. *)
Definition handleMaxWarnings (now1 now2 : Z) (e : env)
  (db : Store.t) (c : component) : Store.t * component :=
  match session c with
  | None => (db, c)
  | Some s =>
      match max_warnings_write e with
      | WriteOk =>
          submitExam true now2 e
            (update_session (ExamSession.id s)
               (set_locked auto_submitted now1) db) c
      | WriteError => submitExam true now2 e db c
      | WriteThrows => (db, c)
      end
  end.

(** [handleTimeUp] is memoized with an empty dependency list: it stays the
    callback of the first render and calls that render's [submitExam],
    which reads the state cells as they were then, [mounted], where there
    is no session.  The page's state is [c]; the call returns at
    [if (!session) return], before any setter. *)
Definition handleTimeUp (now : Z) (e : env) (db : Store.t) (c : component)
  : Store.t * component :=
  (fst (submitExam true now e db mounted), c).

End TakeExam.

(** ** [GradeExam] (src/pages/CreateExam.tsx, second unit) *)

Module GradeExam.

Inductive question_type : Type :=
| mcq
| true_false
| short_answer
| long_answer.

#[global] Instance question_type_eq_dec : EqDecision question_type.
Proof. solve_decision. Defined.

Module QuestionOption.
Record t : Type := mk {
  id : string;
  option_text : string;
  is_correct : bool;
  order_number : Z
}.
End QuestionOption.

Module Question.
Record t : Type := mk {
  id : string;
  question_text : string;
  points : Z;
  order_number : Z;
  question_type : GradeExam.question_type;
  correct_answer : option string;
  question_options : option (list QuestionOption.t)
}.
End Question.

Module StudentAnswer.
Record t : Type := mk {
  id : string;
  question_id : string;
  answer_text : option string;
  selected_option_id : option string;
  points_earned : option Js.number
}.
End StudentAnswer.

(** [answers.find(a => a.question_id === question.id)]. *)
Definition find_answer (answers : list StudentAnswer.t) (q : Question.t)
  : option StudentAnswer.t :=
  List.find (λ a, bool_decide (StudentAnswer.question_id a = Question.id q))
            answers.

(** [options.find(opt => opt.id === selected)]. *)
Definition find_option (options : list QuestionOption.t) (selected : string)
  : option QuestionOption.t :=
  List.find (λ opt, bool_decide (QuestionOption.id opt = selected)) options.

(** [selectedOption?.is_correct ? question.points : 0]. *)
Definition option_grade (q : Question.t) (selectedOption : option QuestionOption.t)
  : Js.number :=
  match selectedOption with
  | Some opt =>
      if QuestionOption.is_correct opt then Js.of_Z (Question.points q)
      else Js.of_Z 0
  | None => Js.of_Z 0
  end.

(** The body of the [questions.forEach] of [handleAutoGrade]: the value
    stored in [newGrades[question.id]].  [trim] and [toLowerCase] are the
    two string methods the text branch calls. *)
Definition autoGradeWith (trim toLowerCase : string → string)
  (answers : list StudentAnswer.t) (q : Question.t) : Js.number :=
  let answer := find_answer answers q in
  let selected := answer ≫= StudentAnswer.selected_option_id in
  let text := answer ≫= StudentAnswer.answer_text in
  match Question.question_type q, selected, Question.question_options q with
  | mcq, Some sel, Some options =>
      if Js.truthy_str selected then option_grade q (find_option options sel)
      else Js.of_Z 0
  | true_false, Some sel, Some options =>
      if Js.truthy_str selected then option_grade q (find_option options sel)
      else Js.of_Z 0
  | (short_answer | long_answer), _, _ =>
      match text with
      | Some answer_text =>
          if Js.truthy_str text then
            if Js.truthy_str (Question.correct_answer q)
               && Js.truthy_str (Some (trim answer_text))
            then
              let studentAnswer := toLowerCase (trim answer_text) in
              let modelAnswer :=
                toLowerCase (trim (default ""%string (Question.correct_answer q))) in
              if String.eqb studentAnswer modelAnswer
              then Js.of_Z (Question.points q)
              else Js.of_Z 0
            else Js.of_Z 0
          else Js.of_Z 0
      | None => Js.of_Z 0
      end
  | _, _, _ => Js.of_Z 0
  end.

(** The same with [Js.trim] and [Js.toLowerCase]; the option branches do
    not call them. *)
Definition autoGrade : list StudentAnswer.t → Question.t → Js.number :=
  autoGradeWith Js.trim Js.toLowerCase.

(** [handleAutoGrade]: starts from a copy of [grades] and writes one
    entry per question. *)
Definition handleAutoGrade (questions : list Question.t)
  (answers : list StudentAnswer.t) (grades : gmap string Js.number)
  : gmap string Js.number :=
  foldl (λ newGrades q, <[Question.id q := autoGrade answers q]> newGrades)
        grades questions.

(** [loadExamData], the initial grade of a question: the stored
    [points_earned] when there is one, else the option-based auto grade
    (not restricted to a question type there). *)
Definition initialGrade (answers : list StudentAnswer.t) (q : Question.t)
  : Js.number :=
  let answer := find_answer answers q in
  let selected := answer ≫= StudentAnswer.selected_option_id in
  let autoGrade :=
    match selected, Question.question_options q with
    | Some sel, Some options =>
        if Js.truthy_str selected then option_grade q (find_option options sel)
        else Js.of_Z 0
    | _, _ => Js.of_Z 0
    end in
  match answer ≫= StudentAnswer.points_earned with
  | Some p => p
  | None => autoGrade
  end.

Definition initialGrades (questions : list Question.t)
  (answers : list StudentAnswer.t) : gmap string Js.number :=
  foldl (λ g q, <[Question.id q := initialGrade answers q]> g) ∅ questions.


(** [handleGradeChange(questionId, value)]. *)
Definition handleGradeChange (questions : list Question.t)
  (questionId : string) (value : Js.number) (grades : gmap string Js.number)
  : gmap string Js.number :=
  let question := List.find (λ q, bool_decide (Question.id q = questionId)) questions in
  let maxPoints :=
    match question with
    | Some q => Js.or_num (Js.of_Z (Question.points q)) (Js.of_Z 0)
    | None => Js.of_Z 0
    end in
  let newValue := Js.math_max (Js.of_Z 0) (Js.math_min value maxPoints) in
  <[questionId := newValue]> grades.

(** [Object.values(grades).reduce((sum, grade) => sum + grade, 0)]. *)
Definition calculateTotalPoints (grades : gmap string Js.number) : Js.number :=
  map_fold (λ _ grade sum, Js.add sum grade) (Js.of_Z 0) grades.

(** [questions.reduce((sum, question) => sum + question.points, 0)]. *)
Definition calculateMaxPoints (questions : list Question.t) : Z :=
  foldl (λ sum question, sum + Question.points question) 0 questions.

Definition calculatePercentage (questions : list Question.t)
  (grades : gmap string Js.number) : Js.number :=
  let total := calculateTotalPoints grades in
  let max := calculateMaxPoints questions in
  if 0 <? max then Js.mul (Js.div total (Js.of_Z max)) (Js.of_Z 100)
  else Js.of_Z 0.



(** The grade letters of the summary and of the report. *)
Inductive letter : Type := A | B | C | D | F.

End GradeExam.

(** ** The totals of [GradeExam] in the arithmetic of the code

    A JS [number] is an IEEE 754 binary64 value, and [+], [*], [/], [>]
    and [>=] are the operations of that format: results rounded to
    nearest, ties to even, and comparisons false on [NaN].  Rocq's
    primitive floats are that format with those operations.  The module
    above keeps numbers exact, which is enough where only 0, the points and
    [NaN] are told apart; the totals are embedded here as the code computes
    them, and the [grades] object with the order of its properties, since
    the sum is taken in that order. *)

Module GradeTotals.
Import GradeExam.

Definition number : Set := PrimFloat.float.

(** An integer column as the number the client hands over. *)
Definition of_Z (z : Z) : number :=
  match z with
  | Z0 => PrimFloat.zero
  | Zpos _ => PrimFloat.of_uint63 (Uint63.of_Z z)
  | Zneg p => PrimFloat.opp (PrimFloat.of_uint63 (Uint63.of_Z (Zpos p)))
  end.

(** [a >= b], [a > b] and [a < b]. *)
Definition ge (a b : number) : bool := PrimFloat.leb b a.
Definition gt (a b : number) : bool := PrimFloat.ltb b a.
Definition lt (a b : number) : bool := PrimFloat.ltb a b.

(** An object with number values: its own properties in the order in
    which [Object.values] and the spread [{...o}] go through them, which
    is the array-index keys in ascending order, then the other keys in the
    order of their creation. *)
Definition object : Type := list (string * number).

Definition digit (c : ascii) : option N :=
  let n := N_of_ascii c in
  if ((48 <=? n) && (n <=? 57))%N then Some (n - 48)%N else None.

Fixpoint digits (s : string) (acc : N) : option N :=
  match s with
  | EmptyString => Some acc
  | String c r =>
      match digit c with
      | Some d => digits r (10 * acc + d)%N
      | None => None
      end
  end.

(** The array index a key stands for: a decimal numeral without a leading
    zero, below [2^32 - 1]. *)
Definition array_index (k : string) : option N :=
  match k with
  | EmptyString => None
  | String c r =>
      if Ascii.eqb c "0" then
        if String.eqb r "" then Some 0%N else None
      else
        match digits k 0 with
        | Some n => if (n <? 4294967295)%N then Some n else None
        | None => None
        end
  end.

Definition has (k : string) (o : object) : bool := bool_decide (k ∈ o.*1).

(** [o[k]]; a missing property reads [undefined], which is [NaN] in a
    sum. *)
Definition get (k : string) (o : object) : number :=
  default PrimFloat.nan
    (snd <$> List.find (λ kv : string * number, bool_decide (kv.1 = k)) o).

(** The place of a new array-index key: before the first key that is not
    an array index or is a greater one. *)
Fixpoint insert_index (n : N) (k : string) (v : number) (o : object)
  : object :=
  match o with
  | [] => [(k, v)]
  | kv :: rest =>
      match array_index kv.1 with
      | Some n' =>
          if (n' <? n)%N then kv :: insert_index n k v rest
          else (k, v) :: o
      | None => (k, v) :: o
      end
  end.

(** [o[k] = v] (on a copy): an existing property keeps its place. *)
Definition set (k : string) (v : number) (o : object) : object :=
  if has k o then
    map (λ kv : string * number, if bool_decide (kv.1 = k) then (k, v) else kv) o
  else
    match array_index k with
    | Some n => insert_index n k v o
    | None => o ++ [(k, v)]
    end.

(** The loop [questions.forEach(question => { o[question.id] = ... })] of
    [loadExamData] and of [handleAutoGrade]; [value] is what the body
    computes for a question. *)
Definition assign (value : Question.t → number) (questions : list Question.t)
  (o : object) : object :=
  foldl (λ o question, set (Question.id question) (value question) o)
        o questions.

(** [loadExamData] fills [initialGrades = {}]; [handleAutoGrade] fills
    [newGrades = { ...grades }]; [handleGradeChange] makes
    [{ ...prev, [questionId]: newValue }]. *)
Definition initialGrades (value : Question.t → number)
  (questions : list Question.t) : object :=
  assign value questions [].

Definition handleAutoGrade (value : Question.t → number)
  (questions : list Question.t) (grades : object) : object :=
  assign value questions grades.

Definition handleGradeChange (questionId : string) (newValue : number)
  (grades : object) : object :=
  set questionId newValue grades.

(** The states of [grades] on the grading page: set by [loadExamData],
    then changed by the "Auto-grade" button and by the points inputs, of
    which there is one per question. *)
Inductive grading_state (questions : list Question.t) : object → Prop :=
| loaded value :
    grading_state questions (initialGrades value questions)
| auto_graded value grades :
    grading_state questions grades →
    grading_state questions (handleAutoGrade value questions grades)
| grade_changed question newValue grades :
    question ∈ questions →
    grading_state questions grades →
    grading_state questions
      (handleGradeChange (Question.id question) newValue grades).

(** [Object.values(grades).reduce((sum, grade) => sum + grade, 0)]. *)
Definition calculateTotalPoints (grades : object) : number :=
  foldl PrimFloat.add PrimFloat.zero grades.*2.

(** [questions.reduce((sum, question) => sum + question.points, 0)]. *)
Definition calculateMaxPoints (questions : list Question.t) : number :=
  foldl (λ sum question, PrimFloat.add sum (of_Z (Question.points question)))
        PrimFloat.zero questions.

(** [max > 0 ? (total / max) * 100 : 0]. *)
Definition calculatePercentage (questions : list Question.t)
  (grades : object) : number :=
  let total := calculateTotalPoints grades in
  let max := calculateMaxPoints questions in
  if gt max PrimFloat.zero
  then PrimFloat.mul (PrimFloat.div total max) (of_Z 100)
  else PrimFloat.zero.

(** The grade shown in the grading summary, and [getGradeLetter] of the
    student's report. *)
Definition summaryLetter (percentage : number) : letter :=
  if ge percentage (of_Z 90) then A
  else if ge percentage (of_Z 80) then B
  else if ge percentage (of_Z 70) then C
  else if ge percentage (of_Z 60) then D
  else F.

Definition getGradeLetter (percentage : number) : letter :=
  if ge percentage (of_Z 90) then A
  else if ge percentage (of_Z 80) then B
  else if ge percentage (of_Z 70) then C
  else if ge percentage (of_Z 60) then D
  else F.

End GradeTotals.

(** ** Sample data *)

Module Examples.
Import GradeExam.

Definition optA : QuestionOption.t :=
  {| QuestionOption.id := "oA"; QuestionOption.option_text := "Lyon";
     QuestionOption.is_correct := false; QuestionOption.order_number := 1 |}.

Definition optB : QuestionOption.t :=
  {| QuestionOption.id := "oB"; QuestionOption.option_text := "Paris";
     QuestionOption.is_correct := true; QuestionOption.order_number := 2 |}.

Definition q_mcq : Question.t :=
  {| Question.id := "q1"; Question.question_text := "Capital of France?";
     Question.points := 4; Question.order_number := 1;
     Question.question_type := mcq; Question.correct_answer := None;
     Question.question_options := Some [optA; optB] |}.

Definition q_short : Question.t :=
  {| Question.id := "q2"; Question.question_text := "Capital of France?";
     Question.points := 5; Question.order_number := 2;
     Question.question_type := short_answer;
     Question.correct_answer := Some "Paris"%string;
     Question.question_options := None |}.


Definition a_mcq : StudentAnswer.t :=
  {| StudentAnswer.id := "a1"; StudentAnswer.question_id := "q1";
     StudentAnswer.answer_text := None;
     StudentAnswer.selected_option_id := Some "oB"%string;
     StudentAnswer.points_earned := None |}.

Definition a_short : StudentAnswer.t :=
  {| StudentAnswer.id := "a2"; StudentAnswer.question_id := "q2";
     StudentAnswer.answer_text := Some "  paris "%string;
     StudentAnswer.selected_option_id := None;
     StudentAnswer.points_earned := None |}.


(** A session in progress since instant 1000, its store and its page. *)
Definition exam1 : TakeExam.Exam.t :=
  {| TakeExam.Exam.id := "e1"; TakeExam.Exam.title := "Geography";
     TakeExam.Exam.duration_minutes := 60;
     TakeExam.Exam.anti_cheat_enabled := true;
     TakeExam.Exam.max_warnings := 2 |}.

Definition session1 : Store.ExamSession.t :=
  Store.new_session "s1" "e1" "u1" 1000.

Definition db1 : Store.t :=
  {| Store.exam_sessions := [session1]; Store.student_answers := ∅ |}.

Definition page1 : TakeExam.component :=
  TakeExam.setSession session1 (TakeExam.setExam exam1 TakeExam.mounted).

(** A store that answers every call. *)
Definition env_ok : TakeExam.env :=
  {| TakeExam.exam_query := Some exam1;
     TakeExam.insert_session_ok := true;
     TakeExam.fresh_session_id := "s2";
     TakeExam.questions_query := Some ["q1"; "q2"]%string;
     TakeExam.answers_query_ok := true;
     TakeExam.upsert_outcome := λ _, Store.WriteOk;
     TakeExam.lock_write := Store.WriteOk;
     TakeExam.max_warnings_write := Store.WriteOk |}.

(** The same store with the lock write of [submitExam] failing, by an
    error result or by a rejected promise. *)
Definition env_lock (w : Store.write_outcome) : TakeExam.env :=
  {| TakeExam.exam_query := Some exam1;
     TakeExam.insert_session_ok := true;
     TakeExam.fresh_session_id := "s2";
     TakeExam.questions_query := Some ["q1"; "q2"]%string;
     TakeExam.answers_query_ok := true;
     TakeExam.upsert_outcome := λ _, Store.WriteOk;
     TakeExam.lock_write := w;
     TakeExam.max_warnings_write := Store.WriteOk |}.


Definition typed : TakeExam.Answer.t :=
  {| TakeExam.Answer.question_id := "q2";
     TakeExam.Answer.answer_text := Some "Paris"%string;
     TakeExam.Answer.selected_option_id := None |}.

Definition picked : TakeExam.Answer.t :=
  {| TakeExam.Answer.question_id := "q1";
     TakeExam.Answer.answer_text := None;
     TakeExam.Answer.selected_option_id := Some "oB"%string |}.

(** A long-answer question of 10 points, and one of 20 points. *)
Definition q_ten : GradeExam.Question.t :=
  {| GradeExam.Question.id := "q1";
     GradeExam.Question.question_text := "";
     GradeExam.Question.points := 10;
     GradeExam.Question.order_number := 1;
     GradeExam.Question.question_type := GradeExam.long_answer;
     GradeExam.Question.correct_answer := None;
     GradeExam.Question.question_options := None |}.

Definition q_twenty : GradeExam.Question.t :=
  {| GradeExam.Question.id := "q1";
     GradeExam.Question.question_text := "";
     GradeExam.Question.points := 20;
     GradeExam.Question.order_number := 1;
     GradeExam.Question.question_type := GradeExam.long_answer;
     GradeExam.Question.correct_answer := None;
     GradeExam.Question.question_options := None |}.

End Examples.

(** ** [useExamTimer]: the displayed time, and the hook under changing
    arguments *)

Module TimerDisplay.

Fixpoint zeros (n : nat) : string :=
  match n with
  | O => EmptyString
  | S k => String "0" (zeros k)
  end.

(** [s.padStart(2, '0')]. *)
Definition padStart2 (s : string) : string :=
  zeros (2 - String.length s) +:+ s.

(** [formatTime(seconds)]: [Math.floor] of a quotient is [Z.div], [%] is
    [Z.rem], and [toString()] of an integer is its decimal writing. *)
Definition formatTime (seconds : Z) : string :=
  let hours := seconds / 3600 in
  let minutes := Z.rem seconds 3600 / 60 in
  let secs := Z.rem seconds 60 in
  if 0 <? hours then
    pretty hours +:+ ":" +:+ padStart2 (pretty minutes) +:+ ":"
      +:+ padStart2 (pretty secs)
  else
    pretty minutes +:+ ":" +:+ padStart2 (pretty secs).

(** The arguments of one render of the hook. *)
Record args : Type := mkArgs {
  startedAt : Z;
  durationMinutes : Z
}.

(** The effect depends on the arguments: a render with new arguments
    re-runs it, and the ticks that follow read the arguments of that run.
    The [hasCalledTimeUp] ref lives across the runs. *)
Inductive event : Type :=
| Effect (a : args) (now : Z)
| Tick (now : Z).

Definition step (e : event) (st : Timer.state * args)
  : Timer.state * args * bool :=
  let '(s, a) := st in
  match e with
  | Effect a' now =>
      (Timer.run_effect (startedAt a') (durationMinutes a') now s, a', false)
  | Tick now =>
      if Timer.intervalActive s then
        let '(s', fired) :=
          Timer.interval_callback (startedAt a) (durationMinutes a) now s in
        (s', a, fired)
      else (s, a, false)
  end.

Fixpoint run (es : list event) (st : Timer.state * args) : list bool :=
  match es with
  | [] => []
  | e :: es' => let r := step e st in snd r :: run es' (fst r)
  end.

(** The arguments [TakeExam] passes at a render at instant [now]: the
    duration is 0 and the start is the render's instant until the exam and
    the session are loaded. *)
Definition page_args (c : TakeExam.component) (now : Z) : args :=
  {| startedAt :=
       match TakeExam.session c with
       | Some s => Store.ExamSession.started_at s
       | None => now
       end;
     durationMinutes := TakeExam.timer_durationMinutes c |}.

End TimerDisplay.

(** ** [GradeExam.handleSubmitGrading] and the student's report *)

Module GradeSubmit.
Import GradeExam.

(** An answer row as [StudentExamResult] reads it. *)
Module ReportAnswer.
Record t : Type := mk {
  id : string;
  question_id : string;
  answer_text : option string;
  selected_option_id : option string;
  points_earned : option Js.number;
  is_correct : option bool
}.
End ReportAnswer.

Module ExamResult.
Record t : Type := mk {
  total_points : Js.number;
  max_points : Z;
  percentage : Js.number
}.
End ExamResult.




Inductive outcome : Type :=
| NotLoggedIn
| InvalidSession
| GradeAllQuestions (remaining : nat)
| GradingSubmitted (rows : list ReportAnswer.t) (result : ExamResult.t).




End GradeSubmit.

(** ** [CreateExam] (src/pages/CreateExam.tsx, first unit): the form *)

Module CreateExam.

Module QuestionOption.
Record t : Type := mk {
  option_text : string;
  is_correct : bool;
  order_number : Z
}.
End QuestionOption.

Module Question.
Record t : Type := mk {
  question_type : GradeExam.question_type;
  question_text : string;
  points : Js.number;
  correct_answer : string;
  order_number : Z;
  options : list QuestionOption.t
}.
End Question.

Definition set_order_number (n : Z) (q : Question.t) : Question.t :=
  {| Question.question_type := Question.question_type q;
     Question.question_text := Question.question_text q;
     Question.points := Question.points q;
     Question.correct_answer := Question.correct_answer q;
     Question.order_number := n;
     Question.options := Question.options q |}.

Definition set_options (os : list QuestionOption.t) (q : Question.t)
  : Question.t :=
  {| Question.question_type := Question.question_type q;
     Question.question_text := Question.question_text q;
     Question.points := Question.points q;
     Question.correct_answer := Question.correct_answer q;
     Question.order_number := Question.order_number q;
     Question.options := os |}.

Definition set_option_order (n : Z) (o : QuestionOption.t) : QuestionOption.t :=
  {| QuestionOption.option_text := QuestionOption.option_text o;
     QuestionOption.is_correct := QuestionOption.is_correct o;
     QuestionOption.order_number := n |}.

Definition set_is_correct (b : bool) (o : QuestionOption.t) : QuestionOption.t :=
  {| QuestionOption.option_text := QuestionOption.option_text o;
     QuestionOption.is_correct := b;
     QuestionOption.order_number := QuestionOption.order_number o |}.

Definition set_option_text (v : string) (o : QuestionOption.t) : QuestionOption.t :=
  {| QuestionOption.option_text := v;
     QuestionOption.is_correct := QuestionOption.is_correct o;
     QuestionOption.order_number := QuestionOption.order_number o |}.

(** The question [handleAddQuestion] appends, and the form starts with. *)
Definition newQuestion (order : Z) : Question.t :=
  {| Question.question_type := GradeExam.mcq;
     Question.question_text := "";
     Question.points := Js.of_Z 1;
     Question.correct_answer := "";
     Question.order_number := order;
     Question.options :=
       [ {| QuestionOption.option_text := ""; QuestionOption.is_correct := true;
            QuestionOption.order_number := 1 |};
         {| QuestionOption.option_text := ""; QuestionOption.is_correct := false;
            QuestionOption.order_number := 2 |} ] |}.

Definition initialQuestions : list Question.t := [newQuestion 1].

Definition handleAddQuestion (questions : list Question.t) : list Question.t :=
  questions ++ [newQuestion (Z.of_nat (length questions) + 1)].

(** [filter((_, i) => i !== index)] then [map((q, i) => ({...q,
    order_number: i + 1}))]. *)
Definition handleRemoveQuestion (index : nat) (questions : list Question.t)
  : list Question.t :=
  if (1 <? length questions)%nat then
    imap (λ i q, set_order_number (Z.of_nat i + 1) q) (delete index questions)
  else questions.

(** The option handlers read [newQuestions[questionIndex].options]: with
    no question at that index this throws and the state is not set. *)
Definition handleCorrectOptionChange (questionIndex optionIndex : nat)
  (questions : list Question.t) : list Question.t :=
  match questions !! questionIndex with
  | None => questions
  | Some q =>
      let cleared := map (set_is_correct false) (Question.options q) in
      (* the second write throws when there is no such option; the options
         are the state's own objects and stay cleared *)
      <[questionIndex := set_options (alter (set_is_correct true) optionIndex cleared) q]>
        questions
  end.

Definition handleOptionChange (questionIndex optionIndex : nat) (value : string)
  (questions : list Question.t) : list Question.t :=
  match questions !! questionIndex with
  | None => questions
  | Some q =>
      <[questionIndex :=
          set_options (alter (set_option_text value) optionIndex (Question.options q)) q]>
        questions
  end.

Definition handleAddOption (questionIndex : nat) (questions : list Question.t)
  : list Question.t :=
  match questions !! questionIndex with
  | None => questions
  | Some q =>
      <[questionIndex :=
          set_options
            (Question.options q ++
             [ {| QuestionOption.option_text := "";
                  QuestionOption.is_correct := false;
                  QuestionOption.order_number :=
                    Z.of_nat (length (Question.options q)) + 1 |} ]) q]>
        questions
  end.

(** [splice(optionIndex, 1)] then the renumbering, only above two
    options. *)
Definition handleRemoveOption (questionIndex optionIndex : nat)
  (questions : list Question.t) : list Question.t :=
  match questions !! questionIndex with
  | None => questions
  | Some q =>
      if (2 <? length (Question.options q))%nat then
        <[questionIndex :=
            set_options
              (imap (λ i o, set_option_order (Z.of_nat i + 1) o)
                    (delete optionIndex (Question.options q))) q]>
          questions
      else questions
  end.

(** The clicks of the form on the list of questions. *)
Inductive question_click : Type :=
| AddQuestion
| RemoveQuestion (index : nat).

Definition click (k : question_click) (questions : list Question.t)
  : list Question.t :=
  match k with
  | AddQuestion => handleAddQuestion questions
  | RemoveQuestion index => handleRemoveQuestion index questions
  end.

(** Positions [1..n]. *)
Definition positions (n : nat) : list Z :=
  map (λ i, Z.of_nat i + 1) (seq 0 n).

Definition correct_count (os : list QuestionOption.t) : nat :=
  length (List.filter QuestionOption.is_correct os).

(** The writes of [handleSubmit]. *)
Inductive write : Type :=
| InsertExam
| InsertQuestion (q : Question.t)
| InsertOptions (question_id : string) (os : list QuestionOption.t).

Inductive submit_outcome : Type :=
| NoProfile
| Created          (* [alert] then [window.location.href = '/teacher'] *)
| Failed.          (* the [catch]: logged and alerted, the page stays *)

(** What the store answers: the id of the created exam, the id of each
    created question (by position), and whether the options of a question
    are taken; [None] and [false] stand for an [error] result. *)
Record env : Type := mkEnv {
  exam_insert : option string;
  question_insert : nat → option string;
  options_insert : nat → bool
}.

Fixpoint insert_questions (e : env) (i : nat) (questions : list Question.t)
  : list write * bool :=
  match questions with
  | [] => ([], true)
  | q :: rest =>
      match question_insert e i with
      | None => ([], false)
      | Some qid =>
          if bool_decide (Question.question_type q = GradeExam.mcq) then
            if options_insert e i then
              let '(ws, ok) := insert_questions e (S i) rest in
              (InsertQuestion q :: InsertOptions qid (Question.options q) :: ws, ok)
            else ([InsertQuestion q], false)
          else
            let '(ws, ok) := insert_questions e (S i) rest in
            (InsertQuestion q :: ws, ok)
      end
  end.

(** The question of a write into [questions]. *)
Definition inserted_question (w : write) : option Question.t :=
  match w with InsertQuestion q => Some q | _ => None end.

(** [handleSubmit]: the writes that reached the store, in order, and how
    the handler ends. *)
Definition handleSubmit (has_profile : bool) (e : env)
  (questions : list Question.t) : list write * submit_outcome :=
  if negb has_profile then ([], NoProfile)
  else
    match exam_insert e with
    | None => ([], Failed)
    | Some _ =>
        let '(ws, ok) := insert_questions e 0 questions in
        (InsertExam :: ws, if ok then Created else Failed)
    end.

End CreateExam.

(** ** [EditExam.validateExam] (src/pages/TeacherDashboard.tsx, second unit) *)

Module EditExam.

Module QuestionOption.
Record t : Type := mk {
  option_text : string;
  is_correct : bool;
  order_number : Z
}.
End QuestionOption.

Module Question.
Record t : Type := mk {
  question_text : string;
  points : Z;
  order_number : Z;
  question_type : GradeExam.question_type;
  correct_answer : option string;
  question_options : option (list QuestionOption.t)
}.
End Question.

(** The dates are what [new Date(...)] makes of the form's strings: an
    instant, or [None] for an invalid date. *)
Module Exam.
Record t : Type := mk {
  title : string;
  description : string;
  duration_minutes : Z;
  open_date : option Z;
  close_date : option Z
}.
End Exam.

(** The messages of [setError]; questions and options are counted from 1. *)
Inductive validation_error : Type :=
| TitleRequired
| DescriptionRequired
| DurationNotPositive
| CloseNotAfterOpen
| QuestionTextRequired (question : nat)
| PointsNotPositive (question : nat)
| NoCorrectOption (question : nat)
| OptionTextRequired (question option : nat)
| CorrectAnswerRequired (question : nat).

Section Validation.

(** [String.prototype.trim], whatever it strips. *)
Variable trim : string → string.

(** [!s.trim()]. *)
Definition blank (s : string) : bool := String.eqb (trim s) "".

(** The inner [for] over the options: the first option whose text is
    blank. *)
Fixpoint first_blank_option (j : nat) (os : list QuestionOption.t) : option nat :=
  match os with
  | [] => None
  | o :: rest =>
      if blank (QuestionOption.option_text o) then Some j
      else first_blank_option (S j) rest
  end.

(** The body of the loop over the questions, for the question at index
    [i]. *)
Definition validate_question (i : nat) (q : Question.t) : option validation_error :=
  if blank (Question.question_text q) then Some (QuestionTextRequired (S i))
  else if Question.points q <=? 0 then Some (PointsNotPositive (S i))
  else
    let options_error :=
      match Question.question_type q, Question.question_options q with
      | GradeExam.mcq, Some os =>
          if negb (existsb QuestionOption.is_correct os)
          then Some (NoCorrectOption (S i))
          else
            match first_blank_option 0 os with
            | Some j => Some (OptionTextRequired (S i) (S j))
            | None => None
            end
      | _, _ => None
      end in
    match options_error with
    | Some err => Some err
    | None =>
        match Question.question_type q with
        | GradeExam.short_answer | GradeExam.long_answer =>
            match Question.correct_answer q with
            | Some m => if blank m then Some (CorrectAnswerRequired (S i)) else None
            | None => Some (CorrectAnswerRequired (S i))
            end
        | _ => None
        end
    end.

Fixpoint validate_questions (i : nat) (qs : list Question.t)
  : option validation_error :=
  match qs with
  | [] => None
  | q :: rest =>
      match validate_question i q with
      | Some err => Some err
      | None => validate_questions (S i) rest
      end
  end.

(** [close <= open] on dates: false as soon as one of them is invalid. *)
Definition date_le (a b : option Z) : bool :=
  match a, b with
  | Some x, Some y => x <=? y
  | _, _ => false
  end.

(** [validateExam]: [None] when it returns [true], else the error it
    sets. *)
Definition validateExam (exam : Exam.t) (questions : list Question.t)
  : option validation_error :=
  if blank (Exam.title exam) then Some TitleRequired
  else if blank (Exam.description exam) then Some DescriptionRequired
  else if Exam.duration_minutes exam <=? 0 then Some DurationNotPositive
  else if date_le (Exam.close_date exam) (Exam.open_date exam)
  then Some CloseNotAfterOpen
  else validate_questions 0 questions.

(** What the loop asks of one question. *)
Definition accepted_question (q : Question.t) : Prop :=
  trim (Question.question_text q) ≠ ""%string
  ∧ 0 < Question.points q
  ∧ (Question.question_type q = GradeExam.mcq →
     ∀ os, Question.question_options q = Some os →
           (∃ o, o ∈ os ∧ QuestionOption.is_correct o = true)
           ∧ ∀ o, o ∈ os → trim (QuestionOption.option_text o) ≠ ""%string)
  ∧ (Question.question_type q = GradeExam.short_answer
     ∨ Question.question_type q = GradeExam.long_answer →
     ∃ m, Question.correct_answer q = Some m ∧ trim m ≠ ""%string).

End Validation.

End EditExam.

(** ** [StudentDashboard] (src/pages/StudentDashboard.tsx) *)

Module StudentDashboard.

Inductive exam_status : Type :=
| completed
| blocked
| in_progress
| upcoming
| closed
| available.

#[global] Instance exam_status_eq_dec : EqDecision exam_status.
Proof. solve_decision. Defined.

(** [getExamStatus]: [now], [open_date] and [close_date] are instants;
    [session] is the student's session for the exam, if any. *)
Definition getExamStatus (now open_date close_date : Z)
  (session : option Store.ExamSession.t) : exam_status :=
  let status := Store.ExamSession.status <$> session in
  if bool_decide (status = Some Store.submitted)
     || bool_decide (status = Some Store.auto_submitted) then completed
  else if bool_decide (status = Some Store.blocked) then blocked
  else if bool_decide (status = Some Store.in_progress) then in_progress
  else if now <? open_date then upcoming
  else if close_date <? now then closed
  else available.

(** The button of an exam's card that leads to [/exam/<id>]. *)
Inductive entry_button : Type :=
| StartExam
| Continue
| NoEntry.

Definition entry (now open_date close_date : Z)
  (session : option Store.ExamSession.t) : entry_button :=
  let status := getExamStatus now open_date close_date session in
  if bool_decide (status = available) && bool_decide (session = None)
  then StartExam
  else if bool_decide (status = in_progress) then Continue
  else NoEntry.

End StudentDashboard.

(** ** [src/App.tsx] and [components/ProtectedRoute]: the router *)

Module App.

Inductive role : Type := student | teacher | admin.

#[global] Instance role_eq_dec : EqDecision role.
Proof. solve_decision. Defined.

(** The page components the router can mount; [GradeExamPage] carries its
    [sessionId] prop. *)
Inductive page : Type :=
| LoginPage
| RegisterPage
| TakeExamPage
| StudentExamResultPage
| TeacherDashboardPage
| CreateExamPage
| GradeExamPage (sessionId : string)
| ExamDetailsPage
| EditExamPage
| StudentDashboardPage.

(** What a render returns: the spinner, a page, one of the two refusal
    cards of [ProtectedRoute], [null] after an assignment to
    [window.location.href], or the 404 card with the target of its link. *)
Inductive view : Type :=
| Spinner
| Render (p : page)
| AccessDenied
| Unauthorized
| Redirect (href : string)
| NotFound (link : string).

(** [s.startsWith(pat)], and what is left of [s] behind [pat]. *)
Fixpoint strip_prefix (pat s : string) : option string :=
  match pat with
  | EmptyString => Some s
  | String a pat' =>
      match s with
      | String b s' => if Ascii.eqb a b then strip_prefix pat' s' else None
      | EmptyString => None
      end
  end.

Definition startsWith (s pat : string) : bool :=
  match strip_prefix pat s with Some _ => true | None => false end.

(** [s.includes(pat)]. *)
Fixpoint includes (s pat : string) : bool :=
  startsWith s pat
  || match s with
     | String _ s' => includes s' pat
     | EmptyString => false
     end.

(** [s.replace(pat, rep)] for a string pattern: the first occurrence. *)
Fixpoint replace (s pat rep : string) : string :=
  match strip_prefix pat s with
  | Some rest => rep ++ rest
  | None =>
      match s with
      | String c s' => String c (replace s' pat rep)
      | EmptyString => EmptyString
      end
  end.

(** [ProtectedRoute]; of [user] only its presence is read, of [profile]
    only its role.  [allowedRoles] is an optional prop, and an array is
    truthy also when empty. *)
Definition ProtectedRoute (loading : bool) (user : option string)
  (profile : option role) (allowedRoles : option (list role))
  (children : page) : view :=
  if loading then Spinner
  else
    match user, profile with
    | Some _, Some r =>
        match allowedRoles with
        | Some roles =>
            if negb (bool_decide (r ∈ roles)) then Unauthorized
            else Render children
        | None => Render children
        end
    | _, _ => AccessDenied
    end.

(** The redirection of a signed-in visitor from [/login], [/register]. *)
Definition role_home (profile : option role) : string :=
  if bool_decide (profile = Some teacher) || bool_decide (profile = Some admin)
  then "/teacher" else "/".

Definition Router (currentPath : string) (loading : bool)
  (user : option string) (profile : option role) : view :=
  let protected := ProtectedRoute loading user profile in
  if loading then Spinner
  else if (currentPath =? "/login")%string then
    match user with
    | Some _ => Redirect (role_home profile)
    | None => Render LoginPage
    end
  else if (currentPath =? "/register")%string then
    match user with
    | Some _ => Redirect (role_home profile)
    | None => Render RegisterPage
    end
  else if startsWith currentPath "/exam/" then
    protected (Some [student]) TakeExamPage
  else if startsWith currentPath "/result/" then
    protected (Some [student]) StudentExamResultPage
  else if (currentPath =? "/teacher")%string
          || (currentPath =? "/teacher/")%string then
    protected (Some [teacher; admin]) TeacherDashboardPage
  else if (currentPath =? "/teacher/exams/create")%string then
    protected (Some [teacher; admin]) CreateExamPage
  else if startsWith currentPath "/teacher/grade/" then
    let sessionId := replace currentPath "/teacher/grade/" "" in
    protected (Some [teacher; admin]) (GradeExamPage sessionId)
  else if startsWith currentPath "/teacher/exams/"
          && negb (includes currentPath "/edit")
          && negb (includes currentPath "/grade") then
    protected (Some [teacher; admin]) ExamDetailsPage
  else if startsWith currentPath "/teacher/exams/"
          && includes currentPath "/edit" then
    protected (Some [teacher; admin]) EditExamPage
  else if (currentPath =? "/")%string || (currentPath =? "")%string then
    match user with
    | None => Redirect "/login"
    | Some _ =>
        if bool_decide (profile = Some teacher)
           || bool_decide (profile = Some admin)
        then Redirect "/teacher"
        else protected (Some [student]) StudentDashboardPage
    end
  else NotFound (match user with Some _ => "/" | None => "/login" end).

(** The pages by the visitors they are written for. *)
Inductive audience : Type := Visitors | Students | Teachers.

Definition audience_of (p : page) : audience :=
  match p with
  | LoginPage | RegisterPage => Visitors
  | TakeExamPage | StudentExamResultPage | StudentDashboardPage => Students
  | TeacherDashboardPage | CreateExamPage | GradeExamPage _
  | ExamDetailsPage | EditExamPage => Teachers
  end.

End App.

(* ===================================================================== *)
(** * Part II. Properties                                                 *)
(* ===================================================================== *)

(** ** The exam timer *)

Section TimerProps.
Import Timer.
Variables (startedAt durationMinutes : Z).

Lemma calculateTimeRemaining_nonneg now :
  0 ≤ calculateTimeRemaining startedAt durationMinutes now.
Proof. unfold calculateTimeRemaining. apply Z.div_pos; lia. Qed.

Lemma calculateTimeRemaining_floor now :
  calculateTimeRemaining startedAt durationMinutes now
  = Z.max 0 ((startedAt + durationMinutes * 60 * 1000 - now) / 1000).
Proof.
  unfold calculateTimeRemaining.
  destruct (Z.le_gt_cases 0 (startedAt + durationMinutes * 60 * 1000 - now)) as [Hle|Hgt].
  - rewrite Z.max_r by lia. rewrite Z.max_r; [done|]. apply Z.div_pos; lia.
  - rewrite Z.max_l by lia. rewrite Z.max_l; [done|].
    assert ((startedAt + durationMinutes * 60 * 1000 - now) / 1000 < 0)
      by (apply Z.div_lt_upper_bound; lia).
    lia.
Qed.

Lemma calculateTimeRemaining_at_start :
  0 ≤ durationMinutes →
  calculateTimeRemaining startedAt durationMinutes startedAt = durationMinutes * 60.
Proof.
  intros HD. unfold calculateTimeRemaining.
  replace (startedAt + durationMinutes * 60 * 1000 - startedAt)
    with (durationMinutes * 60 * 1000) by lia.
  rewrite Z.max_r by lia. apply Z.div_mul. lia.
Qed.

Lemma calculateTimeRemaining_after_end now :
  startedAt + durationMinutes * 60 * 1000 ≤ now →
  calculateTimeRemaining startedAt durationMinutes now = 0.
Proof.
  intros Hnow. unfold calculateTimeRemaining. by rewrite Z.max_l by lia.
Qed.

(** The [onTimeUp] calls of a run from any state in which the interval is
    armed as long as the ref is unset. *)
Lemma fired_count_run es s :
  (hasCalledTimeUp s = false → intervalActive s = true) →
  length (filter (λ b, b = true) (snd (run startedAt durationMinutes es s)))
  = if hasCalledTimeUp s then 0%nat
    else if existsb (observes_zero startedAt durationMinutes) es then 1%nat
    else 0%nat.
Proof.
  revert s. induction es as [|e es IH]; intros s Hs.
  { simpl. by destruct (hasCalledTimeUp s). }
  assert (Hnext : ∀ s1 fired,
    step startedAt durationMinutes e s = (s1, fired) →
    (hasCalledTimeUp s1 = false → intervalActive s1 = true)
    ∧ (if fired then hasCalledTimeUp s = false ∧ hasCalledTimeUp s1 = true
                     ∧ observes_zero startedAt durationMinutes e = true
       else hasCalledTimeUp s1 = hasCalledTimeUp s
            ∧ (hasCalledTimeUp s = false →
               observes_zero startedAt durationMinutes e = false))).
  { intros s1 fired Hstep. destruct e as [now|now]; simpl in Hstep.
    - inversion Hstep; subst; simpl. done.
    - destruct (intervalActive s) eqn:Hact.
      + unfold interval_callback in Hstep. simpl.
        destruct (_ <=? 0) eqn:Hz, (hasCalledTimeUp s) eqn:Hcalled;
          simpl in Hstep; inversion Hstep; subst; simpl; done.
      + injection Hstep as <- <-. destruct (hasCalledTimeUp s) eqn:Hcalled.
        * split; [congruence|]. split; [done|congruence].
        * specialize (Hs eq_refl). congruence. }
  simpl. destruct (step startedAt durationMinutes e s) as [s1 fired] eqn:Hstep.
  destruct (Hnext s1 fired eq_refl) as [Hs1 Hfired].
  specialize (IH s1 Hs1). destruct (run _ _ es s1) as [s2 rest]. simpl in *.
  destruct fired.
  - destruct Hfired as (Hc & Hc1 & Hz). rewrite Hc1 in IH. rewrite Hc, Hz.
    rewrite filter_cons_True by done. simpl. by rewrite IH.
  - destruct Hfired as [Hc Hz]. rewrite Hc in IH.
    rewrite filter_cons_False by done. rewrite IH.
    destruct (hasCalledTimeUp s); [done|]. by rewrite Hz.
Qed.

End TimerProps.

(** C3. For every start instant [T] and duration [D]: the remaining time is
    [max(0, (T + D*60s) - now)] in whole seconds; it is [D*60] at [now = T]
    (durations are not negative) and [0] at every instant after the end;
    and over any run of the hook [onTimeUp] is called exactly once if some
    tick reads a remaining time of zero, however many ticks read it, and
    not at all otherwise. *)
Theorem C3_timer_remaining_and_single_expiry (T D : Z) :
  (∀ now, Timer.calculateTimeRemaining T D now
          = Z.max 0 ((T + D * 60 * 1000 - now) / 1000))
  ∧ (0 ≤ D → Timer.calculateTimeRemaining T D T = D * 60)
  ∧ (∀ ε, 0 < ε → Timer.calculateTimeRemaining T D (T + D * 60 * 1000 + ε) = 0)
  ∧ (∀ mounted es,
       Timer.onTimeUp_calls T D mounted es
       = if existsb (Timer.observes_zero T D) es then 1%nat else 0%nat).
Proof.
  split; [apply calculateTimeRemaining_floor|].
  split; [apply calculateTimeRemaining_at_start|].
  split.
  - intros ε Hε. apply calculateTimeRemaining_after_end. lia.
  - intros mounted es. unfold Timer.onTimeUp_calls.
    pose proof (fired_count_run T D es
                  (Timer.run_effect T D mounted Timer.initial)) as Hrun.
    simpl in *. destruct (Timer.run T D es _) as [s2 rest]. simpl in *.
    rewrite filter_cons_False by done. by apply Hrun.
Qed.

(** The timer statement at a one-hour exam started at instant 5000, with
    three ticks after the end. *)
Lemma C3_timer_witness :
  Timer.calculateTimeRemaining 5000 60 5000 = 3600
  ∧ Timer.calculateTimeRemaining 5000 60 (5000 + 60 * 60 * 1000 + 1) = 0
  ∧ Timer.onTimeUp_calls 5000 60 5000
      [Timer.Tick 6000; Timer.Tick 3605000; Timer.Effect 3605500;
       Timer.Tick 3606000; Timer.Tick 3607000] = 1%nat.
Proof.
  destruct (C3_timer_remaining_and_single_expiry 5000 60) as (_ & Hstart & Hend & Hcalls).
  split; [apply Hstart; lia|].
  split; [apply Hend; lia|].
  rewrite Hcalls. reflexivity.
Defined.

(** ** The cheat detector *)

Section AntiCheatProps.
Import AntiCheat.
Variable maxWarnings : Z.
Hypothesis threshold_positive : 1 ≤ maxWarnings.

Local Abbreviation step := (AntiCheat.step true maxWarnings).
Local Abbreviation final := (AntiCheat.final true maxWarnings).
Local Abbreviation trace := (AntiCheat.trace true maxWarnings).
Local Abbreviation Inv := (AntiCheat.invariant maxWarnings).

Lemma invariant_initial : Inv initial.
Proof using threshold_positive. unfold invariant; simpl. repeat split; (lia || done). Qed.

(** One event from a state satisfying the invariant: the invariant is
    kept, the counter does not decrease, a set ref freezes the counter, and
    the callback is made exactly when the counter passes from below the
    threshold onto it; only a loss of focus moves the counter. *)
Lemma step_spec e s :
  Inv s →
  let r := step e s in
  Inv (fst r)
  ∧ warningCount s ≤ warningCount (fst r)
  ∧ (hasReachedMaxWarnings s = true → warningCount (fst r) = warningCount s)
  ∧ (fired (snd r) = true
     ↔ warningCount s < maxWarnings ∧ warningCount (fst r) = maxWarnings)
  ∧ (focus_loss e = false → warningCount (fst r) = warningCount s).
Proof.
  intros (Hlag & Hunset & Hset). unfold invariant.
  destruct e as [[|]| |]; simpl;
    unfold handleVisibilityChange, handleBlur, count_warning; simpl;
    destruct (hasReachedMaxWarnings s) eqn:Href; simpl;
    try destruct (closureCount s + 1 >=? maxWarnings) eqn:Hge; simpl;
    rewrite ?Href; simpl;
    try (specialize (Hunset eq_refl)); try (specialize (Hset eq_refl));
    repeat split; intros; try done; try lia; try (intuition (done || lia)).
Qed.

Lemma final_app es1 es2 s :
  final (es1 ++ es2) s = final es2 (final es1 s).
Proof. revert s. induction es1 as [|e es1 IH]; intros s; simpl; [done|apply IH]. Qed.

Lemma final_invariant es s : Inv s → Inv (final es s).
Proof.
  revert s. induction es as [|e es IH]; intros s Hs; simpl; [done|].
  apply IH. by apply step_spec.
Qed.

Lemma final_monotone es s : Inv s → warningCount s ≤ warningCount (final es s).
Proof.
  revert s. induction es as [|e es IH]; intros s Hs; simpl; [done|].
  destruct (step_spec e s Hs) as (Hinv & Hle & _).
  specialize (IH _ Hinv). simpl in *. lia.
Qed.

Lemma final_frozen es s :
  Inv s → warningCount s = maxWarnings →
  warningCount (final es s) = maxWarnings.
Proof.
  intros Hs Hcount. pose proof (final_monotone es s Hs) as Hle.
  destruct (final_invariant es s Hs) as (_ & Hunset & Hset).
  destruct (hasReachedMaxWarnings (final es s)); [by apply Hset|].
  specialize (Hunset eq_refl). lia.
Qed.

Lemma max_calls_trace es s :
  Inv s →
  max_calls (trace es s)
  = if bool_decide (warningCount s < maxWarnings
                    ∧ warningCount (final es s) = maxWarnings)
    then 1%nat else 0%nat.
Proof.
  revert s. induction es as [|e es IH]; intros s Hs.
  { unfold max_calls. simpl. case_bool_decide; [lia|done]. }
  destruct (step_spec e s Hs) as (Hinv & Hle & _ & Hfired & _).
  change (final (e :: es) s) with (final es (fst (step e s))).
  change (trace (e :: es) s) with (step e s :: trace es (fst (step e s))).
  remember (step e s) as r eqn:Hr. clear Hr. cbv zeta in *.
  pose proof (final_monotone es _ Hinv) as Hmono.
  specialize (IH _ Hinv). unfold max_calls in *.
  destruct (fired (snd r)) eqn:Hf.
  - rewrite filter_cons_True by done. cbn [length]. rewrite IH.
    destruct Hfired as [Hfired _]. destruct (Hfired eq_refl) as [Hlt Heq].
    rewrite bool_decide_eq_false_2 by lia.
    rewrite bool_decide_eq_true_2; [done|].
    split; [done|]. by apply final_frozen.
  - rewrite filter_cons_False by (by rewrite Hf). rewrite IH.
    erewrite bool_decide_ext; [done|].
    split; [intros [? ?]; split; [lia|done]|].
    intros [Hlt Heq]. split; [|done].
    destruct (Z.lt_ge_cases (warningCount (fst r)) maxWarnings) as [|Hge];
      [done|].
    destruct Hinv as (_ & Hu & Hs').
    destruct (hasReachedMaxWarnings (fst r)) eqn:Href.
    + specialize (Hs' eq_refl). destruct Hfired as [_ Hfired].
      by specialize (Hfired (conj Hlt Hs')).
    + specialize (Hu eq_refl). lia.
Qed.

(** With a render after every event, each loss of focus counts until the
    threshold is reached. *)
Lemma rendered_count es s :
  Inv s → closureCount s = warningCount s →
  warningCount (final (rendered es) s)
  = Z.min (warningCount s + Z.of_nat (length (filter (λ e, focus_loss e = true) es)))
          maxWarnings
  ∧ closureCount (final (rendered es) s) = warningCount (final (rendered es) s).
Proof.
  revert s. induction es as [|e es IH]; intros s Hs Hclos.
  { simpl. destruct Hs as (_ & Hunset & Hset).
    destruct (hasReachedMaxWarnings s); [specialize (Hset eq_refl)|specialize (Hunset eq_refl)]; lia. }
  assert (Hs1 : Inv (final [e; Render] s)) by by apply final_invariant.
  assert (Hc1 : closureCount (final [e; Render] s) = warningCount (final [e; Render] s)) by done.
  change (rendered (e :: es)) with ([e; Render] ++ rendered es).
  rewrite final_app. destruct (IH _ Hs1 Hc1) as [IHcount IHclos].
  split; [|done]. rewrite IHcount. clear IH IHcount IHclos Hs1 Hc1.
  destruct Hs as (Hlag & Hunset & Hset).
  destruct e as [[|]| |]; simpl;
    unfold handleVisibilityChange, handleBlur, count_warning; simpl;
    rewrite ?filter_cons_True, ?filter_cons_False by done; simpl;
    destruct (hasReachedMaxWarnings s) eqn:Href; simpl;
    try destruct (closureCount s + 1 >=? maxWarnings) eqn:Hge; simpl;
    try (specialize (Hunset eq_refl)); try (specialize (Hset eq_refl));
    lia.
Qed.

End AntiCheatProps.

(** C2. For the enabled detector with a threshold of at least one, over
    every sequence of events (renders interleaved in any way): the warning
    count never decreases and never exceeds the threshold; an event calls
    [onMaxWarningsReached] exactly when it takes the count from below the
    threshold onto it, so the callback is made once if the threshold is
    reached and never otherwise; once the count is at the threshold no
    later event changes it; only a loss of focus (blur, or a visibility
    change to hidden) moves the count; and when each event is followed by
    its render, the count is the number of losses of focus capped at the
    threshold. *)
Theorem C2_max_warnings_fires_once (maxWarnings : Z) (Hmax : 1 ≤ maxWarnings) :
  let final := AntiCheat.final true maxWarnings in
  let step := AntiCheat.step true maxWarnings in
  let count es := AntiCheat.warningCount (final es AntiCheat.initial) in
  (∀ es1 es2, count es1 ≤ count (es1 ++ es2) ≤ maxWarnings)
  ∧ (∀ es e,
       AntiCheat.fired (snd (step e (final es AntiCheat.initial))) = true
       ↔ count es < maxWarnings ∧ count (es ++ [e]) = maxWarnings)
  ∧ (∀ es,
       AntiCheat.max_calls (AntiCheat.trace true maxWarnings es AntiCheat.initial)
       = if bool_decide (count es = maxWarnings) then 1%nat else 0%nat)
  ∧ (∀ es1 es2, count es1 = maxWarnings → count (es1 ++ es2) = maxWarnings)
  ∧ (∀ es e, AntiCheat.focus_loss e = false → count (es ++ [e]) = count es)
  ∧ (∀ es,
       count (AntiCheat.rendered es)
       = Z.min (Z.of_nat (length (filter (λ e, AntiCheat.focus_loss e = true) es)))
               maxWarnings).
Proof.
  intros final step count. subst final step count. cbv beta.
  pose proof (invariant_initial maxWarnings Hmax) as H0.
  assert (Hreach : ∀ es, AntiCheat.invariant maxWarnings
                           (AntiCheat.final true maxWarnings es AntiCheat.initial))
    by (intros es; by apply final_invariant).
  split; [|split; [|split; [|split; [|split]]]].
  - intros es1 es2. split.
    + rewrite final_app. apply final_monotone; auto.
    + destruct (Hreach (es1 ++ es2)) as (_ & Hunset & Hset).
      destruct (AntiCheat.hasReachedMaxWarnings _);
        [specialize (Hset eq_refl)|specialize (Hunset eq_refl)]; lia.
  - intros es e. rewrite final_app.
    apply (step_spec maxWarnings e _ (Hreach es)).
  - intros es. rewrite max_calls_trace by done.
    erewrite bool_decide_ext; [done|]. simpl. intuition lia.
  - intros es1 es2 Hcount. rewrite final_app. by apply final_frozen.
  - intros es e He. rewrite final_app.
    by apply (step_spec maxWarnings e _ (Hreach es)).
  - intros es. by rewrite (proj1 (rendered_count maxWarnings es _ H0 eq_refl)).
Qed.

(** The detector statement at threshold 2 with three losses of focus. *)
Lemma C2_max_warnings_witness :
  AntiCheat.max_calls
    (AntiCheat.trace true 2
       (AntiCheat.rendered [AntiCheat.Blur; AntiCheat.VisibilityChange true;
                            AntiCheat.Blur])
       AntiCheat.initial) = 1%nat
  ∧ AntiCheat.warningCount
      (AntiCheat.final true 2
         (AntiCheat.rendered [AntiCheat.Blur; AntiCheat.VisibilityChange true;
                              AntiCheat.Blur])
         AntiCheat.initial) = 2.
Proof.
  destruct (C2_max_warnings_fires_once 2 ltac:(lia)) as (_ & _ & Hcalls & _ & _ & Hcount).
  split.
  - rewrite Hcalls. reflexivity.
  - rewrite Hcount. reflexivity.
Defined.

(** ** Auto-grading *)

Section AutoGradeProps.
Import GradeExam.


Lemma handleAutoGrade_lookup_other questions answers grades (k : string) :
  k ∉ map Question.id questions →
  handleAutoGrade questions answers grades !! k = grades !! k.
Proof.
  unfold handleAutoGrade. revert grades.
  induction questions as [|q qs IH]; intros grades Hk; simpl in *; [done|].
  rewrite not_elem_of_cons in Hk. destruct Hk as [Hne Hk].
  rewrite IH by done. by rewrite lookup_insert_ne.
Qed.


End AutoGradeProps.



Section TextAnswerProps.
Import GradeExam.
Variables (trim toLowerCase : string → string).




End TextAnswerProps.




(** ** Totals, percentage and grade letter *)

Section NumberProps.
Local Open Scope Qc_scope.



Lemma add_0_l (a : Js.number) : Js.add (Js.of_Z 0) a = a.
Proof.
  destruct a; simpl; [done|]. unfold Js.of_Z in *.
  by rewrite Z2Qc_inj_0, Qcplus_0_l.
Qed.

End NumberProps.

Section TotalsProps.
Import GradeExam.




(** The grading states have one entry per question: the initial grades
    do, and the two handlers keep it so. *)
Lemma foldl_insert_dom (g : Question.t → Js.number) questions
  (grades : gmap string Js.number) :
  dom (foldl (λ acc q, <[Question.id q := g q]> acc) grades questions)
  = dom grades ∪ list_to_set (map Question.id questions).
Proof.
  revert grades. induction questions as [|q qs IH]; intros grades; simpl.
  - apply set_eq. intros k. rewrite elem_of_union, elem_of_empty. tauto.
  - rewrite IH, dom_insert_L. apply set_eq. intros k.
    rewrite !elem_of_union, elem_of_singleton. tauto.
Qed.


Lemma handleAutoGrade_dom questions answers (grades : gmap string Js.number) :
  dom grades = list_to_set (map Question.id questions) →
  dom (handleAutoGrade questions answers grades)
  = list_to_set (map Question.id questions).
Proof.
  intros Hdom. unfold handleAutoGrade. rewrite foldl_insert_dom, Hdom.
  apply set_eq. intros k. rewrite elem_of_union. tauto.
Qed.

Lemma handleGradeChange_dom questions q value (grades : gmap string Js.number) :
  q ∈ questions →
  dom grades = list_to_set (map Question.id questions) →
  dom (handleGradeChange questions (Question.id q) value grades)
  = list_to_set (map Question.id questions).
Proof.
  intros Hq Hdom. unfold handleGradeChange. rewrite dom_insert_L, Hdom.
  apply set_eq. intros k. rewrite elem_of_union, elem_of_singleton.
  split; [|by right]. intros [->|?]; [|done].
  apply elem_of_list_to_set, list_elem_of_fmap. by exists q.
Qed.

End TotalsProps.

(** *** The totals as the code computes them *)

Section DoubleTotals.
Import GradeExam.
Import PrimFloat.

Local Abbreviation fin := (SpecFloat.S754_finite false).

(** Order facts on the specification of binary64 values, against a
    positive finite bound. *)
Lemma SFleb_fin_mono (ma mb : positive) (ea eb : Z) s :
  (ea < eb)%Z ∨ (ea = eb ∧ (ma < mb)%positive) →
  SpecFloat.SFleb (fin mb eb) s = true →
  SpecFloat.SFleb (fin ma ea) s = true.
Proof.
  intros Hlt. unfold SpecFloat.SFleb, SpecFloat.SFcompare.
  destruct s as [sz|[|]| |[|] ms es]; try done.
  change (PosDef.Pos.compare_cont Eq ?a ?b) with (Pos.compare a b).
  destruct (Z.compare_spec eb es), (Z.compare_spec ea es);
    destruct (Pos.compare_spec mb ms), (Pos.compare_spec ma ms);
    try done; lia.
Qed.

Lemma SFltb_fin_not_leb (mb : positive) (eb : Z) s :
  SpecFloat.SFltb s (fin mb eb) = true →
  SpecFloat.SFleb (fin mb eb) s = false.
Proof.
  unfold SpecFloat.SFltb, SpecFloat.SFleb, SpecFloat.SFcompare.
  destruct s as [sz|[|]| |[|] ms es]; try done.
  change (PosDef.Pos.compare_cont Eq ?a ?b) with (Pos.compare a b).
  destruct (Z.compare_spec es eb), (Z.compare_spec eb es);
    destruct (Pos.compare_spec ms mb), (Pos.compare_spec mb ms);
    try done; lia.
Qed.

Lemma SFleb_fin_false_ltb (ma mb : positive) (ea eb : Z) s :
  SpecFloat.SFleb (fin ma ea) s = true →
  SpecFloat.SFleb (fin mb eb) s = false →
  SpecFloat.SFltb s (fin mb eb) = true.
Proof.
  unfold SpecFloat.SFltb, SpecFloat.SFleb, SpecFloat.SFcompare.
  destruct s as [sz|[|]| |[|] ms es]; try done.
  change (PosDef.Pos.compare_cont Eq ?a ?b) with (Pos.compare a b).
  intros _.
  destruct (Z.compare_spec es eb), (Z.compare_spec eb es);
    destruct (Pos.compare_spec ms mb), (Pos.compare_spec mb ms);
    try done; lia.
Qed.

(** The four bounds of the letter bands. *)
Lemma bound_60 :
  FloatOps.Prim2SF (GradeTotals.of_Z 60) = fin 8444249301319680 (-47).
Proof. reflexivity. Qed.

Lemma bound_70 :
  FloatOps.Prim2SF (GradeTotals.of_Z 70) = fin 4925812092436480 (-46).
Proof. reflexivity. Qed.

Lemma bound_80 :
  FloatOps.Prim2SF (GradeTotals.of_Z 80) = fin 5629499534213120 (-46).
Proof. reflexivity. Qed.

Lemma bound_90 :
  FloatOps.Prim2SF (GradeTotals.of_Z 90) = fin 6333186975989760 (-46).
Proof. reflexivity. Qed.

(** [p >= 90] gives [p >= 80], and so on down; and between two bounds,
    "not [p >= b]" is [p < b]. *)
Lemma bands_order (p : float) :
  let ge60 := GradeTotals.ge p (GradeTotals.of_Z 60) in
  let ge70 := GradeTotals.ge p (GradeTotals.of_Z 70) in
  let ge80 := GradeTotals.ge p (GradeTotals.of_Z 80) in
  let ge90 := GradeTotals.ge p (GradeTotals.of_Z 90) in
  let lt70 := GradeTotals.lt p (GradeTotals.of_Z 70) in
  let lt80 := GradeTotals.lt p (GradeTotals.of_Z 80) in
  let lt90 := GradeTotals.lt p (GradeTotals.of_Z 90) in
  (ge90 = true → ge80 = true)
  ∧ (ge80 = true → ge70 = true)
  ∧ (ge70 = true → ge60 = true)
  ∧ (lt90 = true → ge90 = false)
  ∧ (lt80 = true → ge80 = false)
  ∧ (lt70 = true → ge70 = false)
  ∧ (ge80 = true → ge90 = false → lt90 = true)
  ∧ (ge70 = true → ge80 = false → lt80 = true)
  ∧ (ge60 = true → ge70 = false → lt70 = true).
Proof.
  cbv zeta. unfold GradeTotals.ge, GradeTotals.lt.
  rewrite !FloatAxioms.leb_spec, !FloatAxioms.ltb_spec.
  rewrite bound_60, bound_70, bound_80, bound_90.
  generalize (FloatOps.Prim2SF p). intros s.
  split; [apply SFleb_fin_mono; right; split; [done|lia]|].
  split; [apply SFleb_fin_mono; right; split; [done|lia]|].
  split; [apply SFleb_fin_mono; left; lia|].
  split; [apply SFltb_fin_not_leb|].
  split; [apply SFltb_fin_not_leb|].
  split; [apply SFltb_fin_not_leb|].
  split; [apply SFleb_fin_false_ltb|].
  split; [apply SFleb_fin_false_ltb|].
  apply SFleb_fin_false_ltb.
Qed.

Lemma summaryLetter_bands (p : float) :
  (GradeTotals.summaryLetter p = A
   ↔ GradeTotals.ge p (GradeTotals.of_Z 90) = true)
  ∧ (GradeTotals.summaryLetter p = B
     ↔ GradeTotals.ge p (GradeTotals.of_Z 80) = true
       ∧ GradeTotals.lt p (GradeTotals.of_Z 90) = true)
  ∧ (GradeTotals.summaryLetter p = C
     ↔ GradeTotals.ge p (GradeTotals.of_Z 70) = true
       ∧ GradeTotals.lt p (GradeTotals.of_Z 80) = true)
  ∧ (GradeTotals.summaryLetter p = D
     ↔ GradeTotals.ge p (GradeTotals.of_Z 60) = true
       ∧ GradeTotals.lt p (GradeTotals.of_Z 70) = true)
  ∧ (GradeTotals.summaryLetter p = F
     ↔ GradeTotals.ge p (GradeTotals.of_Z 60) = false).
Proof.
  pose proof (bands_order p)
    as (M98 & M87 & M76 & N9 & N8 & N7 & P9 & P8 & P7).
  cbv zeta in *. unfold GradeTotals.summaryLetter.
  destruct (GradeTotals.ge p (GradeTotals.of_Z 90)) eqn:H90;
    destruct (GradeTotals.ge p (GradeTotals.of_Z 80)) eqn:H80;
    destruct (GradeTotals.ge p (GradeTotals.of_Z 70)) eqn:H70;
    destruct (GradeTotals.ge p (GradeTotals.of_Z 60)) eqn:H60;
    destruct (GradeTotals.lt p (GradeTotals.of_Z 90)) eqn:L90;
    destruct (GradeTotals.lt p (GradeTotals.of_Z 80)) eqn:L80;
    destruct (GradeTotals.lt p (GradeTotals.of_Z 70)) eqn:L70;
    repeat match goal with
           | H : true = true → _ |- _ => specialize (H eq_refl)
           | H : false = true → _ |- _ => clear H
           | H : false = false → _ |- _ => specialize (H eq_refl)
           end;
    try discriminate;
    repeat split; try done; try (by intros [? ?]).
Qed.

(** Writing a property that is there keeps the keys and their order; a
    new key that is no array index goes to the end. *)
Lemma set_keys_present k v (o : GradeTotals.object) :
  k ∈ o.*1 → (GradeTotals.set k v o).*1 = o.*1.
Proof.
  intros Hk. unfold GradeTotals.set, GradeTotals.has.
  rewrite bool_decide_eq_true_2 by done. clear Hk.
  induction o as [|[k' v'] o IH]; [done|].
  cbn [map fmap list_fmap fst]. f_equal; [|exact IH].
  by case_bool_decide.
Qed.

Lemma set_keys_fresh k v (o : GradeTotals.object) :
  k ∉ o.*1 → GradeTotals.array_index k = None →
  (GradeTotals.set k v o).*1 = o.*1 ++ [k].
Proof.
  intros Hk Hindex. unfold GradeTotals.set, GradeTotals.has.
  rewrite bool_decide_eq_false_2 by done. rewrite Hindex.
  by rewrite fmap_app.
Qed.

Lemma assign_keys_fresh value questions (o : GradeTotals.object) :
  Forall (λ q, GradeTotals.array_index (Question.id q) = None) questions →
  NoDup (map Question.id questions) →
  (∀ q, q ∈ questions → Question.id q ∉ o.*1) →
  (GradeTotals.assign value questions o).*1
  = o.*1 ++ map Question.id questions.
Proof.
  unfold GradeTotals.assign. revert o.
  induction questions as [|q qs IH]; intros o Hindex Hnodup Hfresh; simpl.
  { by rewrite app_nil_r. }
  apply Forall_cons in Hindex as [Hq Hindex].
  apply NoDup_cons in Hnodup as [Hnew Hnodup].
  assert (Hkeys : (GradeTotals.set (Question.id q) (value q) o).*1
                  = o.*1 ++ [Question.id q]).
  { apply set_keys_fresh; [|done]. apply Hfresh. by left. }
  rewrite IH; [|done|done|].
  - by rewrite Hkeys, <-app_assoc.
  - intros q' Hq'. rewrite Hkeys, elem_of_app, list_elem_of_singleton.
    intros [Hin|Heq].
    + by apply (Hfresh q'); [right|].
    + apply Hnew. rewrite <-Heq. apply list_elem_of_In, in_map.
      by apply list_elem_of_In.
Qed.

Lemma assign_keys_present value questions (o : GradeTotals.object) :
  (∀ q, q ∈ questions → Question.id q ∈ o.*1) →
  (GradeTotals.assign value questions o).*1 = o.*1.
Proof.
  unfold GradeTotals.assign. revert o.
  induction questions as [|q qs IH]; intros o Hthere; simpl; [done|].
  assert (Hkeys : (GradeTotals.set (Question.id q) (value q) o).*1 = o.*1).
  { apply set_keys_present, Hthere. by left. }
  rewrite IH; [done|]. intros q' Hq'. rewrite Hkeys. apply Hthere. by right.
Qed.

(** On the grading page the [grades] object has one property per
    question, in the order of the questions. *)
Lemma grading_state_keys questions (grades : GradeTotals.object) :
  NoDup (map Question.id questions) →
  Forall (λ q, GradeTotals.array_index (Question.id q) = None) questions →
  GradeTotals.grading_state questions grades →
  grades.*1 = map Question.id questions.
Proof.
  intros Hnodup Hindex Hstate.
  assert (Hin : ∀ q, q ∈ questions →
                     Question.id q ∈ map Question.id questions).
  { intros q Hq. by apply list_elem_of_In, in_map, list_elem_of_In. }
  induction Hstate as [value|value grades _ IH|q v grades Hq _ IH].
  - unfold GradeTotals.initialGrades.
    rewrite assign_keys_fresh; [done|done|done|].
    intros q _ Hq'. by apply elem_of_nil in Hq'.
  - unfold GradeTotals.handleAutoGrade. rewrite assign_keys_present; [done|].
    intros q Hq. rewrite IH. by apply Hin.
  - unfold GradeTotals.handleGradeChange. rewrite set_keys_present; [done|].
    rewrite IH. by apply Hin.
Qed.

(** The values of an object, read through its keys. *)
Lemma values_get (o : GradeTotals.object) :
  NoDup o.*1 → o.*2 = map (λ k, GradeTotals.get k o) o.*1.
Proof.
  induction o as [|[k v] o IH]; intros Hnodup; [done|].
  rewrite !fmap_cons in *. cbn [fst snd map] in *.
  apply NoDup_cons in Hnodup as [Hnew Hnodup].
  f_equal.
  - unfold GradeTotals.get. cbn [List.find fst].
    by rewrite bool_decide_eq_true_2.
  - rewrite IH by done. apply map_ext_in. intros k' Hk'.
    unfold GradeTotals.get. cbn [List.find fst].
    rewrite bool_decide_eq_false_2; [done|].
    intros ->. by apply Hnew, list_elem_of_In.
Qed.

Lemma calculateTotalPoints_in_order questions (grades : GradeTotals.object) :
  NoDup (map Question.id questions) →
  Forall (λ q, GradeTotals.array_index (Question.id q) = None) questions →
  GradeTotals.grading_state questions grades →
  GradeTotals.calculateTotalPoints grades
  = foldl PrimFloat.add PrimFloat.zero
          (map (λ q, GradeTotals.get (Question.id q) grades) questions).
Proof.
  intros Hnodup Hindex Hstate.
  pose proof (grading_state_keys questions grades Hnodup Hindex Hstate) as Hkeys.
  unfold GradeTotals.calculateTotalPoints.
  rewrite values_get by by rewrite Hkeys.
  by rewrite Hkeys, map_map.
Qed.

End DoubleTotals.

(** C8 as stated does not hold of the percentage: the code computes
    [(total / max) * 100], which rounds twice, and not [100 * total / max].
    For one question of 20 points graded 11 the page computes
    55.00000000000001, where [100 * 11 / 20] is 55, in exact arithmetic and
    in that of the code alike. *)
Lemma C8_counterexample_percentage_is_rounded :
  ¬ (∀ (questions : list GradeExam.Question.t) (grades : GradeTotals.object),
       GradeTotals.grading_state questions grades →
       GradeTotals.gt (GradeTotals.calculateMaxPoints questions) PrimFloat.zero
       = true →
       GradeTotals.calculatePercentage questions grades
       = PrimFloat.div
           (PrimFloat.mul (GradeTotals.of_Z 100)
                          (GradeTotals.calculateTotalPoints grades))
           (GradeTotals.calculateMaxPoints questions)).
Proof.
  intros Hclaim.
  specialize (Hclaim [Examples.q_twenty]
                (GradeTotals.initialGrades (λ _, GradeTotals.of_Z 11)
                   [Examples.q_twenty])
                (GradeTotals.loaded _ _) eq_refl).
  vm_compute in Hclaim. discriminate Hclaim.
Qed.

(** C8 (amended). For every state of [grades] on the grading page, the
    question ids being distinct and no array indices (they are uuids), in
    the arithmetic of the code: [totalPoints] is the sum of the questions'
    grades, added in the order of the questions from 0; [maxPoints] is the
    sum of the questions' points, added likewise; the percentage is
    [(total / max) * 100] when [max > 0] and 0 otherwise, in particular for
    [max = 0]; the letter, in the grading summary and in the student's
    report alike, is A from 90, B from 80 to below 90, C from 70 to below
    80, D from 60 to below 70 and F otherwise, which is below 60 or [NaN];
    and a total of 7 out of 10 gives exactly 70 and the letter C. *)
Theorem C8_totals_percentage_and_letter
  (questions : list GradeExam.Question.t) (grades : GradeTotals.object)
  (Hids : NoDup (map GradeExam.Question.id questions))
  (Huuid : Forall (λ q, GradeTotals.array_index (GradeExam.Question.id q) = None)
                  questions)
  (Hstate : GradeTotals.grading_state questions grades) :
  let total := GradeTotals.calculateTotalPoints grades in
  let max := GradeTotals.calculateMaxPoints questions in
  let percentage := GradeTotals.calculatePercentage questions grades in
  total
  = foldl PrimFloat.add PrimFloat.zero
          (map (λ q, GradeTotals.get (GradeExam.Question.id q) grades) questions)
  ∧ max
    = foldl PrimFloat.add PrimFloat.zero
            (map (λ q, GradeTotals.of_Z (GradeExam.Question.points q)) questions)
  ∧ (GradeTotals.gt max PrimFloat.zero = true →
     percentage = PrimFloat.mul (PrimFloat.div total max) (GradeTotals.of_Z 100))
  ∧ (GradeTotals.gt max PrimFloat.zero = false → percentage = PrimFloat.zero)
  ∧ (max = PrimFloat.zero → percentage = PrimFloat.zero)
  ∧ (∀ p : GradeTotals.number,
       GradeTotals.getGradeLetter p = GradeTotals.summaryLetter p
       ∧ (GradeTotals.summaryLetter p = GradeExam.A
          ↔ GradeTotals.ge p (GradeTotals.of_Z 90) = true)
       ∧ (GradeTotals.summaryLetter p = GradeExam.B
          ↔ GradeTotals.ge p (GradeTotals.of_Z 80) = true
            ∧ GradeTotals.lt p (GradeTotals.of_Z 90) = true)
       ∧ (GradeTotals.summaryLetter p = GradeExam.C
          ↔ GradeTotals.ge p (GradeTotals.of_Z 70) = true
            ∧ GradeTotals.lt p (GradeTotals.of_Z 80) = true)
       ∧ (GradeTotals.summaryLetter p = GradeExam.D
          ↔ GradeTotals.ge p (GradeTotals.of_Z 60) = true
            ∧ GradeTotals.lt p (GradeTotals.of_Z 70) = true)
       ∧ (GradeTotals.summaryLetter p = GradeExam.F
          ↔ GradeTotals.ge p (GradeTotals.of_Z 60) = false))
  ∧ (total = GradeTotals.of_Z 7 → max = GradeTotals.of_Z 10 →
     percentage = GradeTotals.of_Z 70
     ∧ GradeTotals.summaryLetter percentage = GradeExam.C
     ∧ GradeTotals.getGradeLetter percentage = GradeExam.C).
Proof.
  intros total max percentage.
  split; [by apply calculateTotalPoints_in_order|].
  split.
  { subst max. unfold GradeTotals.calculateMaxPoints.
    change (map ?f questions) with (f <$> questions). by rewrite foldl_fmap. }
  split; [|split; [|split; [|split]]].
  - intros Hmax. subst percentage. unfold GradeTotals.calculatePercentage.
    fold max. by rewrite Hmax.
  - intros Hmax. subst percentage. unfold GradeTotals.calculatePercentage.
    fold max. by rewrite Hmax.
  - intros Hmax. subst percentage. unfold GradeTotals.calculatePercentage.
    fold max. by rewrite Hmax.
  - intros p. split; [done|]. apply summaryLetter_bands.
  - intros Htotal Hmax.
    assert (Hpct : percentage = GradeTotals.of_Z 70).
    { subst percentage. unfold GradeTotals.calculatePercentage.
      fold total max. by rewrite Htotal, Hmax. }
    rewrite Hpct. by repeat split.
Qed.

(** The totals statement at one ten-point question graded 7 on load. *)
Lemma C8_totals_witness :
  GradeTotals.calculatePercentage [Examples.q_ten]
    (GradeTotals.initialGrades (λ _, GradeTotals.of_Z 7) [Examples.q_ten])
  = GradeTotals.of_Z 70
  ∧ GradeTotals.summaryLetter
      (GradeTotals.calculatePercentage [Examples.q_ten]
         (GradeTotals.initialGrades (λ _, GradeTotals.of_Z 7) [Examples.q_ten]))
    = GradeExam.C.
Proof.
  assert (Hids : NoDup (map GradeExam.Question.id [Examples.q_ten])).
  { apply NoDup_cons. split; [by intros ?%elem_of_nil|apply NoDup_nil_2]. }
  assert (Huuid : Forall (λ q, GradeTotals.array_index (GradeExam.Question.id q)
                               = None) [Examples.q_ten]).
  { by constructor. }
  destruct (C8_totals_percentage_and_letter [Examples.q_ten]
              (GradeTotals.initialGrades (λ _, GradeTotals.of_Z 7)
                 [Examples.q_ten])
              Hids Huuid (GradeTotals.loaded _ _))
    as (_ & _ & _ & _ & _ & _ & Hex).
  destruct (Hex eq_refl eq_refl) as (Hpct & Hletter & _).
  by split.
Defined.

(** ** Manual grades *)

Section ManualGradeProps.
Import GradeExam.
Local Open Scope Qc_scope.

(** A finite value is clamped into [[0, points]]. *)
Lemma clamp_finite (v : Qc) (points : Z) :
  (0 ≤ points)%Z →
  ∃ x, Js.math_max (Js.of_Z 0)
         (Js.math_min (Js.Fin v) (Js.or_num (Js.of_Z points) (Js.of_Z 0)))
       = Js.Fin x
       ∧ Qc_of_Z 0 ≤ x ∧ x ≤ Qc_of_Z points.
Proof.
  intros Hpoints.
  assert (H0p : Qc_of_Z 0 ≤ Qc_of_Z points) by by apply (proj1 (Z2Qc_inj_le _ _)).
  assert (Hor : Js.or_num (Js.of_Z points) (Js.of_Z 0) = Js.of_Z points).
  { unfold Js.or_num, Js.truthy_num, Js.of_Z. case_bool_decide as Hz; [|done].
    simpl. by rewrite Hz, Z2Qc_inj_0. }
  rewrite Hor. unfold Js.math_max, Js.math_min, Js.of_Z.
  destruct (decide (v ≤ Qc_of_Z points)) as [Hle|Hgt].
  - destruct (decide (Qc_of_Z 0 ≤ v)) as [Hle0|Hgt0]; eauto.
  - destruct (decide (Qc_of_Z 0 ≤ Qc_of_Z points)); [|done]. eauto.
Qed.

Lemma handleGradeChange_finite questions q (v : Qc) (grades : gmap string Js.number) :
  List.find (λ q', bool_decide (Question.id q' = Question.id q)) questions = Some q →
  (0 ≤ Question.points q)%Z →
  ∃ x, handleGradeChange questions (Question.id q) (Js.Fin v) grades
         !! Question.id q = Some (Js.Fin x)
       ∧ Qc_of_Z 0 ≤ x ∧ x ≤ Qc_of_Z (Question.points q).
Proof.
  intros Hfind Hpoints. unfold handleGradeChange. rewrite Hfind.
  destruct (clamp_finite v (Question.points q) Hpoints) as (x & Hx & Hrange).
  exists x. by rewrite lookup_insert_eq, Hx.
Qed.

End ManualGradeProps.

(** C10, at the input that breaks it.  Clearing the points field of a
    question calls [handleGradeChange(id, parseFloat(''))], that is with
    [NaN]: the value stored is [NaN], not a number of [[0, points]], and the
    total and the percentage become [NaN] with it. *)
Theorem C10_nan_grade_is_stored_unclamped :
  let questions := [Examples.q_mcq; Examples.q_short] in
  let answers := [Examples.a_mcq; Examples.a_short] in
  let grades :=
    GradeExam.handleGradeChange questions "q2" Js.NaN
      (GradeExam.initialGrades questions answers) in
  grades !! "q2"%string = Some Js.NaN
  ∧ GradeExam.calculateTotalPoints grades = Js.NaN
  ∧ GradeExam.calculatePercentage questions grades = Js.NaN
  ∧ Js.ge (GradeExam.calculateTotalPoints grades) (Js.of_Z 0) = false.
Proof. vm_compute. done. Qed.

(** ** The session page: store lemmas *)

Section StoreProps.
Import Store.

Lemma session_by_id_update sid f db r :
  (∀ r', ExamSession.id (f r') = ExamSession.id r') →
  session_by_id sid db = Some r →
  session_by_id sid (update_session sid f db) = Some (f r).
Proof.
  intros Hid. unfold session_by_id, update_session. simpl.
  induction (exam_sessions db) as [|r' rows IH]; simpl; [done|].
  destruct (decide (ExamSession.id r' = sid)) as [Heq|Hne].
  - rewrite (bool_decide_eq_true_2 _ Heq). intros [= ->].
    by rewrite Hid, (bool_decide_eq_true_2 _ Heq).
  - rewrite !(bool_decide_eq_false_2 _ Hne). done.
Qed.

Lemma session_by_id_update_none sid f db :
  session_by_id sid db = None → update_session sid f db = db.
Proof.
  unfold session_by_id, update_session. destruct db as [rows tbl]. simpl.
  intros Hnone. f_equal.
  induction rows as [|r' rows IH]; simpl in *; [done|].
  destruct (bool_decide (ExamSession.id r' = sid)); [done|].
  by rewrite IH.
Qed.

Lemma set_locked_id st now r :
  ExamSession.id (set_locked st now r) = ExamSession.id r.
Proof. done. Qed.

Lemma set_locked_twice st1 t1 st2 t2 r :
  set_locked st2 t2 (set_locked st1 t1 r) = set_locked st2 t2 r.
Proof. done. Qed.

Lemma set_locked_consistent st now r :
  st ≠ in_progress → session_consistent (set_locked st now r).
Proof. intros Hst. unfold session_consistent. simpl. done. Qed.

Lemma new_session_consistent newId examId studentId now :
  session_consistent (new_session newId examId studentId now).
Proof. unfold session_consistent. simpl. split; [done|]. intros H. by destruct H. Qed.

Lemma set_warning_consistent count now r :
  session_consistent r → session_consistent (set_warning count now r).
Proof. done. Qed.

End StoreProps.

Section AutosaveProps.
Import Store TakeExam.
Variables (sid : string) (now : Z) (e : env).

Lemma answers_of_session_upsert qid text oid db q :
  answers_of_session sid (upsert_answer sid qid text oid now db) !! q
  = if decide (qid = q)
    then Some {| AnswerRow.answer_text := text;
                 AnswerRow.selected_option_id := oid;
                 AnswerRow.is_correct :=
                   answers_of_session sid db !! qid ≫= AnswerRow.is_correct;
                 AnswerRow.points_earned :=
                   answers_of_session sid db !! qid ≫= AnswerRow.points_earned;
                 AnswerRow.last_saved_at := now |}
    else answers_of_session sid db !! q.
Proof.
  unfold upsert_answer, answers_of_session at 1. simpl.
  rewrite lookup_insert_eq. simpl. apply lookup_insert.
Qed.

Lemma autosave_entry_sessions qid a acc :
  exam_sessions (fst (autosave_entry sid now e qid a acc))
  = exam_sessions (fst acc).
Proof.
  destruct acc as [db thrown]. unfold autosave_entry.
  destruct thrown; [done|]. by destruct (upsert_outcome e qid).
Qed.

(** The loop leaves [exam_sessions] alone. *)
Lemma autosave_fold_sessions (answers : gmap string Answer.t) db :
  exam_sessions (fst (map_fold (autosave_entry sid now e) (db, false) answers))
  = exam_sessions db.
Proof.
  apply (map_fold_weak_ind
           (λ acc (_ : gmap string Answer.t),
              exam_sessions (fst acc) = exam_sessions db)); [done|].
  intros qid a m acc _ IH. by rewrite autosave_entry_sessions.
Qed.


End AutosaveProps.

(** ** The session page: submitting *)

Section SubmitProps.
Import Store TakeExam.

Lemma autoSaveAnswers_session now e db c :
  session (snd (autoSaveAnswers now e db c)) = session c.
Proof.
  unfold autoSaveAnswers. destruct (session c) as [s|] eqn:Hs; [|done].
  destruct (map_fold _ _ _) as [db' thrown]. by destruct thrown.
Qed.

Lemma autoSaveAnswers_sessions now e db c :
  exam_sessions (fst (autoSaveAnswers now e db c)) = exam_sessions db.
Proof.
  unfold autoSaveAnswers. destruct (session c) as [s|] eqn:Hs; [|done].
  pose proof (autosave_fold_sessions (ExamSession.id s) now e (answers c) db) as H.
  destruct (map_fold _ _ _) as [db' thrown]. by destruct thrown.
Qed.

Lemma autoSaveAnswers_page now e db c :
  let c' := snd (autoSaveAnswers now e db c) in
  href c' = href c ∧ submitting c' = submitting c.
Proof.
  cbv zeta. unfold autoSaveAnswers.
  destruct (session c) as [s|] eqn:Hs; [|done].
  destruct (map_fold _ _ _) as [db' thrown]. by destruct thrown.
Qed.

Lemma session_by_id_sessions sid db db' :
  exam_sessions db' = exam_sessions db →
  session_by_id sid db' = session_by_id sid db.
Proof. unfold session_by_id. by intros ->. Qed.

(** One call of [submitExam] whose lock write succeeds. *)
Lemma submitExam_ok auto now e db c s r :
  session c = Some s →
  session_by_id (ExamSession.id s) db = Some r →
  lock_write e = WriteOk →
  let after := submitExam auto now e db c in
  session_by_id (ExamSession.id s) (fst after)
  = Some (set_locked (submit_status auto) now r)
  ∧ session (snd after) = Some s
  ∧ href (snd after) = Home.
Proof.
  intros Hs Hr Hw. unfold submitExam. rewrite Hs.
  pose proof (autoSaveAnswers_session now e db (setSubmitting true c)) as Hsess.
  pose proof (autoSaveAnswers_sessions now e db (setSubmitting true c)) as Hrows.
  destruct (autoSaveAnswers now e db (setSubmitting true c)) as [db' c'].
  simpl in *. rewrite Hw. simpl. split; [|by rewrite Hsess].
  apply session_by_id_update; [done|].
  by rewrite (session_by_id_sessions _ db db').
Qed.

(** One call of [submitExam] whose lock write does not succeed. *)
Lemma submitExam_failed auto now e db c s :
  session c = Some s →
  let after := submitExam auto now e db c in
  (lock_write e = WriteError →
   exam_sessions (fst after) = exam_sessions db
   ∧ href (snd after) = Home
   ∧ submitting (snd after) = true)
  ∧ (lock_write e = WriteThrows →
     exam_sessions (fst after) = exam_sessions db
     ∧ href (snd after) = href c
     ∧ submitting (snd after) = false).
Proof.
  intros Hs. unfold submitExam. rewrite Hs.
  pose proof (autoSaveAnswers_sessions now e db (setSubmitting true c)) as Hrows.
  pose proof (autoSaveAnswers_page now e db (setSubmitting true c)) as [Hhref Hsub].
  destruct (autoSaveAnswers now e db (setSubmitting true c)) as [db' c'].
  simpl in *. split; intros ->; simpl; done.
Qed.

End SubmitProps.

(** C1 as stated does not hold: a manual submit at instant 2000 followed by
    a forced submit at instant 3000 leaves the row with another status and
    another [submitted_at] than the first call wrote. *)
Lemma C1_counterexample_second_submit_rewrites :
  ¬ (∀ (e : TakeExam.env) (db : Store.t) (c : TakeExam.component)
       (s : Store.ExamSession.t) (auto1 auto2 : bool) (t1 t2 : Z),
       TakeExam.session c = Some s →
       TakeExam.lock_write e = Store.WriteOk →
       let first := TakeExam.submitExam auto1 t1 e db c in
       let second := TakeExam.submitExam auto2 t2 e (fst first) (snd first) in
       Store.session_by_id (Store.ExamSession.id s) (fst second)
       = Store.session_by_id (Store.ExamSession.id s) (fst first)).
Proof.
  intros Hclaim.
  specialize (Hclaim Examples.env_ok Examples.db1 Examples.page1
                Examples.session1 false true 2000 3000 eq_refl eq_refl).
  vm_compute in Hclaim. discriminate Hclaim.
Qed.

(** C1 (amended). With lock writes that succeed, after a first submit
    (manual or forced) the session row is locked, has [submitted_at] set to
    the instant of the call and the status of that call; a second submit
    keeps the row locked with [submitted_at] set, but writes it again: the
    row takes the status and the instant of the second call, and it is
    unchanged exactly when both calls have the same kind and instant.  The
    other columns keep their values.  [handleMaxWarnings], which writes the
    lock and then calls [submitExam(true)], ends the same way. *)
Theorem C1_submit_twice_stays_locked
  (e : TakeExam.env) (db : Store.t) (c : TakeExam.component)
  (s r : Store.ExamSession.t) (auto1 auto2 : bool) (t1 t2 t3 : Z)
  (Hs : TakeExam.session c = Some s)
  (Hr : Store.session_by_id (Store.ExamSession.id s) db = Some r)
  (Hlock : TakeExam.lock_write e = Store.WriteOk)
  (Hmax : TakeExam.max_warnings_write e = Store.WriteOk) :
  let first := TakeExam.submitExam auto1 t1 e db c in
  let second := TakeExam.submitExam auto2 t2 e (fst first) (snd first) in
  let r1 := Store.set_locked (TakeExam.submit_status auto1) t1 r in
  let r2 := Store.set_locked (TakeExam.submit_status auto2) t2 r in
  Store.session_by_id (Store.ExamSession.id s) (fst first) = Some r1
  ∧ Store.session_by_id (Store.ExamSession.id s) (fst second) = Some r2
  ∧ Store.ExamSession.is_locked r1 = true
  ∧ Store.ExamSession.submitted_at r1 = Some t1
  ∧ Store.ExamSession.status r1 = TakeExam.submit_status auto1
  ∧ Store.ExamSession.is_locked r2 = true
  ∧ Store.ExamSession.submitted_at r2 = Some t2
  ∧ Store.ExamSession.status r2 = TakeExam.submit_status auto2
  ∧ Store.ExamSession.started_at r2 = Store.ExamSession.started_at r
  ∧ Store.ExamSession.warning_count r2 = Store.ExamSession.warning_count r
  ∧ (r2 = r1 ↔ auto1 = auto2 ∧ t1 = t2)
  ∧ Store.session_by_id (Store.ExamSession.id s)
      (fst (TakeExam.handleMaxWarnings t2 t3 e db c))
    = Some (Store.set_locked Store.auto_submitted t3 r).
Proof.
  intros first second r1 r2.
  destruct (submitExam_ok auto1 t1 e db c s r Hs Hr Hlock) as (Hfirst & Hs1 & _).
  fold first in Hfirst, Hs1.
  destruct (submitExam_ok auto2 t2 e (fst first) (snd first) s r1 Hs1 Hfirst Hlock)
    as (Hsecond & _ & _).
  fold second in Hsecond.
  split; [done|]. split; [done|]. repeat (split; [done|]).
  split.
  - split.
    + intros Heq. injection Heq as Hst Ht. split; [|done].
      by destruct auto1, auto2.
    + by intros [-> ->].
  - unfold TakeExam.handleMaxWarnings. rewrite Hs, Hmax.
    apply (submitExam_ok true t3 e _ c s
             (Store.set_locked Store.auto_submitted t2 r) Hs); [|done].
    by apply session_by_id_update.
Qed.

(** The submit statement at a manual submit followed by a forced one. *)
Lemma C1_submit_twice_witness :
  Store.session_by_id "s1"
    (fst (TakeExam.submitExam true 3000 Examples.env_ok
            (fst (TakeExam.submitExam false 2000 Examples.env_ok
                    Examples.db1 Examples.page1))
            (snd (TakeExam.submitExam false 2000 Examples.env_ok
                    Examples.db1 Examples.page1))))
  = Some (Store.set_locked Store.auto_submitted 3000 Examples.session1).
Proof.
  destruct (C1_submit_twice_stays_locked Examples.env_ok Examples.db1
              Examples.page1 Examples.session1 Examples.session1
              false true 2000 3000 4000 eq_refl eq_refl eq_refl eq_refl)
    as (_ & Hsecond & _).
  exact Hsecond.
Defined.

(** C5, at the input that breaks it.  When the lock write of [submitExam]
    resolves with an error, the row stays [in_progress] and unlocked, yet
    the page is sent to ['/'] with the submit action still disabled and
    nothing logged; when the write's promise rejects, the page stays and the
    submit action is re-enabled, and the only trace is one [console.error]. *)
Theorem C5_failed_lock_write_navigates_away :
  let returned :=
    TakeExam.submitExam false 2000 (Examples.env_lock Store.WriteError)
      Examples.db1 Examples.page1 in
  let thrown :=
    TakeExam.submitExam false 2000 (Examples.env_lock Store.WriteThrows)
      Examples.db1 Examples.page1 in
  (Store.session_by_id "s1" (fst returned) = Some Examples.session1
   ∧ Store.ExamSession.status Examples.session1 = Store.in_progress
   ∧ Store.ExamSession.is_locked Examples.session1 = false
   ∧ TakeExam.href (snd returned) = TakeExam.Home
   ∧ TakeExam.submitting (snd returned) = true
   ∧ TakeExam.console_errors (snd returned) = 0%nat)
  ∧ (Store.session_by_id "s1" (fst thrown) = Some Examples.session1
     ∧ TakeExam.href (snd thrown) = TakeExam.ExamPage
     ∧ TakeExam.submitting (snd thrown) = false
     ∧ TakeExam.console_errors (snd thrown) = 1%nat).
Proof. vm_compute. repeat split. Qed.

(** ** The session page: entering an exam *)

Section LoadProps.
Import Store TakeExam.

Lemma find_session_insert examId studentId r db :
  find_session examId studentId db = None →
  ExamSession.exam_id r = examId → ExamSession.student_id r = studentId →
  find_session examId studentId (insert_session r db) = Some r.
Proof.
  unfold find_session, insert_session. simpl. intros Hnone He Hu.
  induction (exam_sessions db) as [|r' rows IH]; simpl in *.
  - by rewrite !bool_decide_eq_true_2.
  - destruct (_ && _); [done|]. by apply IH.
Qed.

(** Every write of the page keeps the rows consistent. *)
Lemma update_session_consistent sid f db :
  (∀ r, session_consistent r → session_consistent (f r)) →
  Forall session_consistent (exam_sessions db) →
  Forall session_consistent (exam_sessions (update_session sid f db)).
Proof.
  intros Hf. unfold update_session. simpl.
  induction 1 as [|r rows Hr Hrows IH]; simpl; constructor; [|done].
  destruct (bool_decide _); auto.
Qed.

Lemma loadExam_consistent examId studentId now e db c :
  Forall session_consistent (exam_sessions db) →
  Forall session_consistent
    (exam_sessions (fst (loadExam examId studentId now e db c))).
Proof.
  intros Hdb. unfold loadExam.
  destruct (exam_query e); [|done].
  destruct (find_session examId studentId db) as [r|].
  - destruct (_ || _); [done|].
    destruct (questions_query e); done.
  - destruct (insert_session_ok e); [|done].
    assert (Forall session_consistent
              (exam_sessions (insert_session
                 (new_session (fresh_session_id e) examId studentId now) db))).
    { unfold insert_session. simpl. apply Forall_app. split; [done|].
      constructor; [apply new_session_consistent|constructor]. }
    destruct (questions_query e); done.
Qed.

Lemma submitExam_consistent auto now e db c :
  Forall session_consistent (exam_sessions db) →
  Forall session_consistent (exam_sessions (fst (submitExam auto now e db c))).
Proof.
  intros Hdb. unfold submitExam. destruct (session c) as [s|]; [|done].
  pose proof (autoSaveAnswers_sessions now e db (setSubmitting true c)) as Hrows.
  destruct (autoSaveAnswers now e db (setSubmitting true c)) as [db' c'].
  simpl in *. rewrite <-Hrows in Hdb.
  destruct (lock_write e); simpl; try done.
  apply update_session_consistent; [|done].
  intros r _. apply set_locked_consistent. by destruct auto.
Qed.

Lemma handleMaxWarnings_consistent now1 now2 e db c :
  Forall session_consistent (exam_sessions db) →
  Forall session_consistent
    (exam_sessions (fst (handleMaxWarnings now1 now2 e db c))).
Proof.
  intros Hdb. unfold handleMaxWarnings. destruct (session c) as [s|]; [|done].
  destruct (max_warnings_write e); [| |done].
  - apply submitExam_consistent, update_session_consistent; [|done].
    intros r _. by apply set_locked_consistent.
  - by apply submitExam_consistent.
Qed.

Lemma handleWarning_consistent count now w db c :
  Forall session_consistent (exam_sessions db) →
  Forall session_consistent (exam_sessions (handleWarning count now w db c)).
Proof.
  intros Hdb. unfold handleWarning. destruct (session c) as [s|]; [|done].
  destruct w; try done. apply update_session_consistent; [|done].
  intros r. apply set_warning_consistent.
Qed.

(** The threshold the page hands to the detector is at least one. *)
Lemma antiCheat_maxWarnings_positive c :
  (∀ ex, exam c = Some ex → 0 ≤ Exam.max_warnings ex) →
  1 ≤ antiCheat_maxWarnings c.
Proof.
  intros Hcheck. unfold antiCheat_maxWarnings.
  destruct (exam c) as [ex|]; [|lia]. specialize (Hcheck ex eq_refl).
  destruct (Z.eqb_spec (Exam.max_warnings ex) 0); lia.
Qed.

End LoadProps.

(** C4. On entering an exam whose row loads, for the (exam, student) pair:
    a session found locked, or with status [submitted] or
    [auto_submitted], sends the student to ['/'] and is not taken as the
    page's session; with rows that are locked exactly when their status has
    left [in_progress], every session found in a terminal status is turned
    away in that way, and a session found [in_progress] becomes the page's
    session as it is stored, [started_at] included, with nothing written;
    when no session is found and the insert succeeds, the new row has status
    [in_progress], [started_at = now], is unlocked, is the page's session
    and is the one found from then on. *)
Theorem C4_create_or_resume
  (examId studentId : string) (now : Z) (e : TakeExam.env)
  (db : Store.t) (c : TakeExam.component) (examData : TakeExam.Exam.t)
  (Hexam : TakeExam.exam_query e = Some examData) :
  let after := TakeExam.loadExam examId studentId now e db c in
  (∀ r, Store.find_session examId studentId db = Some r →
        (Store.ExamSession.is_locked r = true
         ∨ Store.ExamSession.status r = Store.submitted
         ∨ Store.ExamSession.status r = Store.auto_submitted) →
        fst after = db
        ∧ TakeExam.href (snd after) = TakeExam.Home
        ∧ TakeExam.session (snd after) = TakeExam.session c)
  ∧ (∀ r, Store.find_session examId studentId db = Some r →
          Store.session_consistent r →
          Store.ExamSession.status r ≠ Store.in_progress →
          fst after = db
          ∧ TakeExam.href (snd after) = TakeExam.Home
          ∧ TakeExam.session (snd after) = TakeExam.session c)
  ∧ (∀ r, Store.find_session examId studentId db = Some r →
          Store.session_consistent r →
          Store.ExamSession.status r = Store.in_progress →
          fst after = db
          ∧ TakeExam.session (snd after) = Some r
          ∧ TakeExam.href (snd after) = TakeExam.href c)
  ∧ (Store.find_session examId studentId db = None →
     TakeExam.insert_session_ok e = true →
     ∃ r, TakeExam.session (snd after) = Some r
          ∧ Store.find_session examId studentId (fst after) = Some r
          ∧ Store.exam_sessions (fst after) = Store.exam_sessions db ++ [r]
          ∧ Store.ExamSession.status r = Store.in_progress
          ∧ Store.ExamSession.started_at r = now
          ∧ Store.ExamSession.is_locked r = false
          ∧ Store.ExamSession.submitted_at r = None
          ∧ TakeExam.href (snd after) = TakeExam.href c).
Proof.
  intros after. subst after. unfold TakeExam.loadExam. rewrite Hexam.
  assert (Hturned : ∀ r,
    Store.find_session examId studentId db = Some r →
    Store.ExamSession.is_locked r
    || bool_decide (Store.ExamSession.status r = Store.submitted)
    || bool_decide (Store.ExamSession.status r = Store.auto_submitted) = true →
    fst (TakeExam.loadExam examId studentId now e db c) = db
    ∧ TakeExam.href (snd (TakeExam.loadExam examId studentId now e db c))
      = TakeExam.Home
    ∧ TakeExam.session (snd (TakeExam.loadExam examId studentId now e db c))
      = TakeExam.session c).
  { intros r Hfind Hguard. unfold TakeExam.loadExam.
    by rewrite Hexam, Hfind, Hguard. }
  unfold TakeExam.loadExam in Hturned. rewrite Hexam in Hturned.
  split; [|split; [|split]].
  - intros r Hfind Hlocked. apply (Hturned r Hfind).
    destruct Hlocked as [-> | [-> | ->]]; [done| |].
    + by rewrite orb_true_r.
    + by rewrite orb_true_r.
  - intros r Hfind Hcons Hterminal. apply (Hturned r Hfind).
    apply Hcons in Hterminal. by rewrite Hterminal.
  - intros r Hfind Hcons Hprogress. rewrite Hfind.
    assert (Store.ExamSession.is_locked r = false) as ->.
    { destruct (Store.ExamSession.is_locked r) eqn:Hl; [|done].
      by apply Hcons in Hl. }
    rewrite Hprogress. simpl.
    destruct (TakeExam.questions_query e); simpl; [|done].
    by destruct (TakeExam.answers_query_ok e).
  - intros Hfind Hinsert. rewrite Hfind, Hinsert.
    exists (Store.new_session (TakeExam.fresh_session_id e) examId studentId now).
    assert (Hfound :
      Store.find_session examId studentId
        (Store.insert_session
           (Store.new_session (TakeExam.fresh_session_id e) examId studentId now) db)
      = Some (Store.new_session (TakeExam.fresh_session_id e) examId studentId now))
      by by apply find_session_insert.
    destruct (TakeExam.questions_query e); simpl; [|done].
    by destruct (TakeExam.answers_query_ok e).
Qed.

(** The entry statement at a first visit: a session is created at the
    instant of the visit. *)
Lemma C4_create_or_resume_witness :
  ∃ r, TakeExam.session
         (snd (TakeExam.loadExam "e1" "u2" 7000 Examples.env_ok Examples.db1
                 TakeExam.mounted)) = Some r
       ∧ Store.ExamSession.status r = Store.in_progress
       ∧ Store.ExamSession.started_at r = 7000.
Proof.
  destruct (C4_create_or_resume "e1" "u2" 7000 Examples.env_ok Examples.db1
              TakeExam.mounted Examples.exam1 eq_refl) as (_ & _ & _ & Hnew).
  destruct (Hnew eq_refl eq_refl) as (r & Hsession & _ & _ & Hstatus & Hstart & _).
  by exists r.
Defined.

(** ** The session page: autosave and reload *)

Section RoundTripProps.
Import Store TakeExam.






End RoundTripProps.




(* ===================================================================== *)
(** * Part III. Further properties of the same sources                    *)
(* ===================================================================== *)

(** ** The displayed time *)

Section TimerDisplayProps.
Import TimerDisplay.

Lemma padStart2_below_100 (n : Z) :
  0 ≤ n < 100 → String.length (padStart2 (pretty n)) = 2%nat.
Proof.
  intros Hn.
  assert (Hall : forallb (λ k, Nat.eqb (String.length (padStart2 (pretty (Z.of_nat k)))) 2)
                         (seq 0 100) = true) by (vm_compute; reflexivity).
  rewrite forallb_forall in Hall.
  specialize (Hall (Z.to_nat n)). rewrite Z2Nat.id in Hall by lia.
  apply Nat.eqb_eq, Hall, in_seq. lia.
Qed.

Lemma formatTime_fields (seconds : Z) :
  0 ≤ seconds →
  let hours := seconds / 3600 in
  let minutes := Z.rem seconds 3600 / 60 in
  let secs := Z.rem seconds 60 in
  seconds = hours * 3600 + minutes * 60 + secs
  ∧ 0 ≤ hours ∧ 0 ≤ minutes < 60 ∧ 0 ≤ secs < 60.
Proof.
  intros Hs. cbv zeta. rewrite !Z.rem_mod_nonneg by lia.
  Z.div_mod_to_equations. lia.
Qed.

End TimerDisplayProps.

(** X1. For a remaining time of [seconds >= 0], [formatTime] writes the
    hours, minutes and seconds that add up to it: minutes and seconds are
    below 60 and always written on two characters (the minutes only behind
    an hour field), and the hour field is there exactly from 3600 seconds
    on. *)
Theorem X1_formatTime_decodes (seconds : Z) (Hs : 0 ≤ seconds) :
  ∃ h m s : Z,
    seconds = h * 3600 + m * 60 + s
    ∧ 0 ≤ h ∧ 0 ≤ m < 60 ∧ 0 ≤ s < 60
    ∧ String.length (TimerDisplay.padStart2 (pretty m)) = 2%nat
    ∧ String.length (TimerDisplay.padStart2 (pretty s)) = 2%nat
    ∧ (3600 ≤ seconds →
       TimerDisplay.formatTime seconds
       = pretty h +:+ ":" +:+ TimerDisplay.padStart2 (pretty m) +:+ ":"
           +:+ TimerDisplay.padStart2 (pretty s))
    ∧ (seconds < 3600 →
       h = 0 ∧ TimerDisplay.formatTime seconds
               = pretty m +:+ ":" +:+ TimerDisplay.padStart2 (pretty s)).
Proof.
  destruct (formatTime_fields seconds Hs) as (Hsum & Hh & Hm & Hsec).
  exists (seconds / 3600), (Z.rem seconds 3600 / 60), (Z.rem seconds 60).
  split; [done|]. split; [done|]. split; [done|]. split; [done|].
  split; [apply padStart2_below_100; lia|].
  split; [apply padStart2_below_100; lia|].
  unfold TimerDisplay.formatTime. split.
  - intros Hge. assert (0 < seconds / 3600) by (apply Z.div_str_pos; lia).
    by replace (0 <? seconds / 3600) with true by (symmetry; by apply Z.ltb_lt).
  - intros Hlt. assert (seconds / 3600 = 0) as -> by (apply Z.div_small; lia).
    done.
Qed.

(** The display statement at one hour, two minutes and five seconds. *)
Lemma X1_formatTime_witness :
  ∃ h m s : Z,
    3725 = h * 3600 + m * 60 + s
    ∧ 0 ≤ h ∧ 0 ≤ m < 60 ∧ 0 ≤ s < 60.
Proof.
  destruct (X1_formatTime_decodes 3725 ltac:(lia))
    as (h & m & s & Hsum & Hh & Hm & Hsec & _).
  by exists h, m, s.
Defined.

(** ** The timer under changing arguments *)

Section TimerArgsProps.
Import TimerDisplay.

Lemma step_called e s a :
  let r := step e (s, a) in
  (Timer.hasCalledTimeUp s = true →
   Timer.hasCalledTimeUp (fst (fst r)) = true ∧ snd r = false)
  ∧ (snd r = true → Timer.hasCalledTimeUp (fst (fst r)) = true).
Proof.
  destruct e as [a' now|now]; simpl; [done|].
  destruct (Timer.intervalActive s); [|done].
  unfold Timer.interval_callback.
  destruct (_ <=? 0), (Timer.hasCalledTimeUp s); simpl; done.
Qed.

Lemma run_after_called es s a :
  Timer.hasCalledTimeUp s = true →
  run es (s, a) = replicate (length es) false.
Proof.
  revert s a. induction es as [|e es IH]; intros s a Hs; [done|].
  cbn [run length replicate].
  destruct (step_called e s a) as [Hkeep _]. destruct (Hkeep Hs) as [Hs' Hf].
  destruct (step e (s, a)) as [[s' a'] fired]. cbn [fst snd] in *. subst fired.
  f_equal. by apply IH.
Qed.

Lemma run_at_most_once es s a :
  (length (filter (λ b, b = true) (run es (s, a))) ≤ 1)%nat.
Proof.
  revert s a. induction es as [|e es IH]; intros s a; [simpl; lia|].
  cbn [run].
  destruct (step_called e s a) as [_ Hfired].
  destruct (step e (s, a)) as [[s' a'] fired]. cbn [fst snd] in *.
  destruct fired.
  - rewrite filter_cons_True by done. simpl.
    rewrite run_after_called by auto.
    assert (filter (λ b, b = true) (replicate (length es) false) = []) as ->.
    { induction (length es) as [|n IHn]; simpl; [done|].
      by rewrite filter_cons_False. }
    simpl. lia.
  - rewrite filter_cons_False by done. apply IH.
Qed.

End TimerArgsProps.

(** X2. Whatever the arguments of the successive renders, [onTimeUp] is
    called at most once over the life of the hook, because nothing resets
    the [hasCalledTimeUp] ref.  In particular, on the exam page, where the
    duration passed is 0 until the exam is loaded, a tick that comes before
    the load calls [onTimeUp], and no later tick calls it again, whatever
    start and duration the later renders pass. *)
Theorem X2_onTimeUp_once_across_renders :
  (∀ es s a,
     (length (filter (λ b, b = true) (TimerDisplay.run es (s, a))) ≤ 1)%nat)
  ∧ (∀ (mounted_at now : Z) (a0 : TimerDisplay.args) es,
       mounted_at ≤ now →
       TimerDisplay.run
         (TimerDisplay.Effect
            (TimerDisplay.page_args TakeExam.mounted mounted_at) mounted_at
          :: TimerDisplay.Tick now :: es)
         (Timer.initial, a0)
       = false :: true :: replicate (length es) false).
Proof.
  split; [apply run_at_most_once|].
  intros mounted_at now a0 es Hnow.
  assert (Timer.calculateTimeRemaining mounted_at 0 now = 0) as Hzero.
  { unfold Timer.calculateTimeRemaining. by rewrite Z.max_l by lia. }
  cbn [TimerDisplay.run TimerDisplay.step fst snd
       TimerDisplay.page_args TakeExam.session TakeExam.mounted
       TakeExam.timer_durationMinutes TakeExam.exam
       TimerDisplay.startedAt TimerDisplay.durationMinutes
       Timer.run_effect Timer.intervalActive].
  unfold Timer.interval_callback. rewrite Hzero.
  cbn [Z.leb Z.compare andb negb Timer.hasCalledTimeUp Timer.initial fst snd].
  do 2 f_equal. by apply run_after_called.
Qed.

(** The statement at a page mounted at instant 1000 whose first tick comes
    before the exam is loaded: the tick at the real end of the exam stays
    silent. *)
Lemma X2_onTimeUp_once_witness :
  TimerDisplay.run
    [TimerDisplay.Effect (TimerDisplay.page_args TakeExam.mounted 1000) 1000;
     TimerDisplay.Tick 2000;
     TimerDisplay.Effect
       (TimerDisplay.page_args Examples.page1 2500) 2500;
     TimerDisplay.Tick 3601000]
    (Timer.initial, TimerDisplay.page_args TakeExam.mounted 1000)
  = [false; true; false; false].
Proof.
  destruct X2_onTimeUp_once_across_renders as [_ Hpage].
  apply (Hpage 1000 2000 _ [_; _]). lia.
Defined.

(** ** The cheat detector: callbacks, and the detector switched off *)

Section AntiCheatCallbacks.
Import AntiCheat.
Variable maxWarnings : Z.

Lemma disabled_step e s :
  let r := AntiCheat.step false maxWarnings e s in
  snd r = []
  ∧ warningCount (fst r) = warningCount s
  ∧ showWarningModal (fst r) = showWarningModal s
  ∧ hasReachedMaxWarnings (fst r) = hasReachedMaxWarnings s.
Proof. by destruct e. Qed.

Lemma disabled_trace es s :
  Forall (λ r, snd r = []) (AntiCheat.trace false maxWarnings es s)
  ∧ warningCount (AntiCheat.final false maxWarnings es s) = warningCount s
  ∧ showWarningModal (AntiCheat.final false maxWarnings es s) = showWarningModal s
  ∧ hasReachedMaxWarnings (AntiCheat.final false maxWarnings es s)
    = hasReachedMaxWarnings s.
Proof.
  revert s. induction es as [|e es IH]; intros s.
  { simpl. by repeat split. }
  destruct (disabled_step e s) as (Hcb & Hc & Hm & Hr).
  destruct (IH (fst (AntiCheat.step false maxWarnings e s))) as (IH1 & IH2 & IH3 & IH4).
  cbn [AntiCheat.trace AntiCheat.final]. cbv zeta in *.
  split; [by constructor|]. by rewrite IH2, IH3, IH4.
Qed.

Lemma disabled_max_calls es s :
  AntiCheat.max_calls (AntiCheat.trace false maxWarnings es s) = 0%nat.
Proof.
  destruct (disabled_trace es s) as (Hcbs & _). unfold AntiCheat.max_calls.
  induction Hcbs as [|r tr Hr Htr IH]; [done|].
  rewrite filter_cons_False; [done|]. by rewrite Hr.
Qed.

(** The callbacks of one event of the enabled detector, from a state that
    satisfies the invariant and whose handlers hold a count that is not
    negative. *)
Lemma step_callbacks e s :
  AntiCheat.invariant maxWarnings s → 0 ≤ closureCount s →
  let r := AntiCheat.step true maxWarnings e s in
  0 ≤ closureCount (fst r)
  ∧ (snd r = []
     ∨ (snd r = [OnWarning (warningCount (fst r))]
        ∧ 1 ≤ warningCount (fst r) < maxWarnings)
     ∨ (snd r = [OnWarning maxWarnings; OnMaxWarningsReached]
        ∧ warningCount (fst r) = maxWarnings ∧ 1 ≤ maxWarnings)).
Proof.
  intros (Hlag & Hunset & Hset) Hnonneg.
  destruct e as [[|]| |]; simpl;
    unfold handleVisibilityChange, handleBlur, count_warning; simpl;
    destruct (hasReachedMaxWarnings s) eqn:Href; simpl;
    try destruct (closureCount s + 1 >=? maxWarnings) eqn:Hge; simpl;
    try (specialize (Hunset eq_refl)); try (specialize (Hset eq_refl));
    (split; [lia|]); auto.
  all: try (right; left; split; [done|lia]).
  all: right; right; assert (closureCount s + 1 = maxWarnings) as -> by lia;
    split; [done|lia].
Qed.

Lemma trace_callbacks es s r :
  AntiCheat.invariant maxWarnings s → 0 ≤ closureCount s →
  r ∈ AntiCheat.trace true maxWarnings es s →
  snd r = []
  ∨ (snd r = [OnWarning (warningCount (fst r))]
     ∧ 1 ≤ warningCount (fst r) < maxWarnings)
  ∨ (snd r = [OnWarning maxWarnings; OnMaxWarningsReached]
     ∧ warningCount (fst r) = maxWarnings ∧ 1 ≤ maxWarnings).
Proof.
  revert s. induction es as [|e es IH]; intros s Hinv Hnonneg Hr.
  { by apply elem_of_nil in Hr. }
  cbn [AntiCheat.trace] in Hr. cbv zeta in Hr.
  destruct (step_callbacks e s Hinv Hnonneg) as [Hnn Hcbs].
  apply elem_of_cons in Hr as [->|Hr]; [done|].
  apply (IH (fst (AntiCheat.step true maxWarnings e s))); [|done|done].
  by apply step_spec.
Qed.

End AntiCheatCallbacks.

(** X3. A detector that is not enabled does nothing: over every sequence
    of events no callback is made, and the warning count, the modal flag
    and the ref stay as they were. *)
Theorem X3_disabled_detector_is_inert
  (maxWarnings : Z) (es : list AntiCheat.event) (s : AntiCheat.state) :
  Forall (λ r, snd r = []) (AntiCheat.trace false maxWarnings es s)
  ∧ AntiCheat.max_calls (AntiCheat.trace false maxWarnings es s) = 0%nat
  ∧ AntiCheat.warningCount (AntiCheat.final false maxWarnings es s)
    = AntiCheat.warningCount s
  ∧ AntiCheat.showWarningModal (AntiCheat.final false maxWarnings es s)
    = AntiCheat.showWarningModal s
  ∧ AntiCheat.hasReachedMaxWarnings (AntiCheat.final false maxWarnings es s)
    = AntiCheat.hasReachedMaxWarnings s.
Proof.
  destruct (disabled_trace maxWarnings es s) as (Hcbs & Hrest).
  split; [done|]. split; [|done]. apply disabled_max_calls.
Qed.

(** X4. For the enabled detector with a threshold of at least one, every
    event makes no callback, or [onWarning(n)] alone with [n] the new count
    and [1 <= n < maxWarnings], or [onWarning(maxWarnings)] followed by
    [onMaxWarningsReached]: the count handed to [onWarning] is never above
    the threshold, and the lockout callback never comes without the
    warning that reached it. *)
Theorem X4_onWarning_counts_bounded
  (maxWarnings : Z) (Hmax : 1 ≤ maxWarnings)
  (es : list AntiCheat.event) (r : AntiCheat.state * list AntiCheat.callback)
  (Hr : r ∈ AntiCheat.trace true maxWarnings es AntiCheat.initial) :
  snd r = []
  ∨ (snd r = [AntiCheat.OnWarning (AntiCheat.warningCount (fst r))]
     ∧ 1 ≤ AntiCheat.warningCount (fst r) < maxWarnings)
  ∨ (snd r = [AntiCheat.OnWarning maxWarnings; AntiCheat.OnMaxWarningsReached]
     ∧ AntiCheat.warningCount (fst r) = maxWarnings).
Proof.
  destruct (trace_callbacks maxWarnings es AntiCheat.initial r) as [H|[H|H]];
    [by apply invariant_initial|done|done| | |]; auto.
  right; right. by destruct H as (? & ? & _).
Qed.

(** The callback statement at threshold 2: the second blur reports 2 and
    locks. *)
Lemma X4_onWarning_witness :
  let r := (AntiCheat.final true 2
              [AntiCheat.Blur; AntiCheat.Render; AntiCheat.Blur] AntiCheat.initial,
            [AntiCheat.OnWarning 2; AntiCheat.OnMaxWarningsReached]) in
  snd r = []
  ∨ (snd r = [AntiCheat.OnWarning (AntiCheat.warningCount (fst r))]
     ∧ 1 ≤ AntiCheat.warningCount (fst r) < 2)
  ∨ (snd r = [AntiCheat.OnWarning 2; AntiCheat.OnMaxWarningsReached]
     ∧ AntiCheat.warningCount (fst r) = 2).
Proof.
  apply (X4_onWarning_counts_bounded 2 ltac:(lia)
           [AntiCheat.Blur; AntiCheat.Render; AntiCheat.Blur]).
  vm_compute. do 2 apply list_elem_of_further. apply list_elem_of_here.
Defined.

(** X5. On the exam page, whose stored [max_warnings] is not negative, the
    threshold handed to the detector is the stored one, or 2 when the stored
    one is 0; with it, over every sequence of events, the lockout callback
    is made at most once and the warning count never passes the threshold. *)
Theorem X5_page_detector
  (c : TakeExam.component) (ex : TakeExam.Exam.t)
  (Hexam : TakeExam.exam c = Some ex)
  (Hcheck : 0 ≤ TakeExam.Exam.max_warnings ex)
  (es : list AntiCheat.event) :
  let threshold := TakeExam.antiCheat_maxWarnings c in
  let enabled := TakeExam.antiCheat_enabled c in
  (TakeExam.Exam.max_warnings ex = 0 → threshold = 2)
  ∧ (0 < TakeExam.Exam.max_warnings ex →
     threshold = TakeExam.Exam.max_warnings ex)
  ∧ (AntiCheat.max_calls (AntiCheat.trace enabled threshold es AntiCheat.initial)
     ≤ 1)%nat
  ∧ AntiCheat.warningCount (AntiCheat.final enabled threshold es AntiCheat.initial)
    ≤ threshold.
Proof.
  intros threshold enabled.
  assert (Hpos : 1 ≤ threshold).
  { apply antiCheat_maxWarnings_positive. intros ex' Hex'. congruence. }
  subst threshold enabled.
  unfold TakeExam.antiCheat_maxWarnings, TakeExam.antiCheat_enabled in *.
  rewrite Hexam in *.
  split; [by intros ->|]. split.
  { intros Hgt. destruct (Z.eqb_spec (TakeExam.Exam.max_warnings ex) 0); [lia|done]. }
  set (threshold := if TakeExam.Exam.max_warnings ex =? 0 then 2
                    else TakeExam.Exam.max_warnings ex) in *.
  destruct (TakeExam.Exam.anti_cheat_enabled ex).
  - pose proof (invariant_initial threshold Hpos) as H0.
    split.
    + rewrite (max_calls_trace threshold es AntiCheat.initial H0).
      case_bool_decide; lia.
    + destruct (final_invariant threshold es _ H0) as (_ & Hunset & Hset).
      destruct (AntiCheat.hasReachedMaxWarnings _);
        [specialize (Hset eq_refl)|specialize (Hunset eq_refl)]; lia.
  - destruct (disabled_trace threshold es AntiCheat.initial)
      as (_ & Hcount & _).
    rewrite disabled_max_calls, Hcount. simpl. lia.
Qed.

(** The page statement at an exam stored with [max_warnings = 0]. *)
Lemma X5_page_detector_witness :
  TakeExam.antiCheat_maxWarnings
    (TakeExam.setExam
       {| TakeExam.Exam.id := "e0"; TakeExam.Exam.title := "";
          TakeExam.Exam.duration_minutes := 30;
          TakeExam.Exam.anti_cheat_enabled := true;
          TakeExam.Exam.max_warnings := 0 |} TakeExam.mounted) = 2.
Proof.
  destruct (X5_page_detector
              (TakeExam.setExam
                 {| TakeExam.Exam.id := "e0"; TakeExam.Exam.title := "";
                    TakeExam.Exam.duration_minutes := 30;
                    TakeExam.Exam.anti_cheat_enabled := true;
                    TakeExam.Exam.max_warnings := 0 |} TakeExam.mounted)
              _ eq_refl ltac:(simpl; lia) []) as [Hzero _].
  by apply Hzero.
Defined.

(** ** The session page: what entering, leaving and coming back do to the
    store *)

Section SessionLifecycle.
Import Store TakeExam.

Lemma find_session_update examId studentId sid f db :
  (∀ r, ExamSession.exam_id (f r) = ExamSession.exam_id r
        ∧ ExamSession.student_id (f r) = ExamSession.student_id r) →
  find_session examId studentId (update_session sid f db)
  = (λ r, if bool_decide (ExamSession.id r = sid) then f r else r)
      <$> find_session examId studentId db.
Proof.
  intros Hf. unfold find_session, update_session. simpl.
  induction (exam_sessions db) as [|r rows IH]; simpl; [done|].
  assert (Hsame : ∀ r' : ExamSession.t,
    ExamSession.exam_id r' = ExamSession.exam_id r →
    ExamSession.student_id r' = ExamSession.student_id r →
    bool_decide (ExamSession.exam_id r' = examId)
    && bool_decide (ExamSession.student_id r' = studentId)
    = bool_decide (ExamSession.exam_id r = examId)
      && bool_decide (ExamSession.student_id r = studentId))
    by (by intros r' -> ->).
  destruct (bool_decide (ExamSession.id r = sid)) eqn:Hid.
  - rewrite Hsame by apply Hf.
    destruct (_ && _); [|done]. simpl. by rewrite Hid.
  - destruct (_ && _); [|done]. simpl. by rewrite Hid.
Qed.

Lemma find_session_sessions examId studentId db db' :
  exam_sessions db' = exam_sessions db →
  find_session examId studentId db' = find_session examId studentId db.
Proof. unfold find_session. by intros ->. Qed.

(** The timer's callback is the one of the first render, which has no
    session: when the time is up nothing is written and the page stays. *)
Lemma handleTimeUp_first_render now e db c : handleTimeUp now e db c = (db, c).
Proof. reflexivity. Qed.

(** Entering with a locked session. *)
Lemma loadExam_turned_away examId studentId now e db c examData r :
  exam_query e = Some examData →
  find_session examId studentId db = Some r →
  ExamSession.is_locked r = true →
  let after := loadExam examId studentId now e db c in
  fst after = db ∧ href (snd after) = Home ∧ session (snd after) = session c.
Proof.
  intros Hexam Hfind Hlocked. unfold loadExam.
  by rewrite Hexam, Hfind, Hlocked.
Qed.

(** Entering with an open session. *)
Lemma loadExam_resumed examId studentId now e db c examData r :
  exam_query e = Some examData →
  find_session examId studentId db = Some r →
  ExamSession.is_locked r = false →
  ExamSession.status r = in_progress →
  let after := loadExam examId studentId now e db c in
  fst after = db ∧ href (snd after) = href c ∧ session (snd after) = Some r.
Proof.
  intros Hexam Hfind Hlocked Hstatus. unfold loadExam.
  rewrite Hexam, Hfind, Hlocked, Hstatus. simpl.
  destruct (questions_query e); simpl; [|done].
  by destruct (answers_query_ok e).
Qed.

(** The row found for the pair after one [submitExam]. *)
Lemma submitExam_found auto now e db c s r examId studentId :
  session c = Some s →
  find_session examId studentId db = Some r →
  ExamSession.id r = ExamSession.id s →
  find_session examId studentId (fst (submitExam auto now e db c))
  = Some (match lock_write e with
          | WriteOk => set_locked (submit_status auto) now r
          | _ => r
          end).
Proof.
  intros Hs Hfind Hid. unfold submitExam. rewrite Hs.
  pose proof (autoSaveAnswers_sessions now e db (setSubmitting true c)) as Hrows.
  destruct (autoSaveAnswers now e db (setSubmitting true c)) as [db' c'].
  simpl in Hrows.
  pose proof (find_session_sessions examId studentId db db' Hrows) as Hfind'.
  rewrite Hfind in Hfind'.
  destruct (lock_write e); simpl; try done.
  rewrite find_session_update by done. rewrite Hfind'. simpl.
  by rewrite bool_decide_eq_true_2.
Qed.

End SessionLifecycle.

(** X6. Entering an exam never touches the saved answers and never changes
    a session row: the store is left as it was, or, when no session was
    found and the insert succeeded, it has one more session row, the new
    one.  [loading] is cleared in every case.  When the exam does not load
    or the insert fails, nothing is written, the page gets no session and is
    not sent anywhere, and one error is logged. *)
Theorem X6_loadExam_store_effect
  (examId studentId : string) (now : Z) (e : TakeExam.env)
  (db : Store.t) (c : TakeExam.component) :
  let after := TakeExam.loadExam examId studentId now e db c in
  TakeExam.loading (snd after) = false
  ∧ Store.student_answers (fst after) = Store.student_answers db
  ∧ (fst after = db
     ∨ (Store.find_session examId studentId db = None
        ∧ TakeExam.insert_session_ok e = true
        ∧ fst after
          = Store.insert_session
              (Store.new_session (TakeExam.fresh_session_id e)
                 examId studentId now) db))
  ∧ (TakeExam.exam_query e = None
     ∨ (Store.find_session examId studentId db = None
        ∧ TakeExam.insert_session_ok e = false) →
     fst after = db
     ∧ TakeExam.session (snd after) = TakeExam.session c
     ∧ TakeExam.href (snd after) = TakeExam.href c
     ∧ TakeExam.console_errors (snd after) = S (TakeExam.console_errors c)).
Proof.
  cbv zeta. unfold TakeExam.loadExam.
  destruct (TakeExam.exam_query e) as [examData|] eqn:Hexam.
  2: { split; [done|]. split; [done|]. split; [by left|]. by intros _. }
  destruct (Store.find_session examId studentId db) as [r|] eqn:Hfind.
  - destruct (_ || _).
    + split; [done|]. split; [done|]. split; [by left|]. by intros [?|[? ?]].
    + destruct (TakeExam.questions_query e); simpl;
        [destruct (TakeExam.answers_query_ok e)|];
        (split; [done|]; split; [done|]; split; [by left|];
         by intros [?|[? ?]]).
  - destruct (TakeExam.insert_session_ok e) eqn:Hins.
    + destruct (TakeExam.questions_query e); simpl;
        [destruct (TakeExam.answers_query_ok e)|];
        (split; [done|]; split; [done|]; split; [by right|];
         by intros [?|[? ?]]).
    + split; [done|]. split; [done|]. split; [by left|]. by intros _.
Qed.

(** The statement when the exam row cannot be read: the sample store is
    left as it was and one error is logged. *)
Lemma X6_loadExam_witness :
  fst (TakeExam.loadExam "e1" "u1" 5000
         {| TakeExam.exam_query := None;
            TakeExam.insert_session_ok := true;
            TakeExam.fresh_session_id := "s2";
            TakeExam.questions_query := Some ["q1"; "q2"]%string;
            TakeExam.answers_query_ok := true;
            TakeExam.upsert_outcome := λ _, Store.WriteOk;
            TakeExam.lock_write := Store.WriteOk;
            TakeExam.max_warnings_write := Store.WriteOk |} Examples.db1
         TakeExam.mounted)
  = Examples.db1.
Proof.
  destruct (X6_loadExam_store_effect "e1" "u1" 5000
              {| TakeExam.exam_query := None;
            TakeExam.insert_session_ok := true;
            TakeExam.fresh_session_id := "s2";
            TakeExam.questions_query := Some ["q1"; "q2"]%string;
            TakeExam.answers_query_ok := true;
            TakeExam.upsert_outcome := λ _, Store.WriteOk;
            TakeExam.lock_write := Store.WriteOk;
            TakeExam.max_warnings_write := Store.WriteOk |} Examples.db1
              TakeExam.mounted) as (_ & _ & _ & Hfail).
  by destruct (Hfail (or_introl eq_refl)) as [Hdb _].
Defined.

(** X7. Coming back to an exam does not start it again: after a first
    visit has created the session, a later visit finds that row, writes
    nothing, and takes it as the page's session with the [started_at] of the
    first visit, whatever the instant of the later visit. *)
Theorem X7_reload_resumes_created_session
  (examId studentId : string) (t1 t2 : Z) (e1 e2 : TakeExam.env)
  (db : Store.t) (c1 c2 : TakeExam.component)
  (ex1 ex2 : TakeExam.Exam.t)
  (Hnone : Store.find_session examId studentId db = None)
  (Hexam1 : TakeExam.exam_query e1 = Some ex1)
  (Hinsert : TakeExam.insert_session_ok e1 = true)
  (Hexam2 : TakeExam.exam_query e2 = Some ex2) :
  let first := TakeExam.loadExam examId studentId t1 e1 db c1 in
  let second := TakeExam.loadExam examId studentId t2 e2 (fst first) c2 in
  fst second = fst first
  ∧ TakeExam.session (snd second) = TakeExam.session (snd first)
  ∧ (∃ r, TakeExam.session (snd second) = Some r
          ∧ Store.ExamSession.started_at r = t1
          ∧ Store.exam_sessions (fst second) = Store.exam_sessions db ++ [r])
  ∧ TakeExam.href (snd second) = TakeExam.href c2.
Proof.
  intros first second.
  set (r := Store.new_session (TakeExam.fresh_session_id e1) examId studentId t1).
  assert (Hfirst : fst first = Store.insert_session r db
                   ∧ TakeExam.session (snd first) = Some r).
  { subst first. unfold TakeExam.loadExam. rewrite Hexam1, Hnone, Hinsert.
    fold r. destruct (TakeExam.questions_query e1); simpl; [|done].
    by destruct (TakeExam.answers_query_ok e1). }
  destruct Hfirst as [Hdb Hsess].
  assert (Hfound : Store.find_session examId studentId (fst first) = Some r).
  { rewrite Hdb. by apply find_session_insert. }
  destruct (loadExam_resumed examId studentId t2 e2 (fst first) c2 ex2 r
              Hexam2 Hfound eq_refl eq_refl) as (Hdb2 & Hhref & Hsess2).
  fold second in Hdb2, Hhref, Hsess2.
  split; [done|]. split; [by rewrite Hsess, Hsess2|].
  split; [|done]. exists r. split; [done|]. split; [done|].
  by rewrite Hdb2, Hdb.
Qed.

(** The reload statement for a second student of the sample exam, who
    enters at 7000 and comes back at 9000. *)
Lemma X7_reload_witness :
  ∃ r, TakeExam.session
         (snd (TakeExam.loadExam "e1" "u2" 9000 Examples.env_ok
                 (fst (TakeExam.loadExam "e1" "u2" 7000 Examples.env_ok
                         Examples.db1 TakeExam.mounted))
                 TakeExam.mounted)) = Some r
       ∧ Store.ExamSession.started_at r = 7000.
Proof.
  destruct (X7_reload_resumes_created_session "e1" "u2" 7000 9000
              Examples.env_ok Examples.env_ok Examples.db1
              TakeExam.mounted TakeExam.mounted Examples.exam1 Examples.exam1
              eq_refl eq_refl eq_refl eq_refl)
    as (_ & _ & (r & Hsess & Hstart & _) & _).
  by exists r.
Defined.

(** X8. A session that has been submitted cannot be entered again.  The
    page's copy of the session is the row as [loadExam] read it, and the
    stored row may have moved on since (a recorded warning); only the [id]
    is shared.  After [submitExam] (manual or forced) with a lock write that
    succeeds, and after [handleMaxWarnings] as soon as one of its two lock
    writes succeeds, entering the exam again sends the student to ['/'],
    gives the page no session and writes nothing. *)
Theorem X8_submitted_session_is_turned_away
  (examId studentId : string) (now now' t : Z) (e e' : TakeExam.env)
  (db : Store.t) (c c' : TakeExam.component)
  (s r : Store.ExamSession.t) (ex : TakeExam.Exam.t) (auto : bool)
  (Hs : TakeExam.session c = Some s)
  (Hfind : Store.find_session examId studentId db = Some r)
  (Hid : Store.ExamSession.id r = Store.ExamSession.id s)
  (Hexam : TakeExam.exam_query e' = Some ex) :
  (TakeExam.lock_write e = Store.WriteOk →
   let db1 := fst (TakeExam.submitExam auto now e db c) in
   let back := TakeExam.loadExam examId studentId t e' db1 c' in
   fst back = db1
   ∧ TakeExam.href (snd back) = TakeExam.Home
   ∧ TakeExam.session (snd back) = TakeExam.session c')
  ∧ (TakeExam.max_warnings_write e = Store.WriteOk
     ∨ (TakeExam.max_warnings_write e = Store.WriteError
        ∧ TakeExam.lock_write e = Store.WriteOk) →
     let db1 := fst (TakeExam.handleMaxWarnings now now' e db c) in
     let back := TakeExam.loadExam examId studentId t e' db1 c' in
     fst back = db1
     ∧ TakeExam.href (snd back) = TakeExam.Home
     ∧ TakeExam.session (snd back) = TakeExam.session c').
Proof.
  split.
  - intros Hlock db1 back.
    pose proof (submitExam_found auto now e db c s r examId studentId
                  Hs Hfind Hid) as Hfound.
    rewrite Hlock in Hfound.
    by apply (loadExam_turned_away examId studentId t e' db1 c' ex _ Hexam Hfound).
  - intros Hwrites db1 back.
    assert (∃ r', Store.find_session examId studentId db1 = Some r'
                  ∧ Store.ExamSession.is_locked r' = true)
      as (r' & Hfound & Hlocked).
    { subst db1. unfold TakeExam.handleMaxWarnings. rewrite Hs.
      destruct Hwrites as [-> | [-> Hlock]].
      - eexists. split.
        + apply (submitExam_found true now' e _ c s
                   (Store.set_locked Store.auto_submitted now r)); [done| |done].
          rewrite find_session_update by done. rewrite Hfind. simpl.
          by rewrite bool_decide_eq_true_2.
        + by destruct (TakeExam.lock_write e).
      - eexists. split; [by apply (submitExam_found true now' e db c s r)|].
        by rewrite Hlock. }
    by apply (loadExam_turned_away examId studentId t e' db1 c' ex r' Hexam Hfound).
Qed.

(** The statement at the sample session after a warning has been recorded,
    so that the stored row is no longer the page's copy: submitted by the
    student, or locked by the detector, it is turned away on entering
    again. *)
Lemma X8_submitted_witness :
  let warned :=
    TakeExam.handleWarning 1 1500 Store.WriteOk Examples.db1 Examples.page1 in
  TakeExam.href
    (snd (TakeExam.loadExam "e1" "u1" 9000 Examples.env_ok
            (fst (TakeExam.submitExam false 2000 Examples.env_ok
                    warned Examples.page1))
            TakeExam.mounted))
  = TakeExam.Home
  ∧ TakeExam.href
      (snd (TakeExam.loadExam "e1" "u1" 9000 Examples.env_ok
              (fst (TakeExam.handleMaxWarnings 2000 2001 Examples.env_ok
                      warned Examples.page1))
              TakeExam.mounted))
    = TakeExam.Home.
Proof.
  intros warned.
  destruct (X8_submitted_session_is_turned_away "e1" "u1" 2000 2001 9000
              Examples.env_ok Examples.env_ok warned Examples.page1
              TakeExam.mounted Examples.session1
              (Store.set_warning 1 1500 Examples.session1)
              Examples.exam1 false eq_refl eq_refl eq_refl eq_refl)
    as [Hsubmit Hmax].
  split.
  - by destruct (Hsubmit eq_refl) as (_ & Hhref & _).
  - by destruct (Hmax (or_introl eq_refl)) as (_ & Hhref & _).
Defined.

(** ** Autosave under store failures, and persisted warnings *)

Section AutosaveOutcomes.
Import Store TakeExam.
Variables (sid : string) (now : Z) (e : env).

Local Abbreviation loop :=
  (foldl (λ acc entry, autosave_entry sid now e entry.1 entry.2 acc)).

(** Once a promise has rejected, the remaining entries are not visited. *)
Lemma autosave_loop_left entries db : loop (db, true) entries = (db, true).
Proof. by induction entries as [|entry rest IH]. Qed.

Lemma before_rejection_keys entries q :
  q ∈ (before_rejection e entries).*1 → q ∈ entries.*1.
Proof.
  induction entries as [|[k a] rest IH]; simpl; [done|].
  destruct (upsert_outcome e k); simpl.
  - intros [->|?]%elem_of_cons; [by left|right; auto].
  - intros [->|?]%elem_of_cons; [by left|right; auto].
  - by intros ?%elem_of_nil.
Qed.

Lemma before_rejection_split entries :
  before_rejection e entries = entries
  ∨ ∃ q a rest, entries = before_rejection e entries ++ (q, a) :: rest
                ∧ upsert_outcome e q = WriteThrows.
Proof.
  induction entries as [|[k a] rest IH]; simpl; [by left|].
  destruct (upsert_outcome e k) eqn:Hout.
  - destruct IH as [->|(q & a' & rest' & Hrest & Hq)]; [by left|].
    right. exists q, a', rest'. split; [|done]. simpl. by rewrite <-Hrest.
  - destruct IH as [->|(q & a' & rest' & Hrest & Hq)]; [by left|].
    right. exists q, a', rest'. split; [|done]. simpl. by rewrite <-Hrest.
  - right. by exists k, a, rest.
Qed.

(** The loop over the entries in their order: it is left early exactly when
    some upsert's promise rejects; it writes neither a session row nor an
    answer of another session; each answer met before the rejection whose
    upsert succeeds is in its row, and every other row is as it was. *)
Lemma autosave_loop_spec entries db :
  NoDup entries.*1 →
  let acc := loop (db, false) entries in
  (snd acc = true
   ↔ ∃ q a, (q, a) ∈ entries ∧ upsert_outcome e q = WriteThrows)
  ∧ exam_sessions (fst acc) = exam_sessions db
  ∧ (∀ sid', sid' ≠ sid →
             student_answers (fst acc) !! sid' = student_answers db !! sid')
  ∧ ∀ q, answers_of_session sid (fst acc) !! q
         = match (list_to_map (before_rejection e entries)
                    : gmap string Answer.t) !! q,
                 upsert_outcome e q with
           | Some a, WriteOk =>
               Some (saved_row now (answers_of_session sid db !! q) a)
           | _, _ => answers_of_session sid db !! q
           end.
Proof.
  cbv zeta. revert db.
  induction entries as [|[k a] rest IH]; intros db Hnodup.
  { simpl. split; [|by repeat split].
    split; [done|]. by intros (q & a & ?%elem_of_nil & _). }
  simpl in Hnodup. apply NoDup_cons in Hnodup as [Hfresh Hnodup].
  assert (Hnone : (list_to_map (before_rejection e rest)
                     : gmap string Answer.t) !! k = None).
  { apply not_elem_of_list_to_map_1. intros Hk.
    by apply Hfresh, before_rejection_keys. }
  assert (Hext : (∃ q a0, (q, a0) ∈ (k, a) :: rest
                          ∧ upsert_outcome e q = WriteThrows)
                 ↔ upsert_outcome e k = WriteThrows
                   ∨ ∃ q a0, (q, a0) ∈ rest
                             ∧ upsert_outcome e q = WriteThrows).
  { split.
    - intros (q & a0 & [[= -> ->]|Hq]%elem_of_cons & Hthrows); [by left|].
      right. by exists q, a0.
    - intros [Hthrows|(q & a0 & Hq & Hthrows)].
      + exists k, a. split; [by left|done].
      + exists q, a0. split; [by right|done]. }
  rewrite Hext. cbn [foldl fst snd before_rejection].
  unfold autosave_entry at 2 4 6 8. cbn [fst snd].
  destruct (upsert_outcome e k) eqn:Hout.
  - specialize (IH (upsert_answer sid k (Js.or_null (Answer.answer_text a))
                      (Js.or_null (Answer.selected_option_id a)) now db)
                   Hnodup) as (Hthrown & Hrows & Hothers & Hsaved).
    split; [rewrite Hthrown; split; [by right|by intros [?|?]]|].
    split; [by rewrite Hrows|].
    split.
    { intros sid' Hsid'. rewrite Hothers by done. simpl.
      by rewrite lookup_insert_ne. }
    intros q. rewrite Hsaved, list_to_map_cons, !answers_of_session_upsert.
    destruct (decide (k = q)) as [<-|Hne].
    + by rewrite Hnone, lookup_insert_eq, Hout.
    + by rewrite lookup_insert_ne by done.
  - specialize (IH db Hnodup) as (Hthrown & Hrows & Hothers & Hsaved).
    split; [rewrite Hthrown; split; [by right|by intros [?|?]]|].
    split; [done|]. split; [done|].
    intros q. rewrite Hsaved, list_to_map_cons.
    destruct (decide (k = q)) as [<-|Hne].
    + by rewrite Hnone, lookup_insert_eq, Hout.
    + by rewrite lookup_insert_ne by done.
  - rewrite autosave_loop_left. simpl.
    split; [split; [by left|done]|]. split; [done|]. split; [done|].
    intros q. by rewrite lookup_empty.
Qed.

(** The loop over the state map visits its entries in one of their
    orders. *)
Lemma autoSaveAnswers_order db c :
  autoSaveAnswers now e db c
  = autoSaveAnswersIn (reverse (map_to_list (answers c))) now e db c.
Proof.
  unfold autoSaveAnswers, autoSaveAnswersIn.
  destruct (session c) as [s|]; [|done].
  rewrite map_fold_foldr. cbn [answers setAutoSaveStatus].
  assert (∀ (l : list (string * Answer.t)) acc,
            foldr (uncurry (autosave_entry (ExamSession.id s) now e)) acc l
            = foldl (λ acc entry,
                       autosave_entry (ExamSession.id s) now e
                                      entry.1 entry.2 acc)
                    acc (reverse l)) as ->; [|done].
  induction l as [|[q a] l IH]; intros acc; [done|].
  rewrite reverse_cons, foldl_app. simpl. by rewrite IH.
Qed.

End AutosaveOutcomes.

(** X9. An autosave tick is never fatal and never touches anything but the
    saved answers of the page's session, in whatever order
    [Object.entries] lists the answers: the session rows, the saved answers
    of every other session, the answers in memory, the page's session, its
    location and its [submitting] flag are as before.  The loop gets
    through the entries before the first one whose upsert promise rejects:
    of these, the answers whose upsert succeeded are in their rows, and
    every other row of the session is as it was.  When no promise rejects,
    these are all the answers and the tick ends [saved], also when upserts
    resolved with an error; when one rejects, the loop stops at it and the
    tick ends [idle] with one error logged. *)
Theorem X9_autosave_outcomes
  (entries : list (string * TakeExam.Answer.t))
  (now : Z) (e : TakeExam.env) (db : Store.t) (c : TakeExam.component)
  (s : Store.ExamSession.t) (Hs : TakeExam.session c = Some s)
  (Hentries : entries ≡ₚ map_to_list (TakeExam.answers c)) :
  let after := TakeExam.autoSaveAnswersIn entries now e db c in
  let visited : gmap string TakeExam.Answer.t :=
    list_to_map (TakeExam.before_rejection e entries) in
  let rejected :=
    ∃ q a, TakeExam.answers c !! q = Some a
           ∧ TakeExam.upsert_outcome e q = Store.WriteThrows in
  Store.exam_sessions (fst after) = Store.exam_sessions db
  ∧ (∀ sid, sid ≠ Store.ExamSession.id s →
            Store.student_answers (fst after) !! sid
            = Store.student_answers db !! sid)
  ∧ TakeExam.answers (snd after) = TakeExam.answers c
  ∧ TakeExam.session (snd after) = TakeExam.session c
  ∧ TakeExam.href (snd after) = TakeExam.href c
  ∧ TakeExam.submitting (snd after) = TakeExam.submitting c
  ∧ (∀ q, Store.answers_of_session (Store.ExamSession.id s) (fst after) !! q
          = match visited !! q, TakeExam.upsert_outcome e q with
            | Some a, Store.WriteOk =>
                Some (TakeExam.saved_row now
                        (Store.answers_of_session (Store.ExamSession.id s) db !! q) a)
            | _, _ => Store.answers_of_session (Store.ExamSession.id s) db !! q
            end)
  ∧ (rejected →
     TakeExam.autoSaveStatus (snd after) = TakeExam.idle
     ∧ TakeExam.console_errors (snd after) = S (TakeExam.console_errors c)
     ∧ ∃ q a rest,
         entries = TakeExam.before_rejection e entries ++ (q, a) :: rest
         ∧ TakeExam.upsert_outcome e q = Store.WriteThrows)
  ∧ (¬ rejected →
     TakeExam.autoSaveStatus (snd after) = TakeExam.saved
     ∧ TakeExam.console_errors (snd after) = TakeExam.console_errors c
     ∧ visited = TakeExam.answers c).
Proof.
  intros after visited rejected.
  assert (Hnodup : NoDup entries.*1).
  { rewrite Hentries. apply NoDup_fst_map_to_list. }
  assert (Hin : ∀ q a, (q, a) ∈ entries ↔ TakeExam.answers c !! q = Some a).
  { intros q a. rewrite Hentries. apply elem_of_map_to_list. }
  pose proof (autosave_loop_spec (Store.ExamSession.id s) now e entries db Hnodup)
    as (Hthrown & Hrows & Hothers & Hsaved).
  assert (Hrej : rejected
                 ↔ ∃ q a, (q, a) ∈ entries
                          ∧ TakeExam.upsert_outcome e q = Store.WriteThrows).
  { subst rejected. split; intros (q & a & Hq & Hthrows); exists q, a;
      (split; [by apply Hin|done]). }
  rewrite <-Hrej in Hthrown.
  subst after visited. unfold TakeExam.autoSaveAnswersIn. rewrite Hs.
  destruct (foldl _ _ _) as [db' thrown]. simpl in *.
  set (res := if thrown then _ else _).
  assert (Hfst : res.1 = db') by (subst res; by destruct thrown).
  rewrite !Hfst.
  split; [done|]. split; [done|].
  split; [subst res; by destruct thrown|].
  split; [subst res; by destruct thrown|].
  split; [subst res; by destruct thrown|].
  split; [subst res; by destruct thrown|].
  split; [done|]. subst res.
  split.
  - intros Hrejected. pose proof (proj2 Hthrown Hrejected) as ->.
    split; [done|]. split; [done|].
    destruct (before_rejection_split e entries)
      as [Hall|(q & a & rest & Hsplit & Hq)]; [|by exists q, a, rest].
    exfalso.
    assert (Hnone : ∀ l : list (string * TakeExam.Answer.t),
              TakeExam.before_rejection e l = l →
              ∀ q a, (q, a) ∈ l →
                     TakeExam.upsert_outcome e q ≠ Store.WriteThrows).
    { induction l as [|[k a] l IH]; simpl; [by intros _ ?? ?%elem_of_nil|].
      destruct (TakeExam.upsert_outcome e k) eqn:Hout; [| |done];
        intros [= Hl] q a' [[= -> ->]|Hq]%elem_of_cons; try congruence;
        by apply (IH Hl q a'). }
    destruct (proj1 Hthrown eq_refl) as (q & a & Hq & Hthrows).
    apply (Hnone entries Hall q a); [by apply Hin|done].
  - intros Hnot. destruct thrown; [by destruct Hnot; apply Hthrown|].
    split; [done|]. split; [done|].
    destruct (before_rejection_split e entries)
      as [->|(q & a & rest & Hsplit & Hq)].
    + rewrite (list_to_map_proper entries (map_to_list (TakeExam.answers c)))
        by done.
      apply list_to_map_to_list.
    + destruct Hnot. exists q, a. split; [|done]. apply Hin.
      rewrite Hsplit. apply elem_of_app. right. by left.
Qed.

(** The autosave statement at a tick over two answers whose upsert for
    ["q2"] comes back with an error: the tick still ends [saved], and
    nothing but the row of ["q1"] is written. *)
Lemma X9_autosave_witness :
  let e :=
    {| TakeExam.exam_query := Some Examples.exam1;
       TakeExam.insert_session_ok := true;
       TakeExam.fresh_session_id := "s2";
       TakeExam.questions_query := Some ["q1"; "q2"]%string;
       TakeExam.answers_query_ok := true;
       TakeExam.upsert_outcome :=
         λ q, if String.eqb q "q2" then Store.WriteError else Store.WriteOk;
       TakeExam.lock_write := Store.WriteOk;
       TakeExam.max_warnings_write := Store.WriteOk |} in
  let c :=
    TakeExam.handleAnswerChange "q1" Examples.picked
      (TakeExam.handleAnswerChange "q2" Examples.typed Examples.page1) in
  Store.exam_sessions
    (fst (TakeExam.autoSaveAnswersIn (map_to_list (TakeExam.answers c))
            2000 e Examples.db1 c))
  = Store.exam_sessions Examples.db1.
Proof.
  intros e c.
  by destruct (X9_autosave_outcomes (map_to_list (TakeExam.answers c))
                 2000 e Examples.db1 c Examples.session1 eq_refl
                 (reflexivity _))
    as (Hrows & _).
Defined.

Section WarningProps.
Import Store TakeExam.


End WarningProps.



(** ** From the grading page to the student's report *)

Section ReportProps.
Import GradeExam GradeSubmit.
Local Open Scope Qc_scope.






End ReportProps.



(** ** The exam form *)

Section CreateExamProps.
Import CreateExam.

Lemma positions_lookup n i :
  positions n !! i = if decide (i < n)%nat then Some (Z.of_nat i + 1) else None.
Proof.
  unfold positions. rewrite list_lookup_fmap.
  destruct (decide (i < n)%nat) as [Hlt|Hge].
  - by rewrite lookup_seq_lt.
  - by rewrite lookup_seq_ge by lia.
Qed.

Lemma renumbered_questions (l : list Question.t) :
  map Question.order_number
      (imap (λ i q, set_order_number (Z.of_nat i + 1) q) l)
  = positions (length l).
Proof.
  apply list_eq. intros i.
  rewrite list_lookup_fmap, list_lookup_imap, positions_lookup.
  destruct (l !! i) as [q|] eqn:Hq; simpl.
  - apply lookup_lt_Some in Hq. by rewrite decide_True.
  - apply lookup_ge_None in Hq. by rewrite decide_False by lia.
Qed.

Lemma renumbered_options (l : list QuestionOption.t) :
  map QuestionOption.order_number
      (imap (λ i o, set_option_order (Z.of_nat i + 1) o) l)
  = positions (length l).
Proof.
  apply list_eq. intros i.
  rewrite list_lookup_fmap, list_lookup_imap, positions_lookup.
  destruct (l !! i) as [q|] eqn:Hq; simpl.
  - apply lookup_lt_Some in Hq. by rewrite decide_True.
  - apply lookup_ge_None in Hq. by rewrite decide_False by lia.
Qed.

Lemma positions_S n : positions (S n) = positions n ++ [Z.of_nat n + 1].
Proof. unfold positions. by rewrite seq_S, map_app. Qed.

Lemma delete_out_of_range {A} (l : list A) i :
  (length l ≤ i)%nat → delete i l = l.
Proof.
  revert i. induction l as [|x l IH]; intros i Hi; [by destruct i|].
  destruct i as [|i]; simpl in *; [lia|]. f_equal. apply IH. lia.
Qed.

Lemma click_numbered k questions :
  map Question.order_number questions = positions (length questions) →
  (1 ≤ length questions)%nat →
  map Question.order_number (click k questions)
  = positions (length (click k questions))
  ∧ (1 ≤ length (click k questions))%nat.
Proof.
  intros Hnum Hlen. destruct k as [|index]; simpl.
  - unfold handleAddQuestion. rewrite map_app, length_app. simpl.
    rewrite Nat.add_1_r, positions_S, Hnum. split; [done|lia].
  - unfold handleRemoveQuestion.
    destruct (1 <? length questions)%nat eqn:Hmany; [|done].
    apply Nat.ltb_lt in Hmany.
    rewrite renumbered_questions, length_imap. split; [done|].
    destruct (decide (index < length questions)%nat).
    + rewrite length_delete; [lia|]. by apply lookup_lt_is_Some.
    + rewrite delete_out_of_range by lia. lia.
Qed.

Lemma clicks_numbered clicks questions :
  map Question.order_number questions = positions (length questions) →
  (1 ≤ length questions)%nat →
  map Question.order_number (foldl (λ qs k, click k qs) questions clicks)
  = positions (length (foldl (λ qs k, click k qs) questions clicks))
  ∧ (1 ≤ length (foldl (λ qs k, click k qs) questions clicks))%nat.
Proof.
  revert questions. induction clicks as [|k clicks IH]; intros questions Hnum Hlen.
  - done.
  - simpl. destruct (click_numbered k questions Hnum Hlen). by apply IH.
Qed.

Lemma correct_count_flags (l1 l2 : list QuestionOption.t) :
  map QuestionOption.is_correct l1 = map QuestionOption.is_correct l2 →
  correct_count l1 = correct_count l2.
Proof.
  unfold correct_count. revert l2.
  induction l1 as [|o1 l1 IH]; intros [|o2 l2] Hflags; simpl in *; try done.
  injection Hflags as -> Hrest. destruct (QuestionOption.is_correct o2); simpl;
    by rewrite (IH l2).
Qed.

Lemma correct_count_cleared (l : list QuestionOption.t) :
  correct_count (map (set_is_correct false) l) = 0%nat.
Proof. unfold correct_count. by induction l. Qed.

Lemma correct_count_marked (l : list QuestionOption.t) i :
  (i < length l)%nat →
  correct_count (alter (set_is_correct true) i (map (set_is_correct false) l))
  = 1%nat.
Proof.
  revert i. induction l as [|o l IH]; intros i Hi; simpl in *; [lia|].
  destruct i as [|i]; simpl.
  - unfold correct_count. simpl. f_equal. apply correct_count_cleared.
  - unfold correct_count in *. simpl. apply IH. lia.
Qed.

Lemma correct_count_delete (l : list QuestionOption.t) i o :
  l !! i = Some o →
  (correct_count (delete i l)
   + (if QuestionOption.is_correct o then 1 else 0))%nat
  = correct_count l.
Proof.
  unfold correct_count. revert i.
  induction l as [|o' l IH]; intros i Hi; simpl in *; [done|].
  destruct i as [|i]; simpl in *.
  - injection Hi as ->. destruct (QuestionOption.is_correct o); simpl; lia.
  - specialize (IH i Hi). destruct (QuestionOption.is_correct o'); simpl; lia.
Qed.

Lemma renumbered_options_flags (l : list QuestionOption.t) :
  map QuestionOption.is_correct
      (imap (λ i o, set_option_order (Z.of_nat i + 1) o) l)
  = map QuestionOption.is_correct l.
Proof.
  apply list_eq. intros i.
  rewrite !list_lookup_fmap, list_lookup_imap. by destruct (l !! i).
Qed.

Lemma marked_flags (l : list QuestionOption.t) i j o :
  alter (set_is_correct true) i (map (set_is_correct false) l) !! j = Some o →
  QuestionOption.is_correct o = bool_decide (j = i).
Proof.
  destruct (decide (j = i)) as [->|Hne].
  - rewrite list_lookup_alter_eq, list_lookup_fmap.
    destruct (l !! i); simpl; [|done]. intros [= <-].
    by rewrite bool_decide_eq_true_2.
  - rewrite list_lookup_alter_ne by done. rewrite list_lookup_fmap.
    destruct (l !! j); simpl; [|done]. intros [= <-].
    by rewrite bool_decide_eq_false_2.
Qed.

End CreateExamProps.

(** X12. On the exam form the questions are always numbered 1, 2, ..., n
    in their order, and there is always at least one: this holds of the
    initial form and after every sequence of "add question" and "remove
    question" clicks.  Removing takes out the question clicked and no other;
    with a single question left, removing does nothing. *)
Theorem X12_questions_numbered (clicks : list CreateExam.question_click) :
  let questions := foldl (λ qs k, CreateExam.click k qs)
                         CreateExam.initialQuestions clicks in
  map CreateExam.Question.order_number questions
  = CreateExam.positions (length questions)
  ∧ (1 ≤ length questions)%nat
  ∧ (∀ index qs,
       (1 < length qs)%nat →
       map (CreateExam.set_order_number 0)
           (CreateExam.handleRemoveQuestion index qs)
       = map (CreateExam.set_order_number 0) (delete index qs))
  ∧ (∀ index q, CreateExam.handleRemoveQuestion index [q] = [q]).
Proof.
  cbv zeta.
  destruct (clicks_numbered clicks CreateExam.initialQuestions) as [Hnum Hlen];
    [done|simpl; lia|].
  split; [done|]. split; [done|]. split.
  - intros index qs Hmany. unfold CreateExam.handleRemoveQuestion.
    replace (1 <? length qs)%nat with true by (symmetry; by apply Nat.ltb_lt).
    apply list_eq. intros i.
    rewrite !list_lookup_fmap, list_lookup_imap.
    by destruct (delete index qs !! i).
  - done.
Qed.

(** The numbering statement after adding two questions and removing the
    second of the three. *)
Lemma X12_questions_numbered_witness :
  map CreateExam.Question.order_number
      (foldl (λ qs k, CreateExam.click k qs) CreateExam.initialQuestions
             [CreateExam.AddQuestion; CreateExam.AddQuestion;
              CreateExam.RemoveQuestion 1])
  = [1; 2].
Proof.
  destruct (X12_questions_numbered
              [CreateExam.AddQuestion; CreateExam.AddQuestion;
               CreateExam.RemoveQuestion 1]) as [Hnum _].
  rewrite Hnum. reflexivity.
Defined.

(** X13. On the exam form, for a question and an option that exist:
    choosing the correct option leaves exactly that option marked, the
    texts, the order and the other questions untouched; adding an option
    appends an unmarked one numbered after the last and keeps the number of
    marked options; removing an option is refused at two options, and above
    two it takes that option out, renumbers the rest 1, 2, ..., n and
    lowers the number of marked options by one exactly when the option
    removed was the marked one, so that removing the correct option leaves
    the question without any. *)
Theorem X13_options_marking
  (questions : list CreateExam.Question.t) (qi oi : nat)
  (q : CreateExam.Question.t) (o : CreateExam.QuestionOption.t)
  (Hq : questions !! qi = Some q)
  (Ho : CreateExam.Question.options q !! oi = Some o) :
  let options_after f := CreateExam.Question.options <$> f questions !! qi in
  (∃ os, options_after (CreateExam.handleCorrectOptionChange qi oi) = Some os
         ∧ CreateExam.correct_count os = 1%nat
         ∧ (∀ j o', os !! j = Some o' →
                    CreateExam.QuestionOption.is_correct o' = bool_decide (j = oi))
         ∧ map CreateExam.QuestionOption.option_text os
           = map CreateExam.QuestionOption.option_text (CreateExam.Question.options q)
         ∧ ∀ k, k ≠ qi →
                CreateExam.handleCorrectOptionChange qi oi questions !! k
                = questions !! k)
  ∧ (∃ added, options_after (CreateExam.handleAddOption qi)
              = Some (CreateExam.Question.options q ++ [added])
              ∧ CreateExam.QuestionOption.is_correct added = false
              ∧ CreateExam.QuestionOption.order_number added
                = Z.of_nat (length (CreateExam.Question.options q)) + 1
              ∧ CreateExam.correct_count (CreateExam.Question.options q ++ [added])
                = CreateExam.correct_count (CreateExam.Question.options q))
  ∧ ((length (CreateExam.Question.options q) ≤ 2)%nat →
     CreateExam.handleRemoveOption qi oi questions = questions)
  ∧ ((2 < length (CreateExam.Question.options q))%nat →
     ∃ os, options_after (CreateExam.handleRemoveOption qi oi) = Some os
           ∧ length os = (length (CreateExam.Question.options q) - 1)%nat
           ∧ map CreateExam.QuestionOption.order_number os
             = CreateExam.positions (length os)
           ∧ map CreateExam.QuestionOption.option_text os
             = map CreateExam.QuestionOption.option_text
                   (delete oi (CreateExam.Question.options q))
           ∧ (CreateExam.correct_count os
              + (if CreateExam.QuestionOption.is_correct o then 1 else 0))%nat
             = CreateExam.correct_count (CreateExam.Question.options q)).
Proof.
  intros options_after. subst options_after. cbv beta.
  assert (Hqi : (qi < length questions)%nat) by by apply lookup_lt_Some in Hq.
  assert (Hoi : (oi < length (CreateExam.Question.options q))%nat)
    by by apply lookup_lt_Some in Ho.
  split; [|split; [|split]].
  - unfold CreateExam.handleCorrectOptionChange. rewrite Hq.
    rewrite list_lookup_insert_eq by done. simpl. eexists. split; [done|].
    split; [by apply correct_count_marked|].
    split; [apply marked_flags|]. split.
    + apply list_eq. intros j. rewrite !list_lookup_fmap.
      destruct (decide (j = oi)) as [->|Hne].
      * rewrite list_lookup_alter_eq, list_lookup_fmap.
        by destruct (CreateExam.Question.options q !! oi).
      * rewrite list_lookup_alter_ne by done. rewrite list_lookup_fmap.
        by destruct (CreateExam.Question.options q !! j).
    + intros k Hk. by rewrite list_lookup_insert_ne.
  - unfold CreateExam.handleAddOption. rewrite Hq.
    rewrite list_lookup_insert_eq by done. simpl. eexists. split; [done|].
    split; [done|]. split; [done|].
    unfold CreateExam.correct_count. rewrite List.filter_app. simpl.
    by rewrite app_nil_r.
  - intros Hfew. unfold CreateExam.handleRemoveOption. rewrite Hq.
    by replace (2 <? _)%nat with false by (symmetry; by apply Nat.ltb_ge).
  - intros Hmany. unfold CreateExam.handleRemoveOption. rewrite Hq.
    replace (2 <? _)%nat with true by (symmetry; by apply Nat.ltb_lt).
    rewrite list_lookup_insert_eq by done. simpl. eexists. split; [done|].
    split; [rewrite length_imap, length_delete by eauto; done|].
    split; [by rewrite renumbered_options, length_imap|]. split.
    + apply list_eq. intros j. rewrite !list_lookup_fmap, list_lookup_imap.
      by destruct (delete oi (CreateExam.Question.options q) !! j).
    + rewrite (correct_count_flags _ (delete oi (CreateExam.Question.options q)))
        by apply renumbered_options_flags.
      by apply correct_count_delete.
Qed.

(** The options statement at the initial question with a third option
    added, when the marked first option is removed: none is left marked. *)
Lemma X13_options_witness :
  ∃ os, CreateExam.Question.options
          <$> CreateExam.handleRemoveOption 0 0
                (CreateExam.handleAddOption 0 CreateExam.initialQuestions) !! 0%nat
        = Some os
        ∧ (CreateExam.correct_count os + 1)%nat = 1%nat.
Proof.
  destruct (X13_options_marking
              (CreateExam.handleAddOption 0 CreateExam.initialQuestions) 0 0
              _ _ eq_refl eq_refl) as (_ & _ & _ & Hremove).
  destruct Hremove as (os & Hos & _ & _ & _ & Hcount); [simpl; lia|].
  by exists os.
Defined.

(** ** Creating the exam *)

Section CreateSubmitProps.
Import CreateExam.

Lemma insert_questions_spec e i questions :
  let r := insert_questions e i questions in
  (∀ qid os, InsertOptions qid os ∈ fst r →
             ∃ q, q ∈ questions
                  ∧ Question.question_type q = GradeExam.mcq
                  ∧ os = Question.options q)
  ∧ omap inserted_question (fst r) `prefix_of` questions
  ∧ (snd r = true → omap inserted_question (fst r) = questions)
  ∧ (snd r = true →
     ∀ q, q ∈ questions → Question.question_type q = GradeExam.mcq →
          ∃ qid, InsertOptions qid (Question.options q) ∈ fst r).
Proof.
  revert i. induction questions as [|q rest IH]; intros i; cbv zeta.
  { simpl. split; [by intros ?? ?%elem_of_nil|]. split; [done|].
    split; [done|]. by intros _ q ?%elem_of_nil. }
  cbn [insert_questions].
  destruct (question_insert e i) as [qid|].
  2: { simpl. split; [by intros ?? ?%elem_of_nil|].
       split; [apply prefix_nil|]. done. }
  specialize (IH (S i)). cbv zeta in IH.
  destruct (insert_questions e (S i) rest) as [ws ok].
  simpl in IH. destruct IH as (IHopts & IHpre & IHall & IHmcq).
  case_bool_decide as Hmcq.
  - destruct (options_insert e i).
    + simpl. split; [|split; [|split]].
      * intros qid' os Hin.
        apply elem_of_cons in Hin as [?|Hin]; [done|].
        apply elem_of_cons in Hin as [[= -> ->]|Hin].
        { exists q. split; [apply list_elem_of_here|done]. }
        destruct (IHopts _ _ Hin) as (q' & ? & ? & ?).
        exists q'. split; [by apply list_elem_of_further|done].
      * by apply prefix_cons.
      * intros Hok. f_equal. by apply IHall.
      * intros Hok q' Hq' Hmcq'.
        apply elem_of_cons in Hq' as [->|Hq'].
        { exists qid. apply list_elem_of_further, list_elem_of_here. }
        destruct (IHmcq Hok q' Hq' Hmcq') as [qid' Hin].
        exists qid'. by do 2 apply list_elem_of_further.
    + simpl. split; [|split; [|done]].
      * intros qid' os Hin.
        apply elem_of_cons in Hin as [?|Hin]; [done|].
        by apply elem_of_nil in Hin.
      * apply prefix_cons, prefix_nil.
  - simpl. split; [|split; [|split]].
    + intros qid' os Hin. apply elem_of_cons in Hin as [?|Hin]; [done|].
      destruct (IHopts _ _ Hin) as (q' & ? & ? & ?).
      exists q'. split; [by apply list_elem_of_further|done].
    + by apply prefix_cons.
    + intros Hok. f_equal. by apply IHall.
    + intros Hok q' Hq' Hmcq'.
      apply elem_of_cons in Hq' as [->|Hq']; [done|].
      destruct (IHmcq Hok q' Hq' Hmcq') as [qid' Hin].
      exists qid'. by apply list_elem_of_further.
Qed.

End CreateSubmitProps.

(** X14. Creating an exam writes the exam row first, then questions of the
    form in their order: the questions written are a prefix of the form's
    questions.  Option rows are written for [mcq] questions only, with the
    options of a question of the form, so a [true_false] question is stored
    without options.  When the handler ends with "created", every question
    and the options of every [mcq] question were written; when a write
    fails, the rows written before it stay (the handler deletes nothing).
    Without a profile nothing is written. *)
Theorem X14_handleSubmit_writes
  (e : CreateExam.env) (questions : list CreateExam.Question.t) :
  let log := fst (CreateExam.handleSubmit true e questions) in
  let outcome := snd (CreateExam.handleSubmit true e questions) in
  (∀ qid os, CreateExam.InsertOptions qid os ∈ log →
             ∃ q, q ∈ questions
                  ∧ CreateExam.Question.question_type q = GradeExam.mcq
                  ∧ os = CreateExam.Question.options q)
  ∧ omap CreateExam.inserted_question log `prefix_of` questions
  ∧ (log = [] ∨ head log = Some CreateExam.InsertExam)
  ∧ (outcome = CreateExam.Created →
     omap CreateExam.inserted_question log = questions
     ∧ ∀ q, q ∈ questions →
            CreateExam.Question.question_type q = GradeExam.mcq →
            ∃ qid, CreateExam.InsertOptions qid (CreateExam.Question.options q) ∈ log)
  ∧ outcome ≠ CreateExam.NoProfile
  ∧ CreateExam.handleSubmit false e questions = ([], CreateExam.NoProfile).
Proof.
  cbv zeta. unfold CreateExam.handleSubmit. simpl.
  destruct (CreateExam.exam_insert e) as [examId|].
  2: { simpl. split; [by intros ?? ?%elem_of_nil|].
       split; [apply prefix_nil|]. split; [by left|]. done. }
  pose proof (insert_questions_spec e 0 questions) as Hspec. cbv zeta in Hspec.
  destruct (CreateExam.insert_questions e 0 questions) as [ws ok].
  simpl in *. destruct Hspec as (Hopts & Hpre & Hall & Hmcq).
  split.
  { intros qid os Hin. apply elem_of_cons in Hin as [?|Hin]; [done|]. eauto. }
  split; [done|]. split; [by right|].
  split.
  - intros Hcreated. destruct ok; [|done]. split; [by apply Hall|].
    intros q Hq Htype. destruct (Hmcq eq_refl q Hq Htype) as [qid Hin].
    exists qid. by apply list_elem_of_further.
  - split; [by destruct ok|done].
Qed.

(** The statement at a form with a true/false question: only the exam and
    the question are written. *)
Lemma X14_handleSubmit_witness :
  let tf :=
    {| CreateExam.Question.question_type := GradeExam.true_false;
       CreateExam.Question.question_text := "Paris is in France";
       CreateExam.Question.points := Js.of_Z 1;
       CreateExam.Question.correct_answer := "true";
       CreateExam.Question.order_number := 1;
       CreateExam.Question.options := CreateExam.Question.options (CreateExam.newQuestion 1) |} in
  let e :=
    {| CreateExam.exam_insert := Some "e9"%string;
       CreateExam.question_insert := λ _, Some "q9"%string;
       CreateExam.options_insert := λ _, true |} in
  omap CreateExam.inserted_question (fst (CreateExam.handleSubmit true e [tf]))
  = [tf].
Proof.
  intros tf e.
  destruct (X14_handleSubmit_writes e [tf]) as (_ & _ & _ & Hcreated & _).
  by destruct (Hcreated eq_refl) as [Hall _].
Defined.

(** ** Validating an edited exam *)

Section ValidateProps.
Import EditExam.
Variable trim : string → string.

Lemma blank_false s : blank trim s = false ↔ trim s ≠ ""%string.
Proof. unfold blank. apply String.eqb_neq. Qed.

Lemma blank_true s : blank trim s = true ↔ trim s = ""%string.
Proof. unfold blank. apply String.eqb_eq. Qed.

Lemma first_blank_option_None j os :
  first_blank_option trim j os = None
  ↔ ∀ o, o ∈ os → trim (QuestionOption.option_text o) ≠ ""%string.
Proof.
  revert j. induction os as [|o os IH]; intros j; simpl.
  { split; [by intros _ o ?%elem_of_nil|done]. }
  destruct (blank trim (QuestionOption.option_text o)) eqn:Hb.
  - split; [done|]. intros Hall. apply blank_true in Hb.
    by destruct (Hall o (list_elem_of_here _ _)).
  - rewrite IH. apply blank_false in Hb. split.
    + intros Hall o' Ho'. apply elem_of_cons in Ho' as [->|?]; auto.
    + intros Hall o' Ho'. apply Hall. by apply list_elem_of_further.
Qed.

Lemma existsb_is_correct os :
  existsb QuestionOption.is_correct os = true
  ↔ ∃ o, o ∈ os ∧ QuestionOption.is_correct o = true.
Proof.
  rewrite existsb_exists. split; intros (o & Ho & Hc); exists o;
    (split; [by apply list_elem_of_In|done]).
Qed.

Lemma validate_question_None i q :
  validate_question trim i q = None ↔ accepted_question trim q.
Proof.
  unfold validate_question, accepted_question.
  destruct (blank trim (Question.question_text q)) eqn:Htext.
  { apply blank_true in Htext. split; [done|]. by intros [? _]. }
  apply blank_false in Htext.
  destruct (Z.leb_spec (Question.points q) 0) as [Hp|Hp].
  { split; [done|]. intros (_ & ? & _). lia. }
  destruct (Question.question_type q) eqn:Htype.
  - (* mcq *)
    destruct (Question.question_options q) as [os|] eqn:Hos.
    + destruct (existsb QuestionOption.is_correct os) eqn:Hex; simpl.
      * apply existsb_is_correct in Hex.
        destruct (first_blank_option trim 0 os) as [j|] eqn:Hblank.
        -- split; [done|]. intros (_ & _ & Hmcq & _).
           destruct (Hmcq eq_refl os eq_refl) as [_ Hall].
           pose proof (proj2 (first_blank_option_None 0 os) Hall). congruence.
        -- pose proof (proj1 (first_blank_option_None 0 os) Hblank) as Hall.
           split; [|done].
           intros _. split; [done|]. split; [done|]. split.
           ++ intros _ os' [= <-]. done.
           ++ by intros [?|?].
      * split; [done|]. intros (_ & _ & Hmcq & _).
        destruct (Hmcq eq_refl os eq_refl) as [Hc _].
        apply existsb_is_correct in Hc. congruence.
    + split; [|done]. intros _. split; [done|]. split; [done|]. split.
      * by intros _ os'.
      * by intros [?|?].
  - (* true_false *)
    split; [|done]. intros _. split; [done|]. split; [done|].
    split; [done|]. by intros [?|?].
  - (* short_answer *)
    destruct (Question.correct_answer q) as [m|].
    + destruct (blank trim m) eqn:Hm.
      * apply blank_true in Hm. split; [done|]. intros (_ & _ & _ & Hshort).
        destruct Hshort as (m' & [= <-] & ?); [by left|done].
      * apply blank_false in Hm. split; [|done]. intros _.
        split; [done|]. split; [done|]. split; [done|]. intros _. by exists m.
    + split; [done|]. intros (_ & _ & _ & Hshort).
      by destruct Hshort as (m' & ? & ?); [by left|].
  - (* long_answer *)
    destruct (Question.correct_answer q) as [m|].
    + destruct (blank trim m) eqn:Hm.
      * apply blank_true in Hm. split; [done|]. intros (_ & _ & _ & Hlong).
        destruct Hlong as (m' & [= <-] & ?); [by right|done].
      * apply blank_false in Hm. split; [|done]. intros _.
        split; [done|]. split; [done|]. split; [done|]. intros _. by exists m.
    + split; [done|]. intros (_ & _ & _ & Hlong).
      by destruct Hlong as (m' & ? & ?); [by right|].
Qed.

(** The loop reports the first question it refuses. *)
Lemma validate_questions_first i qs :
  match validate_questions trim i qs with
  | None => Forall (accepted_question trim) qs
  | Some err =>
      ∃ k q, qs !! k = Some q
             ∧ validate_question trim (i + k) q = Some err
             ∧ Forall (accepted_question trim) (take k qs)
  end.
Proof.
  revert i. induction qs as [|q qs IH]; intros i; simpl; [done|].
  destruct (validate_question trim i q) as [err|] eqn:Hq.
  - exists 0%nat, q. rewrite Nat.add_0_r. by repeat split.
  - apply validate_question_None in Hq. specialize (IH (S i)).
    destruct (validate_questions trim (S i) qs) as [err|].
    + destruct IH as (k & q' & Hk & Herr & Hbefore).
      exists (S k), q'. rewrite Nat.add_succ_r. simpl.
      split; [done|]. split; [done|]. by constructor.
    + by constructor.
Qed.

End ValidateProps.

(** X15. [validateExam] accepts an exam exactly when the title and the
    description are not blank, the duration is positive, the close date is
    not at or before the open date (dates that do not parse pass), and every
    question has a text that is not blank and positive points, with, for an
    [mcq] question that has options, an option marked correct and no blank
    option text, and for a [short_answer] or [long_answer] question a
    correct answer that is not blank; a [true_false] question needs nothing
    more.  Blank is what [trim] takes to the empty string, whatever [trim]
    strips.  When a question is refused, the error is that of the first
    refused question, the questions before it being accepted. *)
Theorem X15_validateExam_sound_and_complete
  (trim : string → string)
  (exam : EditExam.Exam.t) (questions : list EditExam.Question.t) :
  (EditExam.validateExam trim exam questions = None
   ↔ trim (EditExam.Exam.title exam) ≠ ""%string
     ∧ trim (EditExam.Exam.description exam) ≠ ""%string
     ∧ 0 < EditExam.Exam.duration_minutes exam
     ∧ (∀ o c, EditExam.Exam.open_date exam = Some o →
               EditExam.Exam.close_date exam = Some c → o < c)
     ∧ Forall (EditExam.accepted_question trim) questions)
  ∧ (∀ err, EditExam.validate_questions trim 0 questions = Some err →
            ∃ k q, questions !! k = Some q
                   ∧ EditExam.validate_question trim k q = Some err
                   ∧ Forall (EditExam.accepted_question trim) (take k questions)).
Proof.
  split.
  - unfold EditExam.validateExam.
    destruct (EditExam.blank trim (EditExam.Exam.title exam)) eqn:Htitle.
    { apply blank_true in Htitle. split; [done|]. by intros [? _]. }
    apply blank_false in Htitle.
    destruct (EditExam.blank trim (EditExam.Exam.description exam)) eqn:Hdesc.
    { apply blank_true in Hdesc. split; [done|]. by intros (_ & ? & _). }
    apply blank_false in Hdesc.
    destruct (Z.leb_spec (EditExam.Exam.duration_minutes exam) 0) as [Hd|Hd].
    { split; [done|]. intros (_ & _ & ? & _). lia. }
    assert (Hdates :
      EditExam.date_le (EditExam.Exam.close_date exam) (EditExam.Exam.open_date exam)
      = false
      ↔ ∀ o c, EditExam.Exam.open_date exam = Some o →
               EditExam.Exam.close_date exam = Some c → o < c).
    { unfold EditExam.date_le.
      destruct (EditExam.Exam.close_date exam) as [c|],
               (EditExam.Exam.open_date exam) as [o|];
        try (split; [by intros _ ?? ?|done]).
      rewrite Z.leb_gt. split.
      - by intros ? ?? [= <-] [= <-].
      - intros H. by apply H. }
    destruct (EditExam.date_le _ _) eqn:Hle.
    { split; [done|]. intros (_ & _ & _ & Hd' & _).
      apply Hdates in Hd'. done. }
    pose proof (validate_questions_first trim 0 questions) as Hloop.
    destruct (EditExam.validate_questions trim 0 questions) as [err|].
    + split; [done|]. intros (_ & _ & _ & _ & Hall).
      destruct Hloop as (k & q & Hk & Herr & _).
      assert (EditExam.accepted_question trim q) as Hq.
      { rewrite Forall_forall in Hall. apply Hall.
        by apply list_elem_of_lookup_2 with k. }
      apply (validate_question_None trim k) in Hq. simpl in Herr. congruence.
    + split; [|done]. intros _. repeat split; try done. by apply Hdates.
  - intros err Herr.
    pose proof (validate_questions_first trim 0 questions) as Hloop.
    rewrite Herr in Hloop. done.
Qed.

(** X15 at a form whose only question has a text of two spaces, with
    [Js.trim]. *)
Lemma X15_validateExam_witness :
  ∃ k q,
    [ {| EditExam.Question.question_text := "  ";
         EditExam.Question.points := 10;
         EditExam.Question.order_number := 1;
         EditExam.Question.question_type := GradeExam.mcq;
         EditExam.Question.correct_answer := None;
         EditExam.Question.question_options := Some [] |} ] !! k = Some q
    ∧ EditExam.validate_question Js.trim k q
      = Some (EditExam.QuestionTextRequired 1).
Proof.
  destruct (X15_validateExam_sound_and_complete Js.trim
              {| EditExam.Exam.title := "t"; EditExam.Exam.description := "d";
                 EditExam.Exam.duration_minutes := 60;
                 EditExam.Exam.open_date := Some 0;
                 EditExam.Exam.close_date := Some 10 |}
              [ {| EditExam.Question.question_text := "  ";
                   EditExam.Question.points := 10;
                   EditExam.Question.order_number := 1;
                   EditExam.Question.question_type := GradeExam.mcq;
                   EditExam.Question.correct_answer := None;
                   EditExam.Question.question_options := Some [] |} ])
    as [_ Hfirst].
  destruct (Hfirst (EditExam.QuestionTextRequired 1) eq_refl)
    as (k & q & Hk & Herr & _).
  by exists k, q.
Defined.

(** ** The dashboard and the exam page *)

(** X16. What the dashboard offers agrees with what entering does.  With
    no session, an exam is upcoming before its open date, closed after its
    close date and available in between, both ends included; "Start" is
    offered only then, and entering creates the session.  "Continue" is
    offered exactly for a session [in_progress], also after the close date,
    and entering resumes that very session when it is not locked.  An exam
    shown completed is turned away on entering, and so is one shown blocked
    when its row is locked as the session invariant has it. *)
Theorem X16_dashboard_agrees_with_entry
  (examId studentId : string) (now open_date close_date t : Z)
  (e : TakeExam.env) (db : Store.t) (c : TakeExam.component)
  (ex : TakeExam.Exam.t)
  (Hexam : TakeExam.exam_query e = Some ex) :
  let found := Store.find_session examId studentId db in
  let status := StudentDashboard.getExamStatus now open_date close_date found in
  let button := StudentDashboard.entry now open_date close_date found in
  let after := TakeExam.loadExam examId studentId t e db c in
  (found = None →
   (status = StudentDashboard.upcoming ↔ now < open_date)
   ∧ (status = StudentDashboard.closed ↔ open_date ≤ now ∧ close_date < now)
   ∧ (status = StudentDashboard.available ↔ open_date ≤ now ≤ close_date))
  ∧ (button = StudentDashboard.StartExam →
     found = None ∧ open_date ≤ now ≤ close_date
     ∧ (TakeExam.insert_session_ok e = true →
        ∃ r, TakeExam.session (snd after) = Some r
             ∧ Store.ExamSession.status r = Store.in_progress
             ∧ Store.ExamSession.started_at r = t))
  ∧ (button = StudentDashboard.Continue
     ↔ ∃ r, found = Some r ∧ Store.ExamSession.status r = Store.in_progress)
  ∧ (∀ r, found = Some r → button = StudentDashboard.Continue →
          Store.ExamSession.is_locked r = false →
          fst after = db ∧ TakeExam.session (snd after) = Some r)
  ∧ (status = StudentDashboard.completed →
     fst after = db ∧ TakeExam.href (snd after) = TakeExam.Home
     ∧ TakeExam.session (snd after) = TakeExam.session c)
  ∧ (∀ r, found = Some r → Store.session_consistent r →
          status = StudentDashboard.blocked →
          fst after = db ∧ TakeExam.href (snd after) = TakeExam.Home
          ∧ TakeExam.session (snd after) = TakeExam.session c).
Proof.
  intros found status button after. subst status button after.
  unfold StudentDashboard.entry, StudentDashboard.getExamStatus.
  destruct found as [r|] eqn:Hfound; subst found; simpl.
  - destruct (Store.ExamSession.status r) eqn:Hstatus; simpl.
    + (* in_progress *)
      split; [done|]. split; [done|]. split; [split; [by exists r|done]|].
      split.
      { intros r' [= <-] _ Hopen.
        by destruct (loadExam_resumed examId studentId t e db c ex r
                       Hexam Hfound Hopen Hstatus) as (? & _ & ?). }
      split; [done|]. done.
    + (* submitted *)
      split; [done|]. split; [done|].
      split; [split; [done|intros (r' & [= <-] & ?); congruence]|].
      split; [done|]. split; [|done]. intros _.
      unfold TakeExam.loadExam. rewrite Hexam, Hfound, Hstatus. simpl.
      by rewrite orb_true_r.
    + (* auto_submitted *)
      split; [done|]. split; [done|].
      split; [split; [done|intros (r' & [= <-] & ?); congruence]|].
      split; [done|]. split; [|done]. intros _.
      unfold TakeExam.loadExam. rewrite Hexam, Hfound, Hstatus. simpl.
      by rewrite orb_true_r.
    + (* blocked *)
      split; [done|]. split; [done|].
      split; [split; [done|intros (r' & [= <-] & ?); congruence]|].
      split; [done|]. split; [done|].
      intros r' [= <-] Hcons _.
      assert (Store.ExamSession.is_locked r = true) as Hlocked.
      { apply Hcons. by rewrite Hstatus. }
      by apply (loadExam_turned_away examId studentId t e db c ex r).
  - destruct (Z.ltb_spec now open_date) as [Hbefore|Hopen]; simpl.
    { split; [|by repeat split; try done; intros (? & ? & _)].
      intros _. repeat split; try done; lia. }
    destruct (Z.ltb_spec close_date now) as [Hafter|Hclose]; simpl.
    { split; [|by repeat split; try done; intros (? & ? & _)].
      intros _. repeat split; try done; lia. }
    split; [intros _; repeat split; try done; lia|].
    split.
    { intros _. split; [done|]. split; [lia|]. intros Hinsert.
      unfold TakeExam.loadExam. rewrite Hexam, Hfound, Hinsert.
      eexists. destruct (TakeExam.questions_query e); simpl;
        [destruct (TakeExam.answers_query_ok e)|]; by repeat split. }
    split; [split; [done|by intros (? & ? & _)]|]. done.
Qed.

(** The dashboard statement at the sample session, after the close date:
    "Continue" is offered and entering resumes the session. *)
Lemma X16_dashboard_witness :
  TakeExam.session
    (snd (TakeExam.loadExam "e1" "u1" 99000 Examples.env_ok Examples.db1
            TakeExam.mounted))
  = Some Examples.session1.
Proof.
  destruct (X16_dashboard_agrees_with_entry "e1" "u1" 99000 0 50000 99000
              Examples.env_ok Examples.db1 TakeExam.mounted Examples.exam1
              eq_refl) as (_ & _ & _ & Hcontinue & _).
  by destruct (Hcontinue Examples.session1 eq_refl eq_refl eq_refl) as [_ Hs].
Defined.

(** ** The router *)

Section RouterProps.
Import App.

(** When [ProtectedRoute] lets its children through. *)
Lemma ProtectedRoute_renders loading user profile allowedRoles children p :
  ProtectedRoute loading user profile allowedRoles children = Render p →
  p = children ∧ loading = false ∧ is_Some user
  ∧ ∃ r, profile = Some r
         ∧ ∀ roles, allowedRoles = Some roles → r ∈ roles.
Proof.
  unfold ProtectedRoute. destruct loading; [done|].
  destruct user as [u|]; [|by destruct profile].
  destruct profile as [r|]; [|done].
  destruct allowedRoles as [roles|].
  - case_bool_decide as Hin; simpl; [|done].
    intros [= <-]. split; [done|]. split; [done|]. split; [by eexists|].
    exists r. split; [done|]. by intros ? [= <-].
  - intros [= <-]. split; [done|]. split; [done|]. split; [by eexists|].
    exists r. split; [done|]. done.
Qed.

Lemma strip_prefix_app pat rest : strip_prefix pat (pat ++ rest) = Some rest.
Proof.
  induction pat as [|a pat IH]; simpl; [done|]. by rewrite Ascii.eqb_refl.
Qed.

Lemma strip_prefix_Some pat s rest :
  strip_prefix pat s = Some rest → s = (pat ++ rest)%string.
Proof.
  revert s. induction pat as [|a pat IH]; intros s; simpl.
  - by intros [= ->].
  - destruct s as [|b s]; [done|].
    destruct (Ascii.eqb_spec a b) as [->|]; [|done].
    intros Hrest. by rewrite (IH _ Hrest).
Qed.

End RouterProps.

(** X17. The router keeps the audiences apart.  Whatever the path, a page
    is mounted only once the session has loaded; the login and register
    forms only for a visitor who is not signed in; a student page (the exam,
    a result, the student dashboard) only for a signed-in user whose profile
    has the role [student]; a teacher page only for a signed-in user whose
    profile has the role [teacher] or [admin].  So a signed-in user whose
    profile did not load is given no page at all, on no path.  The grading
    page gets as [sessionId] what follows ["/teacher/grade/"] in the path,
    and every path of that form reaches it for a teacher. *)
Theorem X17_router_separates_audiences
  (currentPath : string) (loading : bool) (user : option string)
  (profile : option App.role) :
  (∀ p, App.Router currentPath loading user profile = App.Render p →
        loading = false
        ∧ match App.audience_of p with
          | App.Visitors => user = None
          | App.Students => is_Some user ∧ profile = Some App.student
          | App.Teachers =>
              is_Some user
              ∧ (profile = Some App.teacher ∨ profile = Some App.admin)
          end)
  ∧ (is_Some user → profile = None →
     ∀ p, App.Router currentPath loading user profile ≠ App.Render p)
  ∧ (∀ sessionId,
        App.Router currentPath loading user profile
        = App.Render (App.GradeExamPage sessionId) →
        currentPath = ("/teacher/grade/" ++ sessionId)%string)
  ∧ (∀ sessionId, is_Some user →
        profile = Some App.teacher ∨ profile = Some App.admin →
        App.Router ("/teacher/grade/" ++ sessionId) false user profile
        = App.Render (App.GradeExamPage sessionId)).
Proof.
  assert (∀ p, App.Router currentPath loading user profile = App.Render p →
        loading = false
        ∧ match App.audience_of p with
          | App.Visitors => user = None
          | App.Students => is_Some user ∧ profile = Some App.student
          | App.Teachers =>
              is_Some user
              ∧ (profile = Some App.teacher ∨ profile = Some App.admin)
          end) as Hsep.
  { intros p. unfold App.Router. destruct loading; [done|].
    repeat match goal with
           | |- (if ?b then _ else _) = _ → _ => destruct b
           | |- match user with _ => _ end = _ → _ => destruct user
           end;
      try done;
      try (intros [= <-]; by split);
      intros Hp; apply ProtectedRoute_renders in Hp
        as (-> & _ & Huser & r & -> & Hroles);
      (split; [done|]); simpl; (split; [done|]);
      specialize (Hroles _ eq_refl);
      repeat (apply elem_of_cons in Hroles as [->|Hroles]; [by auto|]);
      by apply elem_of_nil in Hroles. }
  split; [exact Hsep|]. split.
  { intros Huser Hprofile p Hp. destruct (Hsep p Hp) as [_ Haud].
    destruct (App.audience_of p).
    - rewrite Haud in Huser. by destruct Huser.
    - destruct Haud as [_ Hs]. congruence.
    - destruct Haud as [_ [Hs|Hs]]; congruence. }
  split.
  { intros sessionId. unfold App.Router. destruct loading; [done|].
    repeat match goal with
           | |- (if ?b then _ else _) = _ → _ => destruct b eqn:?
           | |- match user with _ => _ end = _ → _ => destruct user
           end;
      try done;
      try (intros Hp; apply ProtectedRoute_renders in Hp as [Hp _]; done).
    intros Hp. apply ProtectedRoute_renders in Hp as [[= ->] _].
    unfold App.startsWith in *.
    destruct (App.strip_prefix "/teacher/grade/" currentPath) as [rest|] eqn:Hrest;
      [|done].
    apply strip_prefix_Some in Hrest as ->.
    change (App.replace ("/teacher/grade/" ++ rest) "/teacher/grade/" "")
      with rest. done. }
  intros sessionId [u ->] Hrole. unfold App.Router, App.ProtectedRoute.
  change (App.replace ("/teacher/grade/" ++ sessionId) "/teacher/grade/" "")
    with sessionId.
  by destruct Hrole as [-> | ->].
Qed.

(** The statement at an administrator on a grading path: the grading page
    of the session named in the path. *)
Lemma X17_router_witness :
  App.Router "/teacher/grade/s1" false (Some "u7"%string) (Some App.admin)
  = App.Render (App.GradeExamPage "s1").
Proof.
  destruct (X17_router_separates_audiences "/" false (Some "u7"%string)
              (Some App.admin)) as (_ & _ & _ & Hgrade).
  apply (Hgrade "s1"%string); [by eexists|by right].
Defined.
